(** * Swiss Ephemeris for JavaScript: the calculation gateways and their
      flag and result layers, embedded from the TypeScript and C++ sources.

    Numbers of the host language are IEEE 754 binary64 values.  Day counts,
    angles and hours are kept as primitive floats; the quantities that the
    sources only ever use as integers (flag bitmasks, body ids, return codes,
    calendar fields, heap addresses) are kept in [Z], and every bitwise
    operator first applies the language's ToInt32 conversion, written out. *)

From Stdlib Require Import ZArith Floats Lia Bool List String.
From stdpp Require Import gmap strings.
Import ListNotations.

Open Scope Z_scope.

(** ** Host-language integers *)

Module JS.

(** ECMAScript ToInt32 on an integral number. *)
Definition toInt32 (z : Z) : Z :=
  let r := z mod 2 ^ 32 in
  if r <? 2 ^ 31 then r else r - 2 ^ 32.

(** [a | b], [a & b] and [~a]. *)
Definition bor (a b : Z) : Z := Z.lor (toInt32 a) (toInt32 b).
Definition band (a b : Z) : Z := Z.land (toInt32 a) (toInt32 b).
Definition bnot (a : Z) : Z := Z.lnot (toInt32 a).

(** The values on which ToInt32 is the identity. *)
Definition int32 (z : Z) : Prop := - 2 ^ 31 <= z < 2 ^ 31.

End JS.

(** ** Enumerations (core/src/enums.ts) *)

Module CalendarType.
Inductive t := Julian | Gregorian.
Definition value (c : t) : Z :=
  match c with Julian => 0 | Gregorian => 1 end.
End CalendarType.

Module HouseSystem.
Inductive t :=
  | Placidus | Koch | Porphyrius | Regiomontanus | Campanus | Equal
  | VehlowEqual | WholeSign | Meridian | Azimuthal | PolichPage
  | Alcabitus | Morinus.
(** The one-letter string that is the enum's value. *)
Definition value (h : t) : string :=
  match h with
  | Placidus => "P" | Koch => "K" | Porphyrius => "O"
  | Regiomontanus => "R" | Campanus => "C" | Equal => "A"
  | VehlowEqual => "V" | WholeSign => "W" | Meridian => "X"
  | Azimuthal => "H" | PolichPage => "T" | Alcabitus => "B"
  | Morinus => "M"
  end%string.
End HouseSystem.

Module HousePoint.
Definition Ascendant : nat := 0.
Definition MC : nat := 1.
Definition ARMC : nat := 2.
Definition Vertex : nat := 3.
Definition EquatorialAscendant : nat := 4.
Definition CoAscendant1 : nat := 5.
Definition CoAscendant2 : nat := 6.
Definition PolarAscendant : nat := 7.
End HousePoint.

Module CalculationFlag.
Inductive t :=
  | JPLEphemeris | SwissEphemeris | MoshierEphemeris | Heliocentric
  | TruePositions | J2000 | NoNutation | Speed3 | Speed
  | NoGravitationalDeflection | NoAberration | Equatorial | XYZ | Radians
  | Barycentric | Topocentric | Sidereal | ICRS | DpsidepsIAU1980
  | JPLHorizons | JPLHorizonsApprox.
Definition value (f : t) : Z :=
  match f with
  | JPLEphemeris => 1 | SwissEphemeris => 2 | MoshierEphemeris => 4
  | Heliocentric => 8 | TruePositions => 16 | J2000 => 32
  | NoNutation => 64 | Speed3 => 128 | Speed => 256
  | NoGravitationalDeflection => 512 | NoAberration => 1024
  | Equatorial => 2048 | XYZ => 4096 | Radians => 8192
  | Barycentric => 16384 | Topocentric => 32768 | Sidereal => 65536
  | ICRS => 131072 | DpsidepsIAU1980 => 262144 | JPLHorizons => 524288
  | JPLHorizonsApprox => 1048576
  end.
End CalculationFlag.

Module CommonCalculationFlags.
Import CalculationFlag.
Definition Astrometric : Z :=
  JS.bor (value NoAberration) (value NoGravitationalDeflection).
Definition DefaultSwissEphemeris : Z :=
  JS.bor (value SwissEphemeris) (value Speed).
Definition DefaultMoshier : Z :=
  JS.bor (value MoshierEphemeris) (value Speed).
End CommonCalculationFlags.

Module EclipseType.
Inductive t :=
  | Central | NonCentral | Total | Annular | Partial | AnnularTotal
  | Penumbral.
Definition value (e : t) : Z :=
  match e with
  | Central => 1 | NonCentral => 2 | Total => 4 | Annular => 8
  | Partial => 16 | AnnularTotal => 32 | Penumbral => 64
  end.
End EclipseType.

(** ** Flag builders and normalisation (core/src/flags.ts) *)

(** The argument of [add] and [remove]: one flag or an array of flags.  At
    run time a flag is a number, so the builders work on numbers; a named
    option enters through the [value] of its enumeration. *)
Inductive FlagArg :=
  | One (f : Z)
  | Many (fs : list Z).

Module CalculationFlags.

(** The builder object; [flags] is its one private field.  The methods
    update the object in place and return it, here the updated state. *)
Record t := mk { flags : Z }.

Definition add (flag : FlagArg) (this : t) : t :=
  match flag with
  | Many fs => fold_left (fun b f => mk (JS.bor (flags b) f)) fs this
  | One f => mk (JS.bor (flags this) f)
  end.

Definition remove (flag : FlagArg) (this : t) : t :=
  match flag with
  | Many fs =>
      fold_left (fun b f => mk (JS.band (flags b) (JS.bnot f))) fs this
  | One f => mk (JS.band (flags this) (JS.bnot f))
  end.

Definition has (flag : Z) (this : t) : bool :=
  JS.band (flags this) flag =? flag.

Definition toNumber (this : t) : Z := flags this.

(** [new CalculationFlags(initialFlags?)] *)
Definition new (initialFlags : option FlagArg) : t :=
  match initialFlags with
  | Some a => add a (mk 0)
  | None => mk 0
  end.

(** [CalculationFlags.from(...flags)] *)
Definition from (fs : list Z) : t := new (Some (Many fs)).

Definition swissEphemerisWithSpeed : t :=
  from (map CalculationFlag.value
          [CalculationFlag.SwissEphemeris; CalculationFlag.Speed]).
Definition moshierWithSpeed : t :=
  from (map CalculationFlag.value
          [CalculationFlag.MoshierEphemeris; CalculationFlag.Speed]).
Definition astrometric : t :=
  from (map CalculationFlag.value
          [CalculationFlag.SwissEphemeris; CalculationFlag.NoAberration;
           CalculationFlag.NoGravitationalDeflection]).
Definition heliocentric : t :=
  from (map CalculationFlag.value
          [CalculationFlag.SwissEphemeris; CalculationFlag.Heliocentric]).
Definition topocentric : t :=
  from (map CalculationFlag.value
          [CalculationFlag.SwissEphemeris; CalculationFlag.Topocentric]).
Definition equatorial : t :=
  from (map CalculationFlag.value
          [CalculationFlag.SwissEphemeris; CalculationFlag.Equatorial;
           CalculationFlag.Speed]).

End CalculationFlags.

Module EclipseTypeFlags.

Record t := mk { flags : Z }.

Definition add (flag : FlagArg) (this : t) : t :=
  match flag with
  | Many fs => fold_left (fun b f => mk (JS.bor (flags b) f)) fs this
  | One f => mk (JS.bor (flags this) f)
  end.

Definition has (flag : Z) (this : t) : bool :=
  JS.band (flags this) flag =? flag.

Definition toNumber (this : t) : Z := flags this.

Definition new (initialFlags : option FlagArg) : t :=
  match initialFlags with
  | Some a => add a (mk 0)
  | None => mk 0
  end.

Definition from (fs : list Z) : t := new (Some (Many fs)).

Definition allSolar : t :=
  new (Some (Many (map EclipseType.value
                     [EclipseType.Central; EclipseType.NonCentral;
                      EclipseType.Total; EclipseType.Annular;
                      EclipseType.Partial; EclipseType.AnnularTotal]))).
Definition allLunar : t :=
  new (Some (Many (map EclipseType.value
                     [EclipseType.Total; EclipseType.Partial;
                      EclipseType.Penumbral]))).
Definition totalOnly : t := from [EclipseType.value EclipseType.Total].
Definition totalAndPartial : t :=
  from (map EclipseType.value [EclipseType.Total; EclipseType.Partial]).

End EclipseTypeFlags.

(** [CalculationFlagInput = number | CalculationFlag | CalculationFlags |
    CalculationFlag[]] *)
Inductive CalculationFlagInput :=
  | FlagNumber (n : Z)
  | FlagNamed (f : CalculationFlag.t)
  | FlagBuilder (b : CalculationFlags.t)
  | FlagArray (fs : list Z).

Definition normalizeFlags (input : CalculationFlagInput) : Z :=
  match input with
  | FlagNumber n => n
  | FlagBuilder b => CalculationFlags.toNumber b
  | FlagArray fs => CalculationFlags.toNumber (CalculationFlags.from fs)
  | FlagNamed f => CalculationFlag.value f
  end.

Inductive EclipseTypeFlagInput :=
  | TypeNumber (n : Z)
  | TypeNamed (e : EclipseType.t)
  | TypeBuilder (b : EclipseTypeFlags.t)
  | TypeArray (es : list Z).

Definition normalizeEclipseTypes (input : EclipseTypeFlagInput) : Z :=
  match input with
  | TypeNumber n => n
  | TypeBuilder b => EclipseTypeFlags.toNumber b
  | TypeArray es => EclipseTypeFlags.toNumber (EclipseTypeFlags.from es)
  | TypeNamed e => EclipseType.value e
  end.

(** The expression [f1 | f2 | ... | fn] a caller writes to pass a raw
    integer: left-nested, a lone operand is not converted, and the empty
    combination is the literal 0. *)
Definition rawOr (fs : list Z) : Z :=
  match fs with
  | [] => 0
  | f :: rest => fold_left JS.bor rest f
  end.

(** A run of builder calls, as a caller chains them. *)
Inductive BuilderCall :=
  | CallAdd (a : FlagArg)
  | CallRemove (a : FlagArg).

Definition applyCall (b : CalculationFlags.t) (c : BuilderCall)
  : CalculationFlags.t :=
  match c with
  | CallAdd a => CalculationFlags.add a b
  | CallRemove a => CalculationFlags.remove a b
  end.

Definition applyCalls (cs : list BuilderCall) (b : CalculationFlags.t)
  : CalculationFlags.t :=
  fold_left applyCall cs b.

(** ** Eclipse records (core/src/implementations.ts) *)

Module LunarEclipseImpl.

Record t := mk {
  type : Z;
  maximum : float;
  partialBegin : float;
  partialEnd : float;
  totalBegin : float;
  totalEnd : float;
  penumbralBegin : float;
  penumbralEnd : float
}.

Definition isTotal (this : t) : bool :=
  negb (JS.band (type this) (EclipseType.value EclipseType.Total) =? 0).

Definition isPartial (this : t) : bool :=
  negb (JS.band (type this) (EclipseType.value EclipseType.Partial) =? 0).

Definition isPenumbralOnly (this : t) : bool :=
  negb (JS.band (type this) (EclipseType.value EclipseType.Penumbral) =? 0)
  && (JS.band (type this)
        (JS.bor (EclipseType.value EclipseType.Total)
                (EclipseType.value EclipseType.Partial)) =? 0).

Definition getTotalityDuration (this : t) : float :=
  if negb (isTotal this)
     || PrimFloat.eqb (totalBegin this) 0
     || PrimFloat.eqb (totalEnd this) 0
  then 0%float
  else
    let duration := ((totalEnd this - totalBegin this) * 24)%float in
    if PrimFloat.ltb 0 duration then duration else 0%float.

Definition getPartialDuration (this : t) : float :=
  if PrimFloat.eqb (partialBegin this) 0
     || PrimFloat.eqb (partialEnd this) 0
  then 0%float
  else
    let duration := ((partialEnd this - partialBegin this) * 24)%float in
    if PrimFloat.ltb 0 duration then duration else 0%float.

Definition getTotalDuration (this : t) : float :=
  if PrimFloat.eqb (penumbralBegin this) 0
     || PrimFloat.eqb (penumbralEnd this) 0
  then 0%float
  else
    let duration := ((penumbralEnd this - penumbralBegin this) * 24)%float in
    if PrimFloat.ltb 0 duration then duration else 0%float.

End LunarEclipseImpl.

Module SolarEclipseImpl.

Record t := mk {
  type : Z;
  maximum : float;
  partialBegin : float;
  partialEnd : float;
  centralBegin : float;
  centralEnd : float;
  centerLineBegin : float;
  centerLineEnd : float
}.

Definition isTotal (this : t) : bool :=
  negb (JS.band (type this) (EclipseType.value EclipseType.Total) =? 0).
Definition isAnnular (this : t) : bool :=
  negb (JS.band (type this) (EclipseType.value EclipseType.Annular) =? 0).
Definition isHybrid (this : t) : bool :=
  negb (JS.band (type this)
          (EclipseType.value EclipseType.AnnularTotal) =? 0).
Definition isPartial (this : t) : bool :=
  negb (JS.band (type this) (EclipseType.value EclipseType.Partial) =? 0).
Definition isCentral (this : t) : bool :=
  negb (JS.band (type this) (EclipseType.value EclipseType.Central) =? 0).
Definition isNonCentral (this : t) : bool :=
  negb (JS.band (type this)
          (EclipseType.value EclipseType.NonCentral) =? 0).

End SolarEclipseImpl.

Module DateTimeImpl.
Record t := mk {
  year : Z;
  month : Z;
  day : Z;
  hour : float;
  calendarType : CalendarType.t
}.
End DateTimeImpl.

(** ** The duration rule in the words of the specification

    "computed as (end - begin) * 24, clamped to zero if the subtraction is
    non-positive or either boundary is the sentinel".  This is the reference
    the three duration methods are compared with. *)
Definition clampedHours (begin_ end_ : float) : float :=
  if PrimFloat.eqb begin_ 0 || PrimFloat.eqb end_ 0 then 0%float
  else if PrimFloat.ltb 0 (end_ - begin_) then ((end_ - begin_) * 24)%float
  else 0%float.

(** A number is non-negative when [0 <= x] holds in the host language
    (which excludes NaN). *)
Definition nonNegative (x : float) : bool := PrimFloat.leb 0 x.

(** The sentinel test [x === 0] of the sources. *)
Definition isSentinel (x : float) : bool := PrimFloat.eqb x 0.

(** Bit [k] of a type bitmask, read as the 32-bit integer the bitwise
    operators see. *)
Definition typeBit (type : Z) (k : Z) : bool := Z.testbit (JS.toInt32 type) k.

(** The binary64 values above zero, on their specification form. *)
Definition sf_positive (x : spec_float) : bool :=
  match x with
  | S754_infinity false | S754_finite false _ _ => true
  | _ => false
  end.


(** ** Result records (core/src/results.ts) *)

Record PlanetaryPosition := {
  longitude : float;
  latitude : float;
  distance : float;
  longitudeSpeed : float;
  latitudeSpeed : float;
  distanceSpeed : float;
  flags : Z
}.

Record HouseData := {
  cusps : list float;
  ascendant : float;
  mc : float;
  armc : float;
  vertex : float;
  equatorialAscendant : float;
  coAscendant1 : float;
  coAscendant2 : float;
  polarAscendant : float;
  houseSystem : HouseSystem.t
}.

(** ** Errors and outcomes of a gateway call *)

Module JsError.
(** What the sources put into an error object: its class and its message. *)
Record t := mk { name : string; message : string }.
Definition Error (msg : string) : t := mk "Error" msg.
Definition TypeError (msg : string) : t := mk "TypeError" msg.
End JsError.

Inductive Outcome (A : Type) :=
  | Return (a : A)
  | Throw (e : JsError.t).
Arguments Return {A} a.
Arguments Throw {A} e.

(** ** The engine

    The engine is the external library behind both gateways.  Its entry
    points are taken as given functions; the calculations that read data
    files also see the directory last configured ([None] before any
    configuration).  An output buffer is the list of its slots. *)

Record EngineReply := {
  ret : Z;
  buf : list float;
  serr : string
}.

Record HousesReply := {
  hret : Z;
  hcusps : list float;
  hascmc : list float
}.

Record Engine := {
  swe_julday : Z -> Z -> Z -> float -> Z -> float;
  swe_revjul : float -> Z -> Z * Z * Z * float;
  swe_calc_ut : option string -> float -> Z -> Z -> EngineReply;
  swe_lun_eclipse_when :
    option string -> float -> Z -> Z -> Z -> EngineReply;
  swe_sol_eclipse_when_glob :
    option string -> float -> Z -> Z -> Z -> EngineReply;
  swe_houses : float -> float -> float -> Z -> HousesReply;
  swe_get_planet_name : option string -> Z -> string;
  swe_version : string
}.

(** The calls that reach the engine, with the arguments it receives. *)
Inductive EngineCall :=
  | CSetEphePath (path : string)
  | CJulday (year month day : Z) (hour : float) (gregflag : Z)
  | CRevjul (jd : float) (gregflag : Z)
  | CCalcUt (tjd_ut : float) (ipl iflag : Z)
  | CLunEclipseWhen (tjd_start : float) (ifl ifltype backward : Z)
  | CSolEclipseWhenGlob (tjd_start : float) (ifl ifltype backward : Z)
  | CHouses (tjd_ut geolat geolon : float) (hsys : Z)
  | CGetPlanetName (ipl : Z)
  | CVersion
  | CClose.

(** The process-wide state of one engine instance: the configured data
    directory, and the record of every call made so far. *)
Record EngineState := {
  ephePath : option string;
  calls : list EngineCall
}.

Definition freshEngine : EngineState := {| ephePath := None; calls := [] |}.

Definition logCall (c : EngineCall) (es : EngineState) : EngineState :=
  {| ephePath := ephePath es; calls := calls es ++ [c] |}.

Definition configurePath (path : string) (es : EngineState) : EngineState :=
  {| ephePath := Some path; calls := calls es ++ [CSetEphePath path] |}.

(** How many times the data directory has been configured. *)
Definition configurations (es : EngineState) : nat :=
  length (List.filter (fun c => match c with CSetEphePath _ => true | _ => false end)
            (calls es)).

(** The first [n] slots of a C output buffer. *)
Definition slots (n : nat) (b : list float) : list float :=
  map (fun i => nth i b 0%float) (seq 0 n).

(** [a[i]] on an array of numbers that has the slot. *)
Definition at_ (a : list float) (i : nat) : float := nth i a 0%float.

(** [s.charCodeAt(0)], and the first byte of the UTF-8 text in C++. *)
Definition charCode0 (s : string) : Z :=
  match s with
  | String c _ => Z.of_N (Ascii.N_of_ascii c)
  | EmptyString => 0
  end.

Definition SE_GREG_CAL : Z := 1.
Definition SEFLG_SWIEPH : Z := 2.
Definition SEFLG_SPEED : Z := 256.

(** ** The native addon (node/binding/swisseph_binding.cc)

    Each wrapper converts its arguments ([Int32Value] is ToInt32), calls the
    engine with buffers on its own stack, and either throws or copies the
    buffers into fresh arrays.  The gateway passes every argument, so the
    arity checks of the wrappers cannot fire; a trailing argument the
    wrapper defaults is an [option]. *)

Module Binding.
Section WithEngine.
Variable eng : Engine.

Definition set_ephe_path (path : string) (es : EngineState) : EngineState :=
  configurePath path es.

Definition julday (year month day : Z) (hour : float) (gregflag : option Z)
    (es : EngineState) : EngineState * float :=
  let y := JS.toInt32 year in
  let m := JS.toInt32 month in
  let d := JS.toInt32 day in
  let g := match gregflag with
           | Some g => JS.toInt32 g
           | None => SE_GREG_CAL
           end in
  (logCall (CJulday y m d hour g) es, swe_julday eng y m d hour g).

Definition revjul (jd : float) (gregflag : option Z) (es : EngineState)
  : EngineState * (Z * Z * Z * float) :=
  let g := match gregflag with
           | Some g => JS.toInt32 g
           | None => SE_GREG_CAL
           end in
  (logCall (CRevjul jd g) es, swe_revjul eng jd g).

Definition calc_ut (tjd_ut : float) (ipl : Z) (iflag : option Z)
    (es : EngineState) : EngineState * Outcome (list float * Z) :=
  let ipl := JS.toInt32 ipl in
  let iflag := match iflag with
               | Some f => JS.toInt32 f
               | None => Z.lor SEFLG_SWIEPH SEFLG_SPEED
               end in
  let r := swe_calc_ut eng (ephePath es) tjd_ut ipl iflag in
  let es := logCall (CCalcUt tjd_ut ipl iflag) es in
  if ret r <? 0 then (es, Throw (JsError.Error (serr r)))
  else (es, Return (slots 6 (buf r), ret r)).

Definition close (es : EngineState) : EngineState := logCall CClose es.

Definition get_planet_name (ipl : Z) (es : EngineState)
  : EngineState * string :=
  let ipl := JS.toInt32 ipl in
  (logCall (CGetPlanetName ipl) es,
   swe_get_planet_name eng (ephePath es) ipl).

Definition lun_eclipse_when (tjd_start : float) (ifl ifltype backward : option Z)
    (es : EngineState) : EngineState * Outcome (Z * list float) :=
  let ifl := match ifl with
             | Some f => JS.toInt32 f
             | None => SEFLG_SWIEPH
             end in
  let ifltype := match ifltype with Some t => JS.toInt32 t | None => 0 end in
  let backward := match backward with Some b => JS.toInt32 b | None => 0 end in
  let r := swe_lun_eclipse_when eng (ephePath es) tjd_start ifl ifltype
             backward in
  let es := logCall (CLunEclipseWhen tjd_start ifl ifltype backward) es in
  if ret r <? 0 then (es, Throw (JsError.Error (serr r)))
  else (es, Return (ret r, slots 10 (buf r))).

Definition sol_eclipse_when_glob (tjd_start : float)
    (ifl ifltype backward : option Z)
    (es : EngineState) : EngineState * Outcome (Z * list float) :=
  let ifl := match ifl with
             | Some f => JS.toInt32 f
             | None => SEFLG_SWIEPH
             end in
  let ifltype := match ifltype with Some t => JS.toInt32 t | None => 0 end in
  let backward := match backward with Some b => JS.toInt32 b | None => 0 end in
  let r := swe_sol_eclipse_when_glob eng (ephePath es) tjd_start ifl ifltype
             backward in
  let es := logCall (CSolEclipseWhenGlob tjd_start ifl ifltype backward) es in
  if ret r <? 0 then (es, Throw (JsError.Error (serr r)))
  else (es, Return (ret r, slots 10 (buf r))).

Definition houses (tjd_ut geolat geolon : float) (hsys : option string)
    (es : EngineState) : EngineState * Outcome (list float * list float) :=
  let hsys := match hsys with
              | Some s => charCode0 s
              | None => charCode0 "P"
              end in
  let r := swe_houses eng tjd_ut geolat geolon hsys in
  let es := logCall (CHouses tjd_ut geolat geolon hsys) es in
  if hret r <? 0
  then (es, Throw (JsError.Error "Failed to calculate houses"))
  else (es, Return (slots 13 (hcusps r), slots 10 (hascmc r))).

End WithEngine.
End Binding.

(** ** The native gateway (node/src/index.ts) *)

Module Node.

(** The module-level state: the flag [ephemerisPathSet] and the engine the
    addon is linked with. *)
Record t := mk {
  ephemerisPathSet : bool;
  engine : EngineState
}.

Definition initial : t := mk false freshEngine.

Section WithEngine.
Variable eng : Engine.
(** [path.join(__dirname, '..', 'ephemeris')], fixed for an installation. *)
Variable bundledEphemerisPath : string.

Definition getBundledEphemerisPath : string := bundledEphemerisPath.

Definition ensureEphemerisInitialized (flags : Z) (st : t) : t :=
  let usingMoshier :=
    negb (JS.band flags
            (CalculationFlag.value CalculationFlag.MoshierEphemeris) =? 0) in
  if negb (ephemerisPathSet st) && negb usingMoshier then
    let bundledPath := getBundledEphemerisPath in
    mk true (Binding.set_ephe_path bundledPath (engine st))
  else st.

Definition setEphemerisPath (path : option string) (st : t) : t :=
  match path with
  | None =>
      let bundledPath := getBundledEphemerisPath in
      mk true (Binding.set_ephe_path bundledPath (engine st))
  | Some p => mk true (Binding.set_ephe_path p (engine st))
  end.

Definition julianDay (year month day : Z) (hour : option float)
    (calendarType : option CalendarType.t) (st : t) : t * float :=
  let hour := default 0%float hour in
  let calendarType := default CalendarType.Gregorian calendarType in
  let '(es, jd) :=
    Binding.julday eng year month day hour
      (Some (CalendarType.value calendarType)) (engine st) in
  (mk (ephemerisPathSet st) es, jd).

Definition julianDayToDate (jd : float) (calendarType : option CalendarType.t)
    (st : t) : t * DateTimeImpl.t :=
  let calendarType := default CalendarType.Gregorian calendarType in
  let '(es, (y, m, d, h)) :=
    Binding.revjul eng jd (Some (CalendarType.value calendarType))
      (engine st) in
  (mk (ephemerisPathSet st) es, DateTimeImpl.mk y m d h calendarType).

Definition calculatePosition (julianDay : float) (body : Z)
    (flags : option CalculationFlagInput) (st : t)
  : t * Outcome PlanetaryPosition :=
  let flags :=
    default (FlagNumber CommonCalculationFlags.DefaultSwissEphemeris) flags in
  let normalizedFlags := normalizeFlags flags in
  let st := ensureEphemerisInitialized normalizedFlags st in
  let '(es, result) :=
    Binding.calc_ut eng julianDay body (Some normalizedFlags) (engine st) in
  let st := mk (ephemerisPathSet st) es in
  match result with
  | Throw e => (st, Throw e)
  | Return (xx, retFlags) =>
      (st, Return {| longitude := at_ xx 0;
                     latitude := at_ xx 1;
                     distance := at_ xx 2;
                     longitudeSpeed := at_ xx 3;
                     latitudeSpeed := at_ xx 4;
                     distanceSpeed := at_ xx 5;
                     flags := retFlags |})
  end.

Definition calculateHouses (julianDay latitude longitude : float)
    (houseSystem : option HouseSystem.t) (st : t) : t * Outcome HouseData :=
  let houseSystem := default HouseSystem.Placidus houseSystem in
  let '(es, result) :=
    Binding.houses eng julianDay latitude longitude
      (Some (HouseSystem.value houseSystem)) (engine st) in
  let st := mk (ephemerisPathSet st) es in
  match result with
  | Throw e => (st, Throw e)
  | Return (cusps, ascmc) =>
      (st, Return {| cusps := cusps;
                     ascendant := at_ ascmc HousePoint.Ascendant;
                     mc := at_ ascmc HousePoint.MC;
                     armc := at_ ascmc HousePoint.ARMC;
                     vertex := at_ ascmc HousePoint.Vertex;
                     equatorialAscendant :=
                       at_ ascmc HousePoint.EquatorialAscendant;
                     coAscendant1 := at_ ascmc HousePoint.CoAscendant1;
                     coAscendant2 := at_ ascmc HousePoint.CoAscendant2;
                     polarAscendant := at_ ascmc HousePoint.PolarAscendant;
                     houseSystem := houseSystem |})
  end.

Definition findNextLunarEclipse (startJulianDay : float)
    (flags : option CalculationFlagInput)
    (eclipseType : option EclipseTypeFlagInput) (backward : option bool)
    (st : t) : t * Outcome LunarEclipseImpl.t :=
  let flags :=
    default (FlagNamed CalculationFlag.SwissEphemeris) flags in
  let eclipseType := default (TypeNumber 0) eclipseType in
  let backward := default false backward in
  let normalizedFlags := normalizeFlags flags in
  let st := ensureEphemerisInitialized normalizedFlags st in
  let normalizedEclipseType := normalizeEclipseTypes eclipseType in
  let '(es, result) :=
    Binding.lun_eclipse_when eng startJulianDay (Some normalizedFlags)
      (Some normalizedEclipseType) (Some (if backward then 1 else 0))
      (engine st) in
  let st := mk (ephemerisPathSet st) es in
  match result with
  | Throw e => (st, Throw e)
  | Return (retFlag, tret) =>
      (st, Return (LunarEclipseImpl.mk retFlag (at_ tret 0) (at_ tret 1)
                     (at_ tret 2) (at_ tret 3) (at_ tret 4) (at_ tret 5)
                     (at_ tret 6)))
  end.

Definition findNextSolarEclipse (startJulianDay : float)
    (flags : option CalculationFlagInput)
    (eclipseType : option EclipseTypeFlagInput) (backward : option bool)
    (st : t) : t * Outcome SolarEclipseImpl.t :=
  let flags :=
    default (FlagNamed CalculationFlag.SwissEphemeris) flags in
  let eclipseType := default (TypeNumber 0) eclipseType in
  let backward := default false backward in
  let normalizedFlags := normalizeFlags flags in
  let st := ensureEphemerisInitialized normalizedFlags st in
  let normalizedEclipseType := normalizeEclipseTypes eclipseType in
  let '(es, result) :=
    Binding.sol_eclipse_when_glob eng startJulianDay (Some normalizedFlags)
      (Some normalizedEclipseType) (Some (if backward then 1 else 0))
      (engine st) in
  let st := mk (ephemerisPathSet st) es in
  match result with
  | Throw e => (st, Throw e)
  | Return (retFlag, tret) =>
      (st, Return (SolarEclipseImpl.mk retFlag (at_ tret 0) (at_ tret 1)
                     (at_ tret 2) (at_ tret 3) (at_ tret 4) (at_ tret 5)
                     (at_ tret 6)))
  end.

Definition getCelestialBodyName (body : Z) (st : t) : t * string :=
  let '(es, name) := Binding.get_planet_name eng body (engine st) in
  (mk (ephemerisPathSet st) es, name).

Definition close (st : t) : t :=
  mk (ephemerisPathSet st) (Binding.close (engine st)).

End WithEngine.
End Node.

(** ** The bytecode module: linear memory and exported wrappers

    A value stored in linear memory is kept whole at the address it was
    written to, which is how the gateway reads it back
    ([base + index * 8]); [live] is the allocator's table of blocks in use,
    address to size in bytes. *)

Inductive Cell :=
  | CellI32 (z : Z)
  | CellF64 (f : float)
  | CellStr (s : string).

Record WasmModule := {
  live : gmap Z Z;
  cells : gmap Z Cell;
  wasmEngine : EngineState
}.

Definition freshModule : WasmModule :=
  {| live := ∅; cells := ∅; wasmEngine := freshEngine |}.

Definition store (ptr : Z) (c : Cell) (m : WasmModule) : WasmModule :=
  {| live := live m; cells := <[ptr := c]> (cells m);
     wasmEngine := wasmEngine m |}.

Fixpoint storeDoubles (base : Z) (vals : list float) (m : WasmModule)
  : WasmModule :=
  match vals with
  | [] => m
  | v :: vs => storeDoubles (base + 8) vs (store base (CellF64 v) m)
  end.

Definition withEngine (es : EngineState) (m : WasmModule) : WasmModule :=
  {| live := live m; cells := cells m; wasmEngine := es |}.

(** The run-time support of the module: [_malloc], [_free], [getValue],
    [UTF8ToString], [allocateUTF8].  Where the allocator puts a block is its
    own business: [alloc] gives the address it picks for a request, from the
    blocks in use. *)
Module Emscripten.
Section WithAllocator.
Variable alloc : gmap Z Z -> Z -> Z.

Definition _malloc (size : Z) (m : WasmModule) : Z * WasmModule :=
  let p := alloc (live m) size in
  (p, {| live := <[p := size]> (live m); cells := cells m;
         wasmEngine := wasmEngine m |}).

Definition _free (ptr : Z) (m : WasmModule) : WasmModule :=
  {| live := delete ptr (live m); cells := cells m;
     wasmEngine := wasmEngine m |}.

Definition getValue_i32 (ptr : Z) (m : WasmModule) : Z :=
  match cells m !! ptr with
  | Some (CellI32 z) => z
  | _ => 0
  end.

Definition getValue_double (ptr : Z) (m : WasmModule) : float :=
  match cells m !! ptr with
  | Some (CellF64 f) => f
  | _ => 0%float
  end.

Definition UTF8ToString (ptr : Z) (m : WasmModule) : string :=
  match cells m !! ptr with
  | Some (CellStr s) => s
  | _ => ""%string
  end.

Definition allocateUTF8 (str : string) (m : WasmModule) : Z * WasmModule :=
  let '(p, m) := _malloc (Z.of_nat (String.length str) + 1) m in
  (p, store p (CellStr str) m).

End WithAllocator.
End Emscripten.

(** The exported C wrappers (browser/src/swisseph_wasm.c), as [ccall] and
    [cwrap] reach them: an [int] parameter receives ToInt32 of the number
    passed, an output pointer receives the engine's buffer. *)
Module Wasm.
Section WithEngine.
Variable eng : Engine.

Definition swe_set_ephe_path_wrap (path : Z) (m : WasmModule) : WasmModule :=
  let text := match cells m !! path with
              | Some (CellStr s) => s
              | _ => ""%string
              end in
  withEngine (configurePath text (wasmEngine m)) m.

Definition swe_julday_wrap (year month day : Z) (hour : float) (gregflag : Z)
    (m : WasmModule) : float * WasmModule :=
  let y := JS.toInt32 year in
  let mo := JS.toInt32 month in
  let d := JS.toInt32 day in
  let g := JS.toInt32 gregflag in
  (swe_julday eng y mo d hour g,
   withEngine (logCall (CJulday y mo d hour g) (wasmEngine m)) m).

Definition swe_revjul_wrap (jd : float) (gregflag : Z)
    (year month day hour : Z) (m : WasmModule) : WasmModule :=
  let g := JS.toInt32 gregflag in
  let '(y, mo, d, h) := swe_revjul eng jd g in
  let m := withEngine (logCall (CRevjul jd g) (wasmEngine m)) m in
  store hour (CellF64 h)
    (store day (CellI32 d) (store month (CellI32 mo) (store year (CellI32 y) m))).

Definition swe_calc_ut_wrap (tjd_ut : float) (ipl iflag : Z) (xx serr_ : Z)
    (m : WasmModule) : Z * WasmModule :=
  let ipl := JS.toInt32 ipl in
  let iflag := JS.toInt32 iflag in
  let r := swe_calc_ut eng (ephePath (wasmEngine m)) tjd_ut ipl iflag in
  let m := withEngine (logCall (CCalcUt tjd_ut ipl iflag) (wasmEngine m)) m in
  (ret r, store serr_ (CellStr (serr r)) (storeDoubles xx (slots 6 (buf r)) m)).

Definition swe_get_planet_name_wrap (ipl : Z) (m : WasmModule)
  : string * WasmModule :=
  let ipl := JS.toInt32 ipl in
  (swe_get_planet_name eng (ephePath (wasmEngine m)) ipl,
   withEngine (logCall (CGetPlanetName ipl) (wasmEngine m)) m).

Definition swe_lun_eclipse_when_wrap (tjd_start : float) (ifl ifltype : Z)
    (tret : Z) (backward : Z) (serr_ : Z) (m : WasmModule)
  : Z * WasmModule :=
  let ifl := JS.toInt32 ifl in
  let ifltype := JS.toInt32 ifltype in
  let backward := JS.toInt32 backward in
  let r := swe_lun_eclipse_when eng (ephePath (wasmEngine m)) tjd_start ifl
             ifltype backward in
  let m := withEngine
             (logCall (CLunEclipseWhen tjd_start ifl ifltype backward)
                (wasmEngine m)) m in
  (ret r,
   store serr_ (CellStr (serr r)) (storeDoubles tret (slots 10 (buf r)) m)).

Definition swe_sol_eclipse_when_glob_wrap (tjd_start : float)
    (ifl ifltype : Z) (tret : Z) (backward : Z) (serr_ : Z) (m : WasmModule)
  : Z * WasmModule :=
  let ifl := JS.toInt32 ifl in
  let ifltype := JS.toInt32 ifltype in
  let backward := JS.toInt32 backward in
  let r := swe_sol_eclipse_when_glob eng (ephePath (wasmEngine m)) tjd_start
             ifl ifltype backward in
  let m := withEngine
             (logCall (CSolEclipseWhenGlob tjd_start ifl ifltype backward)
                (wasmEngine m)) m in
  (ret r,
   store serr_ (CellStr (serr r)) (storeDoubles tret (slots 10 (buf r)) m)).

Definition swe_houses_wrap (tjd_ut geolat geolon : float) (hsys : Z)
    (cusps_ ascmc_ : Z) (m : WasmModule) : Z * WasmModule :=
  let hsys := JS.toInt32 hsys in
  let r := swe_houses eng tjd_ut geolat geolon hsys in
  let m := withEngine
             (logCall (CHouses tjd_ut geolat geolon hsys) (wasmEngine m)) m in
  (hret r,
   storeDoubles ascmc_ (slots 10 (hascmc r))
     (storeDoubles cusps_ (slots 13 (hcusps r)) m)).

Definition swe_close_wrap (m : WasmModule) : WasmModule :=
  withEngine (logCall CClose (wasmEngine m)) m.

Definition swe_version_wrap (m : WasmModule) : string * WasmModule :=
  (swe_version eng, withEngine (logCall CVersion (wasmEngine m)) m).

End WithEngine.
End Wasm.

(** ** The bytecode-module gateway (browser/src/swisseph-browser.ts) *)

Module Browser.

(** The fields of a [SwissEphemeris] object. *)
Record t := mk {
  module : option WasmModule;
  ready : bool
}.

(** [new SwissEphemeris()] *)
Definition new : t := mk None false.

Definition notInitialized : JsError.t :=
  JsError.Error "SwissEphemeris not initialized. Call await swe.init() first.".

(** What the host raises when a member of [null] is read; it takes a
    [ready] object without a module, which [init] never leaves behind. *)
Definition nullModule : JsError.t :=
  JsError.TypeError "Cannot read properties of null".

Definition _checkReady (this : t) : option JsError.t :=
  if negb (ready this) then Some notInitialized else None.

(** A body [k] run on the module taken from [this.module!] (or on a
    wrapper made from it), which it leaves updated in the object. *)
Definition usingModule {A} (this : t)
    (k : WasmModule -> WasmModule * Outcome A) : t * Outcome A :=
  match module this with
  | None => (this, Throw nullModule)
  | Some m => let '(m, r) := k m in (mk (Some m) (ready this), r)
  end.

(** The common opening of the methods: [this._checkReady()] first, then
    the body on the module. *)
Definition withModule {A} (this : t)
    (k : WasmModule -> WasmModule * Outcome A) : t * Outcome A :=
  match _checkReady this with
  | Some e => (this, Throw e)
  | None => usingModule this k
  end.

Section WithEngine.
Variable eng : Engine.
Variable alloc : gmap Z Z -> Z -> Z.

Local Abbreviation _malloc := (Emscripten._malloc alloc).
Local Abbreviation _free := Emscripten._free.

Definition version (this : t) : t * Outcome string :=
  withModule this (fun m =>
    let '(v, m) := Wasm.swe_version_wrap eng m in (m, Return v)).

(** The completion of [init()]: the instantiated module is stored, the
    object becomes ready, and the version is logged. *)
Definition init (instance : WasmModule) (this : t) : t :=
  if ready this then this
  else fst (version (mk (Some instance) true)).

Definition setEphemerisPath (path : string) (this : t) : t * Outcome unit :=
  withModule this (fun m =>
    let '(pathPtr, m) := Emscripten.allocateUTF8 alloc path m in
    let m := Wasm.swe_set_ephe_path_wrap pathPtr m in
    let m := _free pathPtr m in
    (m, Return tt)).

Definition julianDay (year month day : Z) (hour : option float)
    (calendarType : option CalendarType.t) (this : t) : t * Outcome float :=
  let hour := default 0%float hour in
  let calendarType := default CalendarType.Gregorian calendarType in
  withModule this (fun m =>
    let '(jd, m) :=
      Wasm.swe_julday_wrap eng year month day hour
        (CalendarType.value calendarType) m in
    (m, Return jd)).

Definition julianDayToDate (jd : float) (calendarType : option CalendarType.t)
    (this : t) : t * Outcome DateTimeImpl.t :=
  let calendarType := default CalendarType.Gregorian calendarType in
  withModule this (fun m =>
    let '(yearPtr, m) := _malloc 4 m in
    let '(monthPtr, m) := _malloc 4 m in
    let '(dayPtr, m) := _malloc 4 m in
    let '(hourPtr, m) := _malloc 8 m in
    let m := Wasm.swe_revjul_wrap eng jd (CalendarType.value calendarType)
               yearPtr monthPtr dayPtr hourPtr m in
    let year := Emscripten.getValue_i32 yearPtr m in
    let month := Emscripten.getValue_i32 monthPtr m in
    let day := Emscripten.getValue_i32 dayPtr m in
    let hour := Emscripten.getValue_double hourPtr m in
    let m := _free yearPtr m in
    let m := _free monthPtr m in
    let m := _free dayPtr m in
    let m := _free hourPtr m in
    (m, Return (DateTimeImpl.mk year month day hour calendarType))).

(** [for (let i = 0; i < n; i++) a[i] = m.getValue(ptr + i * 8, 'double')] *)
Definition readDoubles (ptr : Z) (n : nat) (m : WasmModule) : list float :=
  map (fun i => Emscripten.getValue_double (ptr + Z.of_nat i * 8) m)
    (seq 0 n).

Definition calculatePosition (julianDay : float) (body : Z)
    (flags : option CalculationFlagInput) (this : t)
  : t * Outcome PlanetaryPosition :=
  let flags :=
    default (FlagNumber CommonCalculationFlags.DefaultMoshier) flags in
  withModule this (fun m =>
    let normalizedFlags := normalizeFlags flags in
    let '(xxPtr, m) := _malloc (6 * 8) m in
    let '(serrPtr, m) := _malloc 256 m in
    let '(retflag, m) :=
      Wasm.swe_calc_ut_wrap eng julianDay body normalizedFlags xxPtr serrPtr
        m in
    if retflag <? 0 then
      let error := Emscripten.UTF8ToString serrPtr m in
      let m := _free xxPtr m in
      let m := _free serrPtr m in
      (m, Throw (JsError.Error error))
    else
      let xx := readDoubles xxPtr 6 m in
      let m := _free xxPtr m in
      let m := _free serrPtr m in
      (m, Return {| longitude := at_ xx 0;
                    latitude := at_ xx 1;
                    distance := at_ xx 2;
                    longitudeSpeed := at_ xx 3;
                    latitudeSpeed := at_ xx 4;
                    distanceSpeed := at_ xx 5;
                    flags := retflag |})).

Definition getCelestialBodyName (body : Z) (this : t) : t * Outcome string :=
  withModule this (fun m =>
    let '(name, m) := Wasm.swe_get_planet_name_wrap eng body m in
    (m, Return name)).

Definition findNextLunarEclipse (startJulianDay : float)
    (flags : option CalculationFlagInput)
    (eclipseType : option EclipseTypeFlagInput) (backward : option bool)
    (this : t) : t * Outcome LunarEclipseImpl.t :=
  let flags :=
    default (FlagNamed CalculationFlag.MoshierEphemeris) flags in
  let eclipseType := default (TypeNumber 0) eclipseType in
  let backward := default false backward in
  withModule this (fun m =>
    let normalizedFlags := normalizeFlags flags in
    let normalizedEclipseType := normalizeEclipseTypes eclipseType in
    let '(tretPtr, m) := _malloc (10 * 8) m in
    let '(serrPtr, m) := _malloc 256 m in
    let '(retflag, m) :=
      Wasm.swe_lun_eclipse_when_wrap eng startJulianDay normalizedFlags
        normalizedEclipseType tretPtr (if backward then 1 else 0) serrPtr m in
    if retflag <? 0 then
      let error := Emscripten.UTF8ToString serrPtr m in
      let m := _free tretPtr m in
      let m := _free serrPtr m in
      (m, Throw (JsError.Error error))
    else
      let tret := readDoubles tretPtr 10 m in
      let m := _free tretPtr m in
      let m := _free serrPtr m in
      (m, Return (LunarEclipseImpl.mk retflag (at_ tret 0) (at_ tret 1)
                    (at_ tret 2) (at_ tret 3) (at_ tret 4) (at_ tret 5)
                    (at_ tret 6)))).

Definition findNextSolarEclipse (startJulianDay : float)
    (flags : option CalculationFlagInput)
    (eclipseType : option EclipseTypeFlagInput) (backward : option bool)
    (this : t) : t * Outcome SolarEclipseImpl.t :=
  let flags :=
    default (FlagNamed CalculationFlag.MoshierEphemeris) flags in
  let eclipseType := default (TypeNumber 0) eclipseType in
  let backward := default false backward in
  withModule this (fun m =>
    let normalizedFlags := normalizeFlags flags in
    let normalizedEclipseType := normalizeEclipseTypes eclipseType in
    let '(tretPtr, m) := _malloc (10 * 8) m in
    let '(serrPtr, m) := _malloc 256 m in
    let '(retflag, m) :=
      Wasm.swe_sol_eclipse_when_glob_wrap eng startJulianDay normalizedFlags
        normalizedEclipseType tretPtr (if backward then 1 else 0) serrPtr m in
    if retflag <? 0 then
      let error := Emscripten.UTF8ToString serrPtr m in
      let m := _free tretPtr m in
      let m := _free serrPtr m in
      (m, Throw (JsError.Error error))
    else
      let tret := readDoubles tretPtr 10 m in
      let m := _free tretPtr m in
      let m := _free serrPtr m in
      (m, Return (SolarEclipseImpl.mk retflag (at_ tret 0) (at_ tret 1)
                    (at_ tret 2) (at_ tret 3) (at_ tret 4) (at_ tret 5)
                    (at_ tret 6)))).

Definition calculateHouses (julianDay latitude longitude : float)
    (houseSystem : option HouseSystem.t) (this : t)
  : t * Outcome HouseData :=
  let houseSystem := default HouseSystem.Placidus houseSystem in
  withModule this (fun m =>
    let '(cuspsPtr, m) := _malloc (13 * 8) m in
    let '(ascmcPtr, m) := _malloc (10 * 8) m in
    let hsysCode := charCode0 (HouseSystem.value houseSystem) in
    let '(_, m) :=
      Wasm.swe_houses_wrap eng julianDay latitude longitude hsysCode
        cuspsPtr ascmcPtr m in
    let cusps := readDoubles cuspsPtr 13 m in
    let ascmc := readDoubles ascmcPtr 10 m in
    let m := _free cuspsPtr m in
    let m := _free ascmcPtr m in
    (m, Return {| cusps := cusps;
                  ascendant := at_ ascmc HousePoint.Ascendant;
                  mc := at_ ascmc HousePoint.MC;
                  armc := at_ ascmc HousePoint.ARMC;
                  vertex := at_ ascmc HousePoint.Vertex;
                  equatorialAscendant :=
                    at_ ascmc HousePoint.EquatorialAscendant;
                  coAscendant1 := at_ ascmc HousePoint.CoAscendant1;
                  coAscendant2 := at_ ascmc HousePoint.CoAscendant2;
                  polarAscendant := at_ ascmc HousePoint.PolarAscendant;
                  houseSystem := houseSystem |})).

Definition close (this : t) : t * Outcome unit :=
  if ready this then
    usingModule this (fun m => (Wasm.swe_close_wrap m, Return tt))
  else (this, Return tt).

End WithEngine.
End Browser.

(** ** Vocabulary of the statements *)

(** What is asked of the module's allocator: the block it hands out is not
    in use, and does not overlap a block in use. *)
Definition allocatorOk (alloc : gmap Z Z -> Z -> Z) : Prop :=
  forall (blocks : gmap Z Z) (n : Z),
    0 < n ->
    blocks !! alloc blocks n = None
    /\ forall q sz, blocks !! q = Some sz ->
         alloc blocks n + n <= q \/ q + sz <= alloc blocks n.

(** An allocator that places every block past all blocks in use. *)
Definition topOfHeap (blocks : gmap Z Z) : Z :=
  map_fold (fun q sz acc => Z.max acc (q + Z.max sz 0)) 0 blocks.

Definition topAlloc (blocks : gmap Z Z) (n : Z) : Z := topOfHeap blocks + 8.

(** The blocks in use in a gateway object. *)
Definition liveBlocks (this : Browser.t) : gmap Z Z :=
  match Browser.module this with
  | Some m => live m
  | None => ∅
  end.

(** The engine calls a gateway object has made. *)
Definition browserCalls (this : Browser.t) : list EngineCall :=
  match Browser.module this with
  | Some m => calls (wasmEngine m)
  | None => []
  end.

(** The calculation requests of a caller, with their optional arguments. *)
Inductive Request :=
  | ReqVersion
  | ReqSetEphemerisPath (path : string)
  | ReqJulianDay (year month day : Z) (hour : option float)
      (calendarType : option CalendarType.t)
  | ReqJulianDayToDate (jd : float) (calendarType : option CalendarType.t)
  | ReqCalculatePosition (julianDay : float) (body : Z)
      (flags : option CalculationFlagInput)
  | ReqCalculateHouses (julianDay latitude longitude : float)
      (houseSystem : option HouseSystem.t)
  | ReqFindNextLunarEclipse (startJulianDay : float)
      (flags : option CalculationFlagInput)
      (eclipseType : option EclipseTypeFlagInput) (backward : option bool)
  | ReqFindNextSolarEclipse (startJulianDay : float)
      (flags : option CalculationFlagInput)
      (eclipseType : option EclipseTypeFlagInput) (backward : option bool)
  | ReqGetCelestialBodyName (body : Z).

(** The error a call ended with, if it threw. *)
Definition thrown {A} (o : Outcome A) : option JsError.t :=
  match o with
  | Throw e => Some e
  | Return _ => None
  end.

(** A request served by the bytecode-module gateway: the object afterwards
    and the error raised, if any. *)
Definition browserServe (eng : Engine) (alloc : gmap Z Z -> Z -> Z)
    (r : Request) (this : Browser.t) : Browser.t * option JsError.t :=
  match r with
  | ReqVersion =>
      let '(s, o) := Browser.version eng this in (s, thrown o)
  | ReqSetEphemerisPath p =>
      let '(s, o) := Browser.setEphemerisPath alloc p this in (s, thrown o)
  | ReqJulianDay y m d h c =>
      let '(s, o) := Browser.julianDay eng y m d h c this in (s, thrown o)
  | ReqJulianDayToDate jd c =>
      let '(s, o) := Browser.julianDayToDate eng alloc jd c this in
      (s, thrown o)
  | ReqCalculatePosition jd b f =>
      let '(s, o) := Browser.calculatePosition eng alloc jd b f this in
      (s, thrown o)
  | ReqCalculateHouses jd la lo h =>
      let '(s, o) := Browser.calculateHouses eng alloc jd la lo h this in
      (s, thrown o)
  | ReqFindNextLunarEclipse jd f e b =>
      let '(s, o) := Browser.findNextLunarEclipse eng alloc jd f e b this in
      (s, thrown o)
  | ReqFindNextSolarEclipse jd f e b =>
      let '(s, o) := Browser.findNextSolarEclipse eng alloc jd f e b this in
      (s, thrown o)
  | ReqGetCelestialBodyName b =>
      let '(s, o) := Browser.getCelestialBodyName eng b this in (s, thrown o)
  end.

(** A run of requests on one object, whatever each one ends with. *)
Definition browserServeAll (eng : Engine) (alloc : gmap Z Z -> Z -> Z)
    (rs : list Request) (this : Browser.t) : Browser.t :=
  fold_left (fun s r => fst (browserServe eng alloc r s)) rs this.

(** The three calculations of the native gateway that may read data files. *)
Inductive FileCalculation :=
  | Position (julianDay : float) (body : Z)
      (flags : option CalculationFlagInput)
  | LunarEclipse (startJulianDay : float)
      (flags : option CalculationFlagInput)
      (eclipseType : option EclipseTypeFlagInput) (backward : option bool)
  | SolarEclipse (startJulianDay : float)
      (flags : option CalculationFlagInput)
      (eclipseType : option EclipseTypeFlagInput) (backward : option bool).

(** The flags integer of a request, the default put in for an omitted
    argument. *)
Definition requestedFlags (c : FileCalculation) : Z :=
  match c with
  | Position _ _ f =>
      normalizeFlags
        (default (FlagNumber CommonCalculationFlags.DefaultSwissEphemeris) f)
  | LunarEclipse _ f _ _ | SolarEclipse _ f _ _ =>
      normalizeFlags (default (FlagNamed CalculationFlag.SwissEphemeris) f)
  end.

Definition usesMoshier (flags : Z) : bool :=
  negb (JS.band flags
          (CalculationFlag.value CalculationFlag.MoshierEphemeris) =? 0).

(** The flags integer the bytecode-module gateway works with: its defaults
    are the Moshier ones. *)
Definition browserFlags (c : FileCalculation) : Z :=
  match c with
  | Position _ _ f =>
      normalizeFlags
        (default (FlagNumber CommonCalculationFlags.DefaultMoshier) f)
  | LunarEclipse _ f _ _ | SolarEclipse _ f _ _ =>
      normalizeFlags (default (FlagNamed CalculationFlag.MoshierEphemeris) f)
  end.

(** Whether the caller passed the flags argument. *)
Definition flagsGiven (c : FileCalculation) : bool :=
  match c with
  | Position _ _ f | LunarEclipse _ f _ _ | SolarEclipse _ f _ _ =>
      match f with Some _ => true | None => false end
  end.

(** The record a file calculation returns. *)
Inductive DomainRecord :=
  | RecPosition (p : PlanetaryPosition)
  | RecLunar (e : LunarEclipseImpl.t)
  | RecSolar (e : SolarEclipseImpl.t).

Definition mapOutcome {A B} (f : A -> B) (o : Outcome A) : Outcome B :=
  match o with
  | Return a => Return (f a)
  | Throw e => Throw e
  end.

(** A file calculation served by the native gateway. *)
Definition nodeCalculate (eng : Engine) (bundled : string)
    (c : FileCalculation) (st : Node.t) : Node.t * Outcome DomainRecord :=
  match c with
  | Position jd b f =>
      let '(s, o) := Node.calculatePosition eng bundled jd b f st in
      (s, mapOutcome RecPosition o)
  | LunarEclipse jd f e b =>
      let '(s, o) := Node.findNextLunarEclipse eng bundled jd f e b st in
      (s, mapOutcome RecLunar o)
  | SolarEclipse jd f e b =>
      let '(s, o) := Node.findNextSolarEclipse eng bundled jd f e b st in
      (s, mapOutcome RecSolar o)
  end.

(** The native gateway's state after a calculation, returned or thrown. *)
Definition nodeAfter (eng : Engine) (bundled : string) (c : FileCalculation)
    (st : Node.t) : Node.t :=
  fst (nodeCalculate eng bundled c st).

(** A file calculation served by the bytecode-module gateway. *)
Definition browserCalculate (eng : Engine) (alloc : gmap Z Z -> Z -> Z)
    (c : FileCalculation) (this : Browser.t)
  : Browser.t * Outcome DomainRecord :=
  match c with
  | Position jd b f =>
      let '(s, o) := Browser.calculatePosition eng alloc jd b f this in
      (s, mapOutcome RecPosition o)
  | LunarEclipse jd f e b =>
      let '(s, o) := Browser.findNextLunarEclipse eng alloc jd f e b this in
      (s, mapOutcome RecLunar o)
  | SolarEclipse jd f e b =>
      let '(s, o) := Browser.findNextSolarEclipse eng alloc jd f e b this in
      (s, mapOutcome RecSolar o)
  end.

(** The engine call of a file calculation made with flags integer [flags],
    with the integers the engine receives. *)
Definition engineCallWith (flags : Z) (c : FileCalculation) : EngineCall :=
  match c with
  | Position jd body _ => CCalcUt jd (JS.toInt32 body) (JS.toInt32 flags)
  | LunarEclipse jd _ e b =>
      CLunEclipseWhen jd (JS.toInt32 flags)
        (JS.toInt32 (normalizeEclipseTypes (default (TypeNumber 0) e)))
        (if default false b then 1 else 0)
  | SolarEclipse jd _ e b =>
      CSolEclipseWhenGlob jd (JS.toInt32 flags)
        (JS.toInt32 (normalizeEclipseTypes (default (TypeNumber 0) e)))
        (if default false b then 1 else 0)
  end.

(** What the engine answers to that call when [path] is the directory
    configured. *)
Definition replyTo (eng : Engine) (path : option string) (flags : Z)
    (c : FileCalculation) : EngineReply :=
  match c with
  | Position jd body _ =>
      swe_calc_ut eng path jd (JS.toInt32 body) (JS.toInt32 flags)
  | LunarEclipse jd _ e b =>
      swe_lun_eclipse_when eng path jd (JS.toInt32 flags)
        (JS.toInt32 (normalizeEclipseTypes (default (TypeNumber 0) e)))
        (if default false b then 1 else 0)
  | SolarEclipse jd _ e b =>
      swe_sol_eclipse_when_glob eng path jd (JS.toInt32 flags)
        (JS.toInt32 (normalizeEclipseTypes (default (TypeNumber 0) e)))
        (if default false b then 1 else 0)
  end.

(** The record the gateways build from a successful reply. *)
Definition recordOf (c : FileCalculation) (r : EngineReply) : DomainRecord :=
  match c with
  | Position _ _ _ =>
      let xx := slots 6 (buf r) in
      RecPosition {| longitude := at_ xx 0;
                     latitude := at_ xx 1;
                     distance := at_ xx 2;
                     longitudeSpeed := at_ xx 3;
                     latitudeSpeed := at_ xx 4;
                     distanceSpeed := at_ xx 5;
                     flags := ret r |}
  | LunarEclipse _ _ _ _ =>
      let tret := slots 10 (buf r) in
      RecLunar (LunarEclipseImpl.mk (ret r) (at_ tret 0) (at_ tret 1)
                  (at_ tret 2) (at_ tret 3) (at_ tret 4) (at_ tret 5)
                  (at_ tret 6))
  | SolarEclipse _ _ _ _ =>
      let tret := slots 10 (buf r) in
      RecSolar (SolarEclipseImpl.mk (ret r) (at_ tret 0) (at_ tret 1)
                  (at_ tret 2) (at_ tret 3) (at_ tret 4) (at_ tret 5)
                  (at_ tret 6))
  end.

(** ** A sample engine for the worked examples

    It rejects a negative body id and refuses the eclipse searches on the
    JPL files; houses fail beyond the polar circle. *)
Definition sampleEngine : Engine := {|
  swe_julday := fun _ _ _ _ _ => 2454162.5%float;
  swe_revjul := fun _ _ => (2007, 3, 3, 0%float);
  swe_calc_ut := fun _ tjd ipl iflag =>
    if ipl <? 0
    then {| ret := -1; buf := []; serr := "illegal planet number" |}
    else {| ret := iflag;
            buf := [342.25; 0.5; 0.875; 1; 0; 0]%float;
            serr := "" |};
  swe_lun_eclipse_when := fun _ tjd ifl ifltype backward =>
    if Z.testbit ifl 0
    then {| ret := -1; buf := []; serr := "illegal planet number" |}
    else {| ret := 4;
            buf := [2454162.5; 2454162.375; 2454162.625; 2454162.4375;
                    2454162.5625; 2454162.25; 2454162.75; 0; 0; 0]%float;
            serr := "" |};
  swe_sol_eclipse_when_glob := fun _ tjd ifl ifltype backward =>
    if Z.testbit ifl 0
    then {| ret := -1; buf := []; serr := "jpl file not found" |}
    else {| ret := 5;
            buf := [2454178.5; 2454178.375; 2454178.625; 2454178.4375;
                    2454178.5625; 2454178.25; 2454178.75; 0; 0; 0]%float;
            serr := "" |};
  swe_houses := fun tjd lat lon hsys =>
    {| hret := if PrimFloat.ltb 66.5 lat then -1 else 0;
       hcusps := [0; 15; 45; 75; 105; 135; 165; 195; 225; 255; 285; 315;
                  345]%float;
       hascmc := [15; 285; 270; 195; 17; 20; 21; 200; 0; 0]%float |};
  swe_get_planet_name := fun _ ipl => if ipl =? 0 then "Sun" else "Moon";
  swe_version := "2.10.03"
|}.

Definition sampleBundledPath : string := "/app/node_modules/@swisseph/node/ephemeris".

(** A gateway object after [init()], on a fresh module. *)
Definition readyBrowser : Browser.t := Browser.mk (Some freshModule) true.

(** The engine call the native gateway makes for a file calculation. *)
Definition engineCallOf (c : FileCalculation) : EngineCall :=
  engineCallWith (requestedFlags c) c.

(** The block table after the allocations [ps] (address, size) one after
    the other, and after freeing the addresses [qs] one after the other. *)
Definition allocAll (ps : list (Z * Z)) (blocks : gmap Z Z) : gmap Z Z :=
  fold_left (fun l p => <[fst p := snd p]> l) ps blocks.

Definition freeAll (qs : list Z) (blocks : gmap Z Z) : gmap Z Z :=
  fold_left (fun l q => delete q l) qs blocks.

(** * Further vocabulary: named options in lists, runs of the two
      gateways and the file loader *)

(** Whether a named option occurs in a list of named options. *)
Definition flagIn (g : CalculationFlag.t) (fs : list CalculationFlag.t)
  : bool :=
  existsb (fun f => CalculationFlag.value f =? CalculationFlag.value g) fs.

Definition typeIn (g : EclipseType.t) (es : list EclipseType.t) : bool :=
  existsb (fun e => EclipseType.value e =? EclipseType.value g) es.

(** A file calculation with its flags argument replaced. *)
Definition withFlags (f : CalculationFlagInput) (c : FileCalculation)
  : FileCalculation :=
  match c with
  | Position jd body _ => Position jd body (Some f)
  | LunarEclipse jd _ e b => LunarEclipse jd (Some f) e b
  | SolarEclipse jd _ e b => SolarEclipse jd (Some f) e b
  end.

(** ** Runs of the native gateway

    Every exported function of node/src/index.ts, as a caller may invoke
    them one after the other in one process. *)
Inductive NodeRequest :=
  | NodeSetEphemerisPath (path : option string)
  | NodeJulianDay (year month day : Z) (hour : option float)
      (calendarType : option CalendarType.t)
  | NodeJulianDayToDate (jd : float) (calendarType : option CalendarType.t)
  | NodeCalculate (c : FileCalculation)
  | NodeCalculateHouses (julianDay latitude longitude : float)
      (houseSystem : option HouseSystem.t)
  | NodeGetCelestialBodyName (body : Z)
  | NodeClose.

(** The module state after a request, whether it returned or threw. *)
Definition nodeServe (eng : Engine) (bundled : string) (r : NodeRequest)
    (st : Node.t) : Node.t :=
  match r with
  | NodeSetEphemerisPath p => Node.setEphemerisPath bundled p st
  | NodeJulianDay y m d h c => fst (Node.julianDay eng y m d h c st)
  | NodeJulianDayToDate jd c => fst (Node.julianDayToDate eng jd c st)
  | NodeCalculate c => nodeAfter eng bundled c st
  | NodeCalculateHouses jd la lo h =>
      fst (Node.calculateHouses eng jd la lo h st)
  | NodeGetCelestialBodyName b => fst (Node.getCelestialBodyName eng b st)
  | NodeClose => Node.close st
  end.

Definition nodeServeAll (eng : Engine) (bundled : string)
    (rs : list NodeRequest) (st : Node.t) : Node.t :=
  fold_left (fun s r => nodeServe eng bundled r s) rs st.

(** A request that names the data directory itself. *)
Definition isExplicitSetup (r : NodeRequest) : bool :=
  match r with NodeSetEphemerisPath _ => true | _ => false end.

(** A file calculation whose flags leave the Moshier bit clear. *)
Definition needsFiles (r : NodeRequest) : bool :=
  match r with
  | NodeCalculate c => negb (usesMoshier (requestedFlags c))
  | _ => false
  end.

(** Whether a request that needs files comes before every explicit
    set-up of the run. *)
Fixpoint needsFilesFirst (rs : list NodeRequest) : bool :=
  match rs with
  | [] => false
  | r :: rest =>
      if isExplicitSetup r then false
      else needsFiles r || needsFilesFirst rest
  end.

(** The argument of the last explicit set-up of a run, if there is one. *)
Fixpoint lastExplicitSetup (rs : list NodeRequest) : option (option string) :=
  match rs with
  | [] => None
  | r :: rest =>
      match lastExplicitSetup rest with
      | Some p => Some p
      | None =>
          match r with
          | NodeSetEphemerisPath p => Some p
          | _ => None
          end
      end
  end.

(** ** Runs of the bytecode-module gateway *)

(** The engine call a request of the bytecode-module gateway makes, with
    the integers the exported wrapper hands to the engine. *)
Definition browserCallOf (r : Request) : EngineCall :=
  match r with
  | ReqVersion => CVersion
  | ReqSetEphemerisPath path => CSetEphePath path
  | ReqJulianDay y m d h c =>
      CJulday (JS.toInt32 y) (JS.toInt32 m) (JS.toInt32 d) (default 0%float h)
        (JS.toInt32 (CalendarType.value (default CalendarType.Gregorian c)))
  | ReqJulianDayToDate jd c =>
      CRevjul jd
        (JS.toInt32 (CalendarType.value (default CalendarType.Gregorian c)))
  | ReqCalculatePosition jd b f =>
      engineCallWith (browserFlags (Position jd b f)) (Position jd b f)
  | ReqCalculateHouses jd la lo h =>
      CHouses jd la lo
        (JS.toInt32
           (charCode0 (HouseSystem.value (default HouseSystem.Placidus h))))
  | ReqFindNextLunarEclipse jd f e b =>
      engineCallWith (browserFlags (LunarEclipse jd f e b))
        (LunarEclipse jd f e b)
  | ReqFindNextSolarEclipse jd f e b =>
      engineCallWith (browserFlags (SolarEclipse jd f e b))
        (SolarEclipse jd f e b)
  | ReqGetCelestialBodyName b => CGetPlanetName (JS.toInt32 b)
  end.

(** The directory named by the last [setEphemerisPath] of a run, if there
    is one. *)
Fixpoint lastPathRequest (rs : list Request) : option string :=
  match rs with
  | [] => None
  | r :: rest =>
      match lastPathRequest rest with
      | Some p => Some p
      | None =>
          match r with
          | ReqSetEphemerisPath p => Some p
          | _ => None
          end
      end
  end.

(** What can happen to a gateway object: [init()], whose loading of the
    module either fails or yields an instance, a request, or [close()]. *)
Inductive BrowserEvent :=
  | EvInit (loaded : Outcome WasmModule)
  | EvRequest (r : Request)
  | EvClose.

(** [init()] with the outcome of its loading steps (the dynamic import,
    the factory look-up and the instantiation): they come after the
    [ready] test and before the first assignment to the object. *)
Definition browserInit (eng : Engine) (loaded : Outcome WasmModule)
    (this : Browser.t) : Browser.t * option JsError.t :=
  if Browser.ready this then (this, None)
  else
    match loaded with
    | Throw e => (this, Some e)
    | Return instance => (Browser.init eng instance this, None)
    end.

Definition browserStep (eng : Engine) (alloc : gmap Z Z -> Z -> Z)
    (ev : BrowserEvent) (this : Browser.t) : Browser.t * option JsError.t :=
  match ev with
  | EvInit loaded => browserInit eng loaded this
  | EvRequest r => browserServe eng alloc r this
  | EvClose => let '(s, o) := Browser.close this in (s, thrown o)
  end.

Definition browserRun (eng : Engine) (alloc : gmap Z Z -> Z -> Z)
    (evs : list BrowserEvent) (this : Browser.t) : Browser.t :=
  fold_left (fun s ev => fst (browserStep eng alloc ev s)) evs this.

Definition isLoaded (ev : BrowserEvent) : bool :=
  match ev with EvInit (Return _) => true | _ => false end.

Definition hasModule (this : Browser.t) : bool :=
  match Browser.module this with Some _ => true | None => false end.

(** ** Loading data files into the bytecode module
       (browser/src/swisseph-browser.ts, loadEphemerisFiles) *)

Module EphemerisFile.
(** [{ name: string; url: string }] *)
Record t := mk { name : string; url : string }.
End EphemerisFile.

(** What the loader reads of a [Response]. *)
Record Response := {
  ok : bool;
  statusText : string;
  arrayBuffer : Outcome (list Byte.byte)
}.

(** The calls the loader makes outside the object, in order. *)
Inductive LoaderEffect :=
  | FxMkdir (path : string)
  | FxFetch (url : string)
  | FxWriteFile (path : string) (data : list Byte.byte).

Module Loader.
Section WithEnvironment.
Variable alloc : gmap Z Z -> Z -> Z.
(** The network and the module's virtual file system, as they answer the
    [i]-th iteration of the loop: the awaited result of [fetch(url)], and
    the error [FS.writeFile] throws, if it does. *)
Variable fetch : nat -> string -> Outcome Response.
Variable writeFile : nat -> string -> list Byte.byte -> option JsError.t.

(** [for (const file of files) { ... }], from iteration [i] on; [present]
    tells whether [m] is a module, a member of [null] cannot be read. *)
Fixpoint download (present : bool) (i : nat) (files : list EphemerisFile.t)
  : list LoaderEffect * option JsError.t :=
  match files with
  | [] => ([], None)
  | file :: rest =>
      let fetched := FxFetch (EphemerisFile.url file) in
      match fetch i (EphemerisFile.url file) with
      | Throw e => ([fetched], Some e)
      | Return response =>
          if negb (ok response) then
            ([fetched],
             Some (JsError.Error
                     ("Failed to download " +:+ EphemerisFile.name file
                      +:+ ": " +:+ statusText response)))
          else
            match arrayBuffer response with
            | Throw e => ([fetched], Some e)
            | Return data =>
                let path := "/ephemeris/" +:+ EphemerisFile.name file in
                if negb present then ([fetched], Some Browser.nullModule)
                else
                  match writeFile i path data with
                  | Some e => ([fetched; FxWriteFile path data], Some e)
                  | None =>
                      let '(fx, err) := download present (S i) rest in
                      (fetched :: FxWriteFile path data :: fx, err)
                  end
            end
      end
  end.

(** The method, run to its end with no other call on the object in
    between: the object afterwards, the calls made outside it, and how it
    ended.  What [FS.mkdir] throws is caught and dropped. *)
Definition loadEphemerisFiles (files : list EphemerisFile.t)
    (this : Browser.t) : Browser.t * list LoaderEffect * Outcome unit :=
  match Browser._checkReady this with
  | Some e => (this, [], Throw e)
  | None =>
      let present := hasModule this in
      let made := if present then [FxMkdir "/ephemeris"] else [] in
      let '(fx, err) := download present 0 files in
      match err with
      | Some e => (this, made ++ fx, Throw e)
      | None =>
          let '(this, o) :=
            Browser.setEphemerisPath alloc "/ephemeris" this in
          (this, made ++ fx, o)
      end
  end.

Definition loadStandardEphemeris (this : Browser.t)
  : Browser.t * list LoaderEffect * Outcome unit :=
  let CDN_BASE := "https://cdn.jsdelivr.net/gh/aloistr/swisseph/ephe" in
  loadEphemerisFiles
    [EphemerisFile.mk "sepl_18.se1" (CDN_BASE +:+ "/sepl_18.se1");
     EphemerisFile.mk "semo_18.se1" (CDN_BASE +:+ "/semo_18.se1");
     EphemerisFile.mk "seas_18.se1" (CDN_BASE +:+ "/seas_18.se1")]
    this.

End WithEnvironment.
End Loader.

(** The addresses fetched and the paths written, in order. *)
Definition fetchedUrls (fx : list LoaderEffect) : list string :=
  flat_map (fun e => match e with FxFetch u => [u] | _ => [] end) fx.

Definition writtenPaths (fx : list LoaderEffect) : list string :=
  flat_map (fun e => match e with FxWriteFile p _ => [p] | _ => [] end) fx.

Definition ephemerisPathOf (file : EphemerisFile.t) : string :=
  "/ephemeris/" +:+ EphemerisFile.name file.

(** A network that delivers every file and a file system that stores it. *)
Definition deliveringFetch (i : nat) (url : string) : Outcome Response :=
  Return {| ok := true; statusText := "OK";
            arrayBuffer := Return [Byte.x53; Byte.x45] |}.

(** A network that has the planet file only. *)
Definition planetsOnlyFetch (i : nat) (url : string) : Outcome Response :=
  if (i =? 0)%nat
  then Return {| ok := true; statusText := "OK";
                 arrayBuffer := Return [Byte.x53; Byte.x45] |}
  else Return {| ok := false; statusText := "Not Found";
                 arrayBuffer := Return [] |}.

Definition storingFileSystem (i : nat) (path : string)
    (data : list Byte.byte) : option JsError.t := None.

(** The directory the engine of a gateway object works with. *)
Definition browserDirectory (this : Browser.t) : option string :=
  match Browser.module this with
  | Some m => ephePath (wasmEngine m)
  | None => None
  end.

(** Iteration [i] gets file [file] and stores it. *)
Definition delivers (fetch : nat -> string -> Outcome Response)
    (writeFile : nat -> string -> list Byte.byte -> option JsError.t)
    (i : nat) (file : EphemerisFile.t) : Prop :=
  exists response data,
    fetch i (EphemerisFile.url file) = Return response
    /\ ok response = true
    /\ arrayBuffer response = Return data
    /\ writeFile i (ephemerisPathOf file) data = None.
(** * Facts *)

(** ** ToInt32 and the bitwise operators *)

Lemma toInt32_range z : JS.int32 (JS.toInt32 z).
Proof.
  unfold JS.int32, JS.toInt32; cbv zeta.
  pose proof (Z.mod_pos_bound z (2 ^ 32) ltac:(lia)) as Hr.
  destruct (Z.ltb_spec (z mod 2 ^ 32) (2 ^ 31)); lia.
Qed.

Lemma toInt32_id z : JS.int32 z -> JS.toInt32 z = z.
Proof.
  unfold JS.int32, JS.toInt32; cbv zeta; intros Hz.
  destruct (Z_lt_le_dec z 0) as [Hneg | Hpos].
  - replace (z mod 2 ^ 32) with (z + 2 ^ 32)
      by (apply Z.mod_unique with (q := -1); lia).
    destruct (Z.ltb_spec (z + 2 ^ 32) (2 ^ 31)); lia.
  - rewrite Z.mod_small by lia.
    destruct (Z.ltb_spec z (2 ^ 31)); lia.
Qed.

Lemma toInt32_idem z : JS.toInt32 (JS.toInt32 z) = JS.toInt32 z.
Proof. apply toInt32_id, toInt32_range. Qed.

(** Bit [i] of [toInt32 z] is bit [i] of [z] below the sign bit, and the
    sign bit, bit 31 of [z], from there on. *)
Lemma toInt32_testbit z i :
  0 <= i -> Z.testbit (JS.toInt32 z) i = Z.testbit z (Z.min i 31).
Proof.
  intros Hi. unfold JS.toInt32; cbv zeta.
  pose proof (Z.mod_pos_bound z (2 ^ 32) ltac:(lia)) as Hr.
  assert (Hlow : forall j, 0 <= j < 32 ->
            Z.testbit (z mod 2 ^ 32) j = Z.testbit z j)
    by (intros j Hj; apply Z.mod_pow2_bits_low; lia).
  destruct (Z.ltb_spec (z mod 2 ^ 32) (2 ^ 31)) as [Hlt | Hge].
  - destruct (Z_lt_le_dec i 31) as [Hi31 | Hi31].
    + rewrite Z.min_l by lia. apply Hlow; lia.
    + rewrite Z.min_r by lia. rewrite <- (Hlow 31) by lia.
      assert (Hz : forall j, 31 <= j -> Z.testbit (z mod 2 ^ 32) j = false).
      { intros j Hj. apply Z.testbit_false; [lia|].
        rewrite Z.div_small; [reflexivity|].
        split; [lia|]. apply Z.lt_le_trans with (2 ^ 31); [lia|].
        apply Z.pow_le_mono_r; lia. }
      rewrite !Hz by lia. reflexivity.
  - assert (Hsign : Z.testbit (z mod 2 ^ 32) 31 = true).
    { apply Z.testbit_true; [lia|].
      replace (z mod 2 ^ 32 / 2 ^ 31) with 1; [reflexivity|].
      apply Z.div_unique with (r := z mod 2 ^ 32 - 2 ^ 31); lia. }
    destruct (Z_lt_le_dec i 32) as [Hi32 | Hi32].
    + assert (Hsame : Z.testbit (z mod 2 ^ 32 - 2 ^ 32) i
                      = Z.testbit (z mod 2 ^ 32) i).
      { rewrite <- (Z.mod_pow2_bits_low (z mod 2 ^ 32 - 2 ^ 32) 32 i) by lia.
        rewrite <- (Z.mod_pow2_bits_low (z mod 2 ^ 32) 32 i) by lia.
        f_equal.
        replace (z mod 2 ^ 32 - 2 ^ 32)
          with (z mod 2 ^ 32 + (-1) * 2 ^ 32) by lia.
        apply Z.mod_add; lia. }
      rewrite Hsame.
      destruct (Z_lt_le_dec i 31).
      * rewrite Z.min_l by lia. apply Hlow; lia.
      * replace i with 31 by lia. rewrite Z.min_r by lia.
        apply Hlow; lia.
    + rewrite Z.min_r by lia. rewrite <- (Hlow 31), Hsign by lia.
      apply Z.bits_iff_neg; [|lia].
      apply Z.lt_le_trans with 32; [|lia].
      apply Z.log2_lt_pow2.
      * lia.
      * apply Z.le_lt_trans with (2 ^ 31); lia.
Qed.

(** A number whose bits from the sign bit on all agree is a 32-bit value. *)
Lemma int32_bits z :
  (forall i, 31 <= i -> Z.testbit z i = Z.testbit z 31) -> JS.toInt32 z = z.
Proof.
  intros H. apply Z.bits_inj'. intros i Hi.
  rewrite toInt32_testbit by lia.
  destruct (Z_lt_le_dec i 31).
  - rewrite Z.min_l by lia. reflexivity.
  - rewrite Z.min_r by lia. symmetry. apply H. lia.
Qed.

Lemma toInt32_sign z i :
  31 <= i -> Z.testbit (JS.toInt32 z) i = Z.testbit (JS.toInt32 z) 31.
Proof.
  intros Hi. rewrite !toInt32_testbit by lia.
  rewrite !Z.min_r by lia. reflexivity.
Qed.

Lemma bor_int32 a b : JS.toInt32 (JS.bor a b) = JS.bor a b.
Proof.
  apply int32_bits. intros i Hi. unfold JS.bor.
  rewrite !Z.lor_spec, (toInt32_sign a i), (toInt32_sign b i) by lia.
  reflexivity.
Qed.

Lemma band_int32 a b : JS.toInt32 (JS.band a b) = JS.band a b.
Proof.
  apply int32_bits. intros i Hi. unfold JS.band.
  rewrite !Z.land_spec, (toInt32_sign a i), (toInt32_sign b i) by lia.
  reflexivity.
Qed.

Lemma bnot_int32 a : JS.toInt32 (JS.bnot a) = JS.bnot a.
Proof.
  apply int32_bits. intros i Hi. unfold JS.bnot.
  rewrite !Z.lnot_spec, (toInt32_sign a i) by lia.
  reflexivity.
Qed.

Lemma bor_zero_l x : JS.bor 0 x = JS.toInt32 x.
Proof. unfold JS.bor. reflexivity. Qed.

Lemma bor_idem s x : JS.bor (JS.bor s x) x = JS.bor s x.
Proof.
  unfold JS.bor at 1. rewrite bor_int32. unfold JS.bor.
  rewrite <- Z.lor_assoc, Z.lor_diag. reflexivity.
Qed.

Lemma toInt32_backward (b : bool) :
  JS.toInt32 (if b then 1 else 0) = if b then 1 else 0.
Proof. destruct b; reflexivity. Qed.

Lemma band_bor_bnot s x :
  JS.band (JS.bor s x) (JS.bnot x) = JS.band s (JS.bnot x).
Proof.
  unfold JS.band. rewrite bor_int32, bnot_int32.
  unfold JS.bor, JS.bnot. apply Z.bits_inj'. intros i Hi.
  rewrite !Z.land_spec, Z.lor_spec, Z.lnot_spec by lia.
  destruct (Z.testbit (JS.toInt32 s) i), (Z.testbit (JS.toInt32 x) i);
    reflexivity.
Qed.

(** ** Flag composition *)

Lemma flag_value_int32 (f : CalculationFlag.t) :
  JS.toInt32 (CalculationFlag.value f) = CalculationFlag.value f.
Proof. destruct f; reflexivity. Qed.

Lemma flag_value_pow2 (f : CalculationFlag.t) :
  CalculationFlag.value f = 2 ^ Z.log2 (CalculationFlag.value f)
  /\ 0 <= Z.log2 (CalculationFlag.value f).
Proof. destruct f; split; solve [reflexivity | apply Z.log2_nonneg]. Qed.

Lemma add_many_flags fs b :
  CalculationFlags.flags (CalculationFlags.add (Many fs) b)
  = fold_left JS.bor fs (CalculationFlags.flags b).
Proof.
  simpl. revert b. induction fs as [|f fs IH]; intros b; simpl.
  - reflexivity.
  - rewrite IH. reflexivity.
Qed.

(** Adding the elements one call at a time is adding the array. *)
Lemma add_one_by_one fs b :
  fold_left (fun acc f => CalculationFlags.add (One f) acc) fs b
  = CalculationFlags.add (Many fs) b.
Proof. reflexivity. Qed.

Lemma rawOr_fold (f : CalculationFlag.t) (vs : list Z) :
  fold_left JS.bor (CalculationFlag.value f :: vs) 0
  = rawOr (CalculationFlag.value f :: vs).
Proof. simpl. rewrite bor_zero_l, flag_value_int32. reflexivity. Qed.

Lemma from_named_flags (fs : list CalculationFlag.t) :
  CalculationFlags.toNumber
    (CalculationFlags.from (map CalculationFlag.value fs))
  = rawOr (map CalculationFlag.value fs).
Proof.
  unfold CalculationFlags.toNumber, CalculationFlags.from,
    CalculationFlags.new.
  rewrite add_many_flags. destruct fs as [|f fs].
  - reflexivity.
  - cbn [map CalculationFlags.flags]. apply rawOr_fold.
Qed.

(** C1.  For any finite list of named calculation options, the four input
    shapes normalise to one integer: the raw number [f1 | ... | fn], the
    array [[f1, ..., fn]], the builder filled by one [add] call per option
    (through [normalizeFlags] and through its own [toNumber]), and, for a
    single option, the named option itself. *)
Theorem normalizeFlags_shapes_agree (fs : list CalculationFlag.t) :
  let vs := map CalculationFlag.value fs in
  let n := rawOr vs in
  let builder :=
    fold_left (fun b f => CalculationFlags.add (One f) b) vs
      (CalculationFlags.new None) in
  normalizeFlags (FlagNumber n) = n
  /\ normalizeFlags (FlagArray vs) = n
  /\ normalizeFlags (FlagBuilder builder) = n
  /\ CalculationFlags.toNumber builder = n
  /\ match fs with
     | [f] => normalizeFlags (FlagNamed f) = n
     | _ => True
     end.
Proof.
  intros vs n builder.
  assert (Hb : CalculationFlags.toNumber builder = n).
  { subst builder. rewrite add_one_by_one. apply from_named_flags. }
  repeat split.
  - apply from_named_flags.
  - exact Hb.
  - exact Hb.
  - destruct fs as [|f [|g fs]]; try exact I. reflexivity.
Qed.

(** The agreement is about named options: a raw number is returned as it
    is, while the array and the builder go through the 32-bit operators, so
    a number outside the 32-bit range (no option is) would not survive
    them. *)
Remark raw_number_not_wrapped :
  normalizeFlags (FlagNumber (2 ^ 32 + 2)) = 2 ^ 32 + 2
  /\ normalizeFlags (FlagArray [2 ^ 32 + 2]) = 2.
Proof. split; reflexivity. Qed.

Example normalize_array_swiss_speed :
  normalizeFlags
    (FlagArray (map CalculationFlag.value
                  [CalculationFlag.SwissEphemeris; CalculationFlag.Speed]))
  = 258.
Proof. reflexivity. Qed.

Example builder_chain :
  let b := CalculationFlags.add (One 2048)
             (CalculationFlags.add (One 256) (CalculationFlags.from [2])) in
  CalculationFlags.toNumber b = 2306
  /\ CalculationFlags.has 256 b = true
  /\ CalculationFlags.has 4 b = false
  /\ CalculationFlags.toNumber (CalculationFlags.remove (Many [2; 2048]) b)
     = 256.
Proof. repeat split; reflexivity. Qed.

Example toInt32_wraps :
  JS.toInt32 (2 ^ 32 + 5) = 5
  /\ JS.toInt32 (2 ^ 31) = - 2 ^ 31
  /\ JS.toInt32 (-1) = -1
  /\ JS.bnot 256 = -257.
Proof. repeat split; reflexivity. Qed.

(** Every state a builder can be in holds a 32-bit value. *)
Lemma add_int32 a b :
  JS.toInt32 (CalculationFlags.flags b) = CalculationFlags.flags b ->
  JS.toInt32 (CalculationFlags.flags (CalculationFlags.add a b))
  = CalculationFlags.flags (CalculationFlags.add a b).
Proof.
  destruct a as [f | fs]; simpl.
  - intros _. apply bor_int32.
  - revert b. induction fs as [|f fs IH]; intros b Hb; simpl.
    + exact Hb.
    + apply IH. simpl. apply bor_int32.
Qed.

Lemma remove_int32 a b :
  JS.toInt32 (CalculationFlags.flags b) = CalculationFlags.flags b ->
  JS.toInt32 (CalculationFlags.flags (CalculationFlags.remove a b))
  = CalculationFlags.flags (CalculationFlags.remove a b).
Proof.
  destruct a as [f | fs]; simpl.
  - intros _. apply band_int32.
  - revert b. induction fs as [|f fs IH]; intros b Hb; simpl.
    + exact Hb.
    + apply IH. simpl. apply band_int32.
Qed.

Lemma applyCalls_int32 cs b :
  JS.toInt32 (CalculationFlags.flags b) = CalculationFlags.flags b ->
  JS.toInt32 (CalculationFlags.flags (applyCalls cs b))
  = CalculationFlags.flags (applyCalls cs b).
Proof.
  unfold applyCalls. revert b.
  induction cs as [|c cs IH]; intros b Hb; simpl.
  - exact Hb.
  - apply IH. destruct c; [apply add_int32 | apply remove_int32]; exact Hb.
Qed.

Lemma new_int32 init :
  JS.toInt32 (CalculationFlags.flags (CalculationFlags.new init))
  = CalculationFlags.flags (CalculationFlags.new init).
Proof.
  destruct init as [a|]; simpl; [|reflexivity].
  apply add_int32. reflexivity.
Qed.

(** Removing a single bit that is not set changes nothing. *)
Lemma band_bnot_unset s k :
  0 <= k ->
  JS.toInt32 s = s ->
  JS.toInt32 (2 ^ k) = 2 ^ k ->
  (JS.band s (2 ^ k) =? 2 ^ k) = false ->
  JS.band s (JS.bnot (2 ^ k)) = s.
Proof.
  intros Hk Hs Hx Hhas. apply Z.eqb_neq in Hhas.
  unfold JS.band in *. rewrite bnot_int32. unfold JS.bnot.
  rewrite Hs, Hx in *.
  assert (Hbit : Z.testbit s k = false).
  { destruct (Z.testbit s k) eqn:E; [|reflexivity].
    exfalso. apply Hhas. apply Z.bits_inj'. intros i Hi.
    rewrite Z.land_spec, Z.pow2_bits_eqb by lia.
    destruct (Z.eqb_spec k i) as [->|]; [rewrite E|]; simpl;
      [reflexivity | apply andb_false_r]. }
  apply Z.bits_inj'. intros i Hi.
  rewrite Z.land_spec, Z.lnot_spec, Z.pow2_bits_eqb by lia.
  destruct (Z.eqb_spec k i) as [->|]; simpl.
  - rewrite Hbit. reflexivity.
  - apply andb_true_r.
Qed.

(** C7, as the code has it.  On every builder state (any constructor
    argument followed by any run of [add] and [remove] calls) and for every
    named flag [x]: [add(x); add(x)] yields the integer that [add(x)] alone
    yields; [add(x); remove(x)] yields the integer that [remove(x)] alone
    yields; and that is the integer of the untouched builder when [x] was
    not set in it. *)
Theorem add_remove_idempotent
  (init : option FlagArg) (cs : list BuilderCall) (x : CalculationFlag.t) :
  let b := applyCalls cs (CalculationFlags.new init) in
  let v := One (CalculationFlag.value x) in
  CalculationFlags.toNumber (CalculationFlags.add v (CalculationFlags.add v b))
  = CalculationFlags.toNumber (CalculationFlags.add v b)
  /\ CalculationFlags.toNumber
       (CalculationFlags.remove v (CalculationFlags.add v b))
     = CalculationFlags.toNumber (CalculationFlags.remove v b)
  /\ (CalculationFlags.has (CalculationFlag.value x) b = false ->
      CalculationFlags.toNumber
        (CalculationFlags.remove v (CalculationFlags.add v b))
      = CalculationFlags.toNumber b).
Proof.
  intros b v.
  assert (Hb : JS.toInt32 (CalculationFlags.flags b)
               = CalculationFlags.flags b)
    by (apply applyCalls_int32, new_int32).
  unfold CalculationFlags.toNumber, CalculationFlags.has. subst v. simpl.
  split; [apply bor_idem|]. split; [apply band_bor_bnot|].
  intros Hhas. rewrite band_bor_bnot.
  destruct (flag_value_pow2 x) as [Hx Hk].
  pose proof (flag_value_int32 x) as Hx32.
  rewrite Hx in Hhas, Hx32 |- *.
  apply band_bnot_unset; assumption.
Qed.

(** The third part holds for a builder in which the flag is not yet set. *)
Lemma add_remove_idempotent_witness :
  let b := applyCalls [CallAdd (One 2)] (CalculationFlags.new None) in
  CalculationFlags.has 256 b = false
  /\ CalculationFlags.toNumber
       (CalculationFlags.remove (One 256) (CalculationFlags.add (One 256) b))
     = CalculationFlags.toNumber b.
Proof.
  split; [reflexivity|].
  apply (add_remove_idempotent None [CallAdd (One 2)] CalculationFlag.Speed).
  reflexivity.
Defined.

(** C7 as stated fails on a builder that already holds the flag:
    [from(Speed)] is 256, and after [add(Speed); remove(Speed)] it is 0. *)
Lemma add_remove_not_identity :
  let x := One (CalculationFlag.value CalculationFlag.Speed) in
  let b := CalculationFlags.from [CalculationFlag.value CalculationFlag.Speed] in
  CalculationFlags.toNumber b = 256
  /\ CalculationFlags.toNumber
       (CalculationFlags.remove x (CalculationFlags.add x b)) = 0.
Proof. split; reflexivity. Qed.

(** ** Binary64 facts used by the duration methods *)

Lemma ltb_zero_positive (y : float) :
  PrimFloat.ltb 0 y = sf_positive (Prim2SF y).
Proof.
  rewrite ltb_spec. change (Prim2SF 0) with (S754_zero false).
  unfold SFltb, SFcompare, sf_positive.
  destruct (Prim2SF y) as [[] | [] | | [] m e]; reflexivity.
Qed.

Lemma ltb_zero_leb (y : float) :
  PrimFloat.ltb 0 y = true -> PrimFloat.leb 0 y = true.
Proof.
  rewrite ltb_spec, leb_spec. unfold SFltb, SFleb.
  destruct (SFcompare _ _) as [[]|]; congruence.
Qed.

Lemma shr_1_m mrs : 0 <= shr_m mrs -> shr_m (shr_1 mrs) = shr_m mrs / 2.
Proof.
  destruct mrs as [m r s]; simpl. intros Hm.
  destruct m as [|p|p]; [reflexivity| |lia].
  destruct p as [p|p|]; simpl shr_m.
  - apply Z.div_unique with (r := 1); lia.
  - apply Z.div_unique with (r := 0); lia.
  - reflexivity.
Qed.

(** [p] one-bit shifts divide the mantissa by [2 ^ p]. *)
Lemma iter_shr_1_m p : forall mrs,
  0 <= shr_m mrs ->
  shr_m (SpecFloat.iter_pos shr_1 p mrs) = shr_m mrs / 2 ^ Zpos p.
Proof.
  induction p as [p IH | p IH |]; intros mrs Hm; simpl SpecFloat.iter_pos.
  - assert (H1 : 0 <= shr_m (shr_1 mrs))
      by (rewrite shr_1_m by lia; apply Z.div_pos; lia).
    assert (H2 : 0 <= shr_m (SpecFloat.iter_pos shr_1 p (shr_1 mrs)))
      by (rewrite IH by lia; apply Z.div_pos;
          [lia | apply Z.pow_pos_nonneg; lia]).
    rewrite IH, IH, shr_1_m by lia.
    rewrite !Z.div_div by (try apply Z.pow_pos_nonneg; lia).
    f_equal. replace (Zpos p~1) with (1 + Zpos p + Zpos p) by lia.
    rewrite !Z.pow_add_r by lia. change (2 ^ 1) with 2. ring.
  - assert (H2 : 0 <= shr_m (SpecFloat.iter_pos shr_1 p mrs))
      by (rewrite IH by lia; apply Z.div_pos;
          [lia | apply Z.pow_pos_nonneg; lia]).
    rewrite IH, IH by lia.
    rewrite !Z.div_div by (try apply Z.pow_pos_nonneg; lia).
    f_equal. replace (Zpos p~0) with (Zpos p + Zpos p) by lia.
    rewrite Z.pow_add_r by lia. reflexivity.
  - rewrite shr_1_m by lia. reflexivity.
Qed.

Lemma digits2_size m : digits2_pos m = Pos.size m.
Proof. induction m; simpl; congruence. Qed.

Lemma Zdigits2_bounds M :
  0 < M -> 2 ^ (Zdigits2 M - 1) <= M < 2 ^ Zdigits2 M /\ 1 <= Zdigits2 M.
Proof.
  destruct M as [|m|m]; try lia. intros _. simpl Zdigits2.
  split; [|lia]. rewrite digits2_size.
  pose proof (Pos.size_gt m) as Hgt. pose proof (Pos.size_le m) as Hle.
  apply Pos2Z.pos_lt_pos in Hgt. apply Pos2Z.pos_le_pos in Hle.
  rewrite Pos2Z.inj_pow in Hgt, Hle.
  split; [|exact Hgt].
  replace (Zpos (Pos.size m)) with (1 + (Zpos (Pos.size m) - 1)) in Hle
    by lia.
  rewrite Z.pow_add_r in Hle by lia. lia.
Qed.

Lemma shr_record_of_loc_m m l : shr_m (shr_record_of_loc m l) = m.
Proof. destruct l as [|[]]; reflexivity. Qed.

(** Rounding shifts a positive mantissa by fewer places than it has digits,
    so the mantissa stays positive; and it lifts the exponent to the least
    one at least. *)
Lemma shr_fexp_positive M e l :
  0 < M ->
  -1074 - e <= Zdigits2 M - 1 ->
  0 < shr_m (fst (shr_fexp 53 1024 M e l))
  /\ -1074 <= snd (shr_fexp 53 1024 M e l).
Proof.
  intros HM He.
  destruct (Zdigits2_bounds M HM) as [[Hlo Hhi] Hd].
  unfold shr_fexp, shr, fexp, emin.
  remember (Z.max (Zdigits2 M + e - 53) (3 - 1024 - 53) - e) as n eqn:Hn.
  destruct n as [|p|p]; simpl fst; simpl snd.
  - rewrite shr_record_of_loc_m. lia.
  - rewrite iter_shr_1_m by (rewrite shr_record_of_loc_m; lia).
    rewrite shr_record_of_loc_m. split; [|lia].
    apply Z.div_str_pos. split; [apply Z.pow_pos_nonneg; lia|].
    apply Z.le_trans with (2 ^ (Zdigits2 M - 1)); [|exact Hlo].
    apply Z.pow_le_mono_r; lia.
  - rewrite shr_record_of_loc_m. lia.
Qed.

Lemma round_nearest_even_ge m l : m <= round_nearest_even m l.
Proof. destruct l as [|[]]; simpl; try lia. destruct (Z.even m); lia. Qed.

Lemma binary_round_aux_positive M e l :
  0 < M ->
  -1074 - e <= Zdigits2 M - 1 ->
  sf_positive (binary_round_aux 53 1024 false M e l) = true.
Proof.
  intros HM He. unfold binary_round_aux.
  destruct (shr_fexp_positive M e l HM He) as [H1 H2].
  destruct (shr_fexp 53 1024 M e l) as [mrs' e'].
  simpl fst in H1; simpl snd in H2.
  set (M1 := round_nearest_even (shr_m mrs') (loc_of_shr_record mrs')).
  assert (HM1 : 0 < M1).
  { pose proof (round_nearest_even_ge (shr_m mrs') (loc_of_shr_record mrs')).
    subst M1; lia. }
  assert (He1 : -1074 - e' <= Zdigits2 M1 - 1)
    by (destruct (Zdigits2_bounds M1 HM1) as [_ Hd]; lia).
  destruct (shr_fexp_positive M1 e' loc_Exact HM1 He1) as [H3 _].
  destruct (shr_fexp 53 1024 M1 e' loc_Exact) as [mrs'' e''].
  simpl fst in H3.
  destruct (shr_m mrs'') as [|m|m]; try lia.
  destruct (e'' <=? 1024 - 53); reflexivity.
Qed.

Lemma valid_exponent s m e :
  valid_binary (S754_finite s m e) = true -> -1074 <= e.
Proof.
  unfold SpecFloat.valid_binary, bounded, canonical_mantissa, fexp, emin.
  intros H. apply andb_prop in H. destruct H as [H _].
  apply Z.eqb_eq in H.
  change prec with 53 in H. change emax with 1024 in H. lia.
Qed.

(** Converting days to hours keeps the sign test: [x * 24 > 0] exactly when
    [x > 0], for every binary64 [x] (NaN, zeros and infinities included). *)
Lemma mul_24_positive (x : float) :
  PrimFloat.ltb 0 (x * 24) = PrimFloat.ltb 0 x.
Proof.
  rewrite !ltb_zero_positive, mul_spec.
  pose proof (Prim2SF_valid x) as Hv.
  change (Prim2SF 24) with (S754_finite false 6755399441055744 (-48)).
  destruct (Prim2SF x) as [[] | [] | | s m e]; try reflexivity.
  unfold SF64mul, SFmul. destruct s.
  - simpl xorb. unfold binary_round_aux.
    destruct (shr_fexp _ _ _ _ _) as [mrs' e'].
    destruct (shr_fexp _ _ _ _ _) as [mrs'' e''].
    destruct (shr_m mrs''); try reflexivity.
    destruct (_ <=? _); reflexivity.
  - simpl xorb. simpl sf_positive at 2.
    apply valid_exponent in Hv.
    apply binary_round_aux_positive; [lia|].
    pose proof (Zdigits2_bounds (Zpos (m * 6755399441055744)) ltac:(lia))
      as [[_ Hhi] _].
    destruct (Z_lt_le_dec (Zdigits2 (Zpos (m * 6755399441055744))) 53)
      as [Hlt|Hge]; [exfalso | lia].
    assert (2 ^ Zdigits2 (Zpos (m * 6755399441055744)) <= 2 ^ 52)
      by (apply Z.pow_le_mono_r; lia).
    rewrite Pos2Z.inj_mul in *.
    assert (2 ^ 52 < Z.pos m * 6755399441055744) by lia. lia.
Qed.

(** ** Eclipse records *)

(** The clamp of the sources, on the hours, is the clamp of the
    specification, on the subtraction. *)
Lemma clamp_hours_eq (b e : float) :
  (if PrimFloat.eqb b 0 || PrimFloat.eqb e 0 then 0%float
   else let duration := ((e - b) * 24)%float in
        if PrimFloat.ltb 0 duration then duration else 0%float)
  = clampedHours b e.
Proof.
  unfold clampedHours. cbv zeta. rewrite mul_24_positive. reflexivity.
Qed.

Lemma clampedHours_nonNegative (b e : float) :
  nonNegative (clampedHours b e) = true.
Proof.
  rewrite <- clamp_hours_eq. unfold nonNegative. cbv zeta.
  destruct (PrimFloat.eqb b 0 || PrimFloat.eqb e 0); [reflexivity|].
  destruct (PrimFloat.ltb 0 ((e - b) * 24)) eqn:H; [|reflexivity].
  apply ltb_zero_leb, H.
Qed.

Lemma clampedHours_sentinel (b e : float) :
  isSentinel b || isSentinel e = true -> clampedHours b e = 0%float.
Proof. unfold clampedHours, isSentinel. intros ->. reflexivity. Qed.

Lemma getPartialDuration_spec (r : LunarEclipseImpl.t) :
  LunarEclipseImpl.getPartialDuration r
  = clampedHours (LunarEclipseImpl.partialBegin r)
                 (LunarEclipseImpl.partialEnd r).
Proof. apply clamp_hours_eq. Qed.

Lemma getTotalDuration_spec (r : LunarEclipseImpl.t) :
  LunarEclipseImpl.getTotalDuration r
  = clampedHours (LunarEclipseImpl.penumbralBegin r)
                 (LunarEclipseImpl.penumbralEnd r).
Proof. apply clamp_hours_eq. Qed.

Lemma getTotalityDuration_spec (r : LunarEclipseImpl.t) :
  LunarEclipseImpl.getTotalityDuration r
  = if LunarEclipseImpl.isTotal r
    then clampedHours (LunarEclipseImpl.totalBegin r)
                      (LunarEclipseImpl.totalEnd r)
    else 0%float.
Proof.
  unfold LunarEclipseImpl.getTotalityDuration.
  destruct (LunarEclipseImpl.isTotal r); simpl negb; simpl orb.
  - apply clamp_hours_eq.
  - reflexivity.
Qed.

(** C2, as the code has it.  On every lunar eclipse record the partial and
    the whole (penumbral) duration are [(end - begin) * 24], clamped to 0
    when the subtraction is not positive or a boundary is the sentinel 0;
    the totality duration is that same value when the type bitmask has the
    Total bit and 0 otherwise.  So every duration is non-negative, and is 0
    whenever one of its boundaries is the sentinel. *)
Theorem lunar_durations_clamped (r : LunarEclipseImpl.t) :
  let dTotality := LunarEclipseImpl.getTotalityDuration r in
  let dPartial := LunarEclipseImpl.getPartialDuration r in
  let dTotal := LunarEclipseImpl.getTotalDuration r in
  (dPartial = clampedHours (LunarEclipseImpl.partialBegin r)
                           (LunarEclipseImpl.partialEnd r)
   /\ dTotal = clampedHours (LunarEclipseImpl.penumbralBegin r)
                            (LunarEclipseImpl.penumbralEnd r)
   /\ dTotality = if LunarEclipseImpl.isTotal r
                  then clampedHours (LunarEclipseImpl.totalBegin r)
                                    (LunarEclipseImpl.totalEnd r)
                  else 0%float)
  /\ (nonNegative dTotality = true
      /\ nonNegative dPartial = true
      /\ nonNegative dTotal = true)
  /\ ((isSentinel (LunarEclipseImpl.totalBegin r)
       || isSentinel (LunarEclipseImpl.totalEnd r) = true ->
       dTotality = 0%float)
      /\ (isSentinel (LunarEclipseImpl.partialBegin r)
          || isSentinel (LunarEclipseImpl.partialEnd r) = true ->
          dPartial = 0%float)
      /\ (isSentinel (LunarEclipseImpl.penumbralBegin r)
          || isSentinel (LunarEclipseImpl.penumbralEnd r) = true ->
          dTotal = 0%float)).
Proof.
  cbv zeta.
  rewrite getPartialDuration_spec, getTotalDuration_spec,
    getTotalityDuration_spec.
  repeat split; try apply clampedHours_nonNegative;
    try apply clampedHours_sentinel.
  - destruct (LunarEclipseImpl.isTotal r);
      [apply clampedHours_nonNegative | reflexivity].
  - intros H. destruct (LunarEclipseImpl.isTotal r); [|reflexivity].
    apply clampedHours_sentinel, H.
Qed.

(** A total eclipse with three hours of totality whose partial phase slot is
    the sentinel. *)
Lemma lunar_durations_clamped_witness :
  let r := LunarEclipseImpl.mk 4 2460000.5 0 0 2460000.4375 2460000.5625
             2460000.25 2460000.75 in
  isSentinel (LunarEclipseImpl.partialBegin r)
  || isSentinel (LunarEclipseImpl.partialEnd r) = true
  /\ LunarEclipseImpl.getPartialDuration r = 0%float
  /\ nonNegative (LunarEclipseImpl.getTotalityDuration r) = true.
Proof.
  cbv zeta.
  pose proof (lunar_durations_clamped
                (LunarEclipseImpl.mk 4 2460000.5 0 0 2460000.4375 2460000.5625
                   2460000.25 2460000.75)) as H.
  cbv zeta in H. destruct H as [_ [[Hn _] [_ [Hp _]]]].
  split; [reflexivity|]. split; [apply Hp; reflexivity | exact Hn].
Defined.

(** C2 as stated fails for the totality duration: with the Total bit clear
    (a partial eclipse, type 16) and totality slots one day apart, the
    rule of the specification gives 24 hours and the method returns 0. *)
Lemma totality_duration_not_only_clamp :
  let r := LunarEclipseImpl.mk 16 2460000.5 2460000.25 2460000.75
             2460000 2460001 2460000.125 2460000.875 in
  clampedHours (LunarEclipseImpl.totalBegin r) (LunarEclipseImpl.totalEnd r)
  = 24%float
  /\ LunarEclipseImpl.getTotalityDuration r = 0%float.
Proof. split; vm_compute; reflexivity. Qed.

(** C10.  A lunar eclipse record whose type bitmask lacks the Total bit has
    totality duration 0, whatever its totality boundaries are. *)
Theorem totality_duration_gated_on_type (r : LunarEclipseImpl.t) :
  JS.band (LunarEclipseImpl.type r) (EclipseType.value EclipseType.Total) = 0 ->
  LunarEclipseImpl.getTotalityDuration r = 0%float.
Proof.
  intros H. unfold LunarEclipseImpl.getTotalityDuration,
    LunarEclipseImpl.isTotal.
  rewrite H. reflexivity.
Qed.

(** Nonzero totality boundaries, the end after the beginning, and yet 0. *)
Lemma totality_duration_gated_on_type_witness :
  let r := LunarEclipseImpl.mk 16 2460000.5 2460000.25 2460000.75
             2460000 2460001 2460000.125 2460000.875 in
  JS.band (LunarEclipseImpl.type r) (EclipseType.value EclipseType.Total) = 0
  /\ isSentinel (LunarEclipseImpl.totalBegin r) = false
  /\ isSentinel (LunarEclipseImpl.totalEnd r) = false
  /\ PrimFloat.ltb (LunarEclipseImpl.totalBegin r)
                   (LunarEclipseImpl.totalEnd r) = true
  /\ LunarEclipseImpl.getTotalityDuration r = 0%float.
Proof.
  cbv zeta. split; [reflexivity|]. do 3 (split; [reflexivity|]).
  apply totality_duration_gated_on_type. reflexivity.
Defined.

Lemma land_pow2 a k :
  0 <= k -> Z.land a (2 ^ k) = if Z.testbit a k then 2 ^ k else 0.
Proof.
  intros Hk. apply Z.bits_inj'. intros i Hi.
  rewrite Z.land_spec, Z.pow2_bits_eqb by lia.
  destruct (Z.eqb_spec k i) as [->|Hne].
  - destruct (Z.testbit a i) eqn:E.
    + rewrite Z.pow2_bits_true by lia. reflexivity.
    + rewrite Z.bits_0. reflexivity.
  - rewrite andb_false_r.
    destruct (Z.testbit a k).
    + rewrite Z.pow2_bits_false by lia. reflexivity.
    + rewrite Z.bits_0. reflexivity.
Qed.

(** The test [(type & bit) !== 0] reads one bit of the type. *)
Lemma band_bit t v k :
  0 <= k -> v = 2 ^ k -> JS.toInt32 v = v ->
  negb (JS.band t v =? 0) = typeBit t k.
Proof.
  intros Hk -> Hv. unfold JS.band, typeBit. rewrite Hv, land_pow2 by lia.
  destruct (Z.testbit (JS.toInt32 t) k); [|reflexivity].
  assert (0 < 2 ^ k) by (apply Z.pow_pos_nonneg; lia).
  destruct (Z.eqb_spec (2 ^ k) 0); [lia | reflexivity].
Qed.

Lemma band_two_bits t :
  (JS.band t (JS.bor (EclipseType.value EclipseType.Total)
                     (EclipseType.value EclipseType.Partial)) =? 0)
  = negb (typeBit t 2) && negb (typeBit t 4).
Proof.
  change (JS.bor _ _) with 20. unfold JS.band, typeBit.
  change (JS.toInt32 20) with (Z.lor (2 ^ 2) (2 ^ 4)).
  rewrite Z.land_lor_distr_r, !land_pow2 by lia.
  destruct (Z.testbit (JS.toInt32 t) 2), (Z.testbit (JS.toInt32 t) 4);
    reflexivity.
Qed.

(** C3, as the code has it.  Every derived predicate of a lunar or solar
    eclipse record reads the type bitmask and nothing else: each one is a
    fixed bit test of [type], so the time-boundary slots, sentinel or not,
    have no part in it. *)
Theorem predicates_read_type_only
  (l : LunarEclipseImpl.t) (s : SolarEclipseImpl.t) :
  (LunarEclipseImpl.isTotal l = typeBit (LunarEclipseImpl.type l) 2
   /\ LunarEclipseImpl.isPartial l = typeBit (LunarEclipseImpl.type l) 4
   /\ LunarEclipseImpl.isPenumbralOnly l
      = typeBit (LunarEclipseImpl.type l) 6
        && (negb (typeBit (LunarEclipseImpl.type l) 2)
            && negb (typeBit (LunarEclipseImpl.type l) 4)))
  /\ (SolarEclipseImpl.isCentral s = typeBit (SolarEclipseImpl.type s) 0
      /\ SolarEclipseImpl.isNonCentral s = typeBit (SolarEclipseImpl.type s) 1
      /\ SolarEclipseImpl.isTotal s = typeBit (SolarEclipseImpl.type s) 2
      /\ SolarEclipseImpl.isAnnular s = typeBit (SolarEclipseImpl.type s) 3
      /\ SolarEclipseImpl.isPartial s = typeBit (SolarEclipseImpl.type s) 4
      /\ SolarEclipseImpl.isHybrid s = typeBit (SolarEclipseImpl.type s) 5).
Proof.
  unfold LunarEclipseImpl.isTotal, LunarEclipseImpl.isPartial,
    LunarEclipseImpl.isPenumbralOnly, SolarEclipseImpl.isCentral,
    SolarEclipseImpl.isNonCentral, SolarEclipseImpl.isTotal,
    SolarEclipseImpl.isAnnular, SolarEclipseImpl.isPartial,
    SolarEclipseImpl.isHybrid.
  rewrite band_two_bits.
  repeat split; try (apply band_bit; [lia | reflexivity | reflexivity]).
  f_equal. apply band_bit; [lia | reflexivity | reflexivity].
Qed.

(** C3 as stated fails: a lunar record of type Total whose totality slots
    both hold the sentinel still answers [isTotal() = true], and a solar
    record of type Central whose central slots hold the sentinel answers
    [isCentral() = true]. *)
Lemma sentinel_does_not_clear_predicates :
  let l := LunarEclipseImpl.mk 4 2460000.5 2460000.25 2460000.75 0 0
             2460000.125 2460000.875 in
  let s := SolarEclipseImpl.mk 5 2460000.5 2460000.25 2460000.75 0 0
             2460000.375 2460000.625 in
  (isSentinel (LunarEclipseImpl.totalBegin l) = true
   /\ isSentinel (LunarEclipseImpl.totalEnd l) = true
   /\ LunarEclipseImpl.isTotal l = true)
  /\ (isSentinel (SolarEclipseImpl.centralBegin s) = true
      /\ isSentinel (SolarEclipseImpl.centralEnd s) = true
      /\ SolarEclipseImpl.isCentral s = true
      /\ SolarEclipseImpl.isTotal s = true).
Proof. repeat split; reflexivity. Qed.

(** ** The bytecode-module gateway before [init()] *)

(** [_checkReady] comes first in every method: on an object that is not
    ready the body is never entered. *)
Lemma withModule_not_ready {A} (this : Browser.t)
    (k : WasmModule -> WasmModule * Outcome A) :
  Browser.ready this = false ->
  Browser.withModule this k = (this, Throw Browser.notInitialized).
Proof.
  intros H. unfold Browser.withModule, Browser._checkReady.
  rewrite H. reflexivity.
Qed.

(** C8.  On an object that is not ready (whatever its module field holds),
    each of the nine calculation operations throws the not-initialised
    error at once and leaves the object as it was: the engine is not
    called and nothing is allocated. *)
Theorem calls_before_init_fail
  (eng : Engine) (alloc : gmap Z Z -> Z -> Z) (module : option WasmModule) :
  let this := Browser.mk module false in
  Browser.version eng this = (this, Throw Browser.notInitialized)
  /\ (forall path,
        Browser.setEphemerisPath alloc path this
        = (this, Throw Browser.notInitialized))
  /\ (forall year month day hour calendarType,
        Browser.julianDay eng year month day hour calendarType this
        = (this, Throw Browser.notInitialized))
  /\ (forall jd calendarType,
        Browser.julianDayToDate eng alloc jd calendarType this
        = (this, Throw Browser.notInitialized))
  /\ (forall julianDay body flags,
        Browser.calculatePosition eng alloc julianDay body flags this
        = (this, Throw Browser.notInitialized))
  /\ (forall julianDay latitude longitude houseSystem,
        Browser.calculateHouses eng alloc julianDay latitude longitude
          houseSystem this
        = (this, Throw Browser.notInitialized))
  /\ (forall startJulianDay flags eclipseType backward,
        Browser.findNextLunarEclipse eng alloc startJulianDay flags
          eclipseType backward this
        = (this, Throw Browser.notInitialized))
  /\ (forall startJulianDay flags eclipseType backward,
        Browser.findNextSolarEclipse eng alloc startJulianDay flags
          eclipseType backward this
        = (this, Throw Browser.notInitialized))
  /\ (forall body,
        Browser.getCelestialBodyName eng body this
        = (this, Throw Browser.notInitialized))
  /\ JsError.message Browser.notInitialized
     = "SwissEphemeris not initialized. Call await swe.init() first.".
Proof.
  cbv zeta.
  unfold Browser.version, Browser.setEphemerisPath, Browser.julianDay,
    Browser.julianDayToDate, Browser.calculatePosition,
    Browser.calculateHouses, Browser.findNextLunarEclipse,
    Browser.findNextSolarEclipse, Browser.getCelestialBodyName.
  repeat split; intros; apply withModule_not_ready; reflexivity.
Qed.

(** ** Lazy configuration of the data directory (native gateway) *)

Section LazyInitialization.
Variable eng : Engine.
Variable bundled : string.

Lemma configurations_logCall c es :
  (match c with CSetEphePath _ => false | _ => true end) = true ->
  configurations (logCall c es) = configurations es.
Proof.
  intros Hc. unfold configurations, logCall. simpl.
  rewrite List.filter_app, length_app. simpl.
  destruct c; try discriminate; simpl; lia.
Qed.

Lemma configurations_configurePath p es :
  configurations (configurePath p es) = S (configurations es).
Proof.
  unfold configurations, configurePath. simpl.
  rewrite List.filter_app, length_app. simpl. lia.
Qed.

Lemma ensure_lazy flags st :
  Node.ephemerisPathSet st = false -> usesMoshier flags = false ->
  Node.ensureEphemerisInitialized bundled flags st
  = Node.mk true (configurePath bundled (Node.engine st)).
Proof.
  unfold Node.ensureEphemerisInitialized, usesMoshier. intros -> ->.
  reflexivity.
Qed.

Lemma ensure_skip flags st :
  Node.ephemerisPathSet st = true \/ usesMoshier flags = true ->
  Node.ensureEphemerisInitialized bundled flags st = st.
Proof.
  unfold Node.ensureEphemerisInitialized, usesMoshier.
  intros [-> | ->]; [reflexivity|]. rewrite andb_false_r. reflexivity.
Qed.

(** A file calculation of the native gateway: the lazy step, one engine
    call, and the reply turned into an error or into the record. *)
Lemma nodeCalculate_spec (c : FileCalculation) (st : Node.t) :
  let st1 := Node.ensureEphemerisInitialized bundled (requestedFlags c) st in
  let r := replyTo eng (ephePath (Node.engine st1)) (requestedFlags c) c in
  nodeCalculate eng bundled c st
  = (Node.mk (Node.ephemerisPathSet st1)
       (logCall (engineCallOf c) (Node.engine st1)),
     if ret r <? 0 then Throw (JsError.Error (serr r))
     else Return (recordOf c r)).
Proof.
  destruct c as [jd body f | jd f e b | jd f e b]; cbv zeta;
    unfold nodeCalculate, Node.calculatePosition, Node.findNextLunarEclipse,
      Node.findNextSolarEclipse, Binding.calc_ut, Binding.lun_eclipse_when,
      Binding.sol_eclipse_when_glob, engineCallOf, engineCallWith, replyTo,
      recordOf, requestedFlags;
    cbv zeta.
  - destruct (ret _ <? 0); reflexivity.
  - rewrite toInt32_backward. destruct (ret _ <? 0); reflexivity.
  - rewrite toInt32_backward. destruct (ret _ <? 0); reflexivity.
Qed.

(** So the state after it is the lazy step's, with the call logged,
    whether the engine then fails or not. *)
Lemma nodeAfter_spec c st :
  nodeAfter eng bundled c st
  = let st1 := Node.ensureEphemerisInitialized bundled (requestedFlags c) st in
    Node.mk (Node.ephemerisPathSet st1)
      (logCall (engineCallOf c) (Node.engine st1)).
Proof.
  unfold nodeAfter. pose proof (nodeCalculate_spec c st) as H.
  cbv zeta in H. rewrite H. reflexivity.
Qed.

Lemma engineCallOf_not_config c :
  (match engineCallOf c with CSetEphePath _ => false | _ => true end) = true.
Proof. destruct c; reflexivity. Qed.

(** C4.  A file calculation (position or eclipse search) whose flags leave
    the Moshier bit clear, on a state not yet configured, configures the
    bundled directory once, before its engine call, and leaves the state
    configured; a second file calculation, whatever its flags, configures
    nothing.  When the Moshier bit is set or the state is configured
    already, the calculation configures nothing and leaves the flag.  An
    explicit [setEphemerisPath], with a directory or without, leaves the
    state configured. *)
Theorem lazy_initialization_once (c c' : FileCalculation) (st : Node.t) :
  let st1 := nodeAfter eng bundled c st in
  let st2 := nodeAfter eng bundled c' st1 in
  (Node.ephemerisPathSet st = false ->
   usesMoshier (requestedFlags c) = false ->
   Node.ephemerisPathSet st1 = true
   /\ ephePath (Node.engine st1) = Some bundled
   /\ calls (Node.engine st1)
      = calls (Node.engine st) ++ [CSetEphePath bundled; engineCallOf c]
   /\ configurations (Node.engine st1) = S (configurations (Node.engine st))
   /\ Node.ephemerisPathSet st2 = true
   /\ calls (Node.engine st2) = calls (Node.engine st1) ++ [engineCallOf c']
   /\ configurations (Node.engine st2) = configurations (Node.engine st1))
  /\ (Node.ephemerisPathSet st = true
      \/ usesMoshier (requestedFlags c) = true ->
      Node.ephemerisPathSet st1 = Node.ephemerisPathSet st
      /\ ephePath (Node.engine st1) = ephePath (Node.engine st)
      /\ calls (Node.engine st1)
         = calls (Node.engine st) ++ [engineCallOf c]
      /\ configurations (Node.engine st1) = configurations (Node.engine st))
  /\ (forall path,
        Node.ephemerisPathSet (Node.setEphemerisPath bundled path st) = true).
Proof.
  cbv zeta. split; [|split; [|intros [p|]; reflexivity]].
  - intros Hset Hmosh.
    assert (H1 : nodeAfter eng bundled c st
                 = Node.mk true
                     (logCall (engineCallOf c)
                        (configurePath bundled (Node.engine st))))
      by (rewrite nodeAfter_spec; cbv zeta;
          rewrite ensure_lazy by assumption; reflexivity).
    rewrite H1, nodeAfter_spec. cbv zeta.
    rewrite (ensure_skip (requestedFlags c')) by (left; reflexivity).
    simpl.
    rewrite <- !app_assoc. simpl.
    repeat split.
    + rewrite configurations_logCall by apply engineCallOf_not_config.
      apply configurations_configurePath.
    + apply configurations_logCall, engineCallOf_not_config.
  - intros Hskip. rewrite nodeAfter_spec. cbv zeta.
    rewrite ensure_skip by assumption. simpl.
    repeat split.
    apply configurations_logCall, engineCallOf_not_config.
Qed.

End LazyInitialization.

(** The default position request on a fresh process configures the bundled
    directory; the same request again does not. *)
Lemma lazy_initialization_once_witness :
  let c := Position 2454162.5 0 None in
  let st1 := nodeAfter sampleEngine sampleBundledPath c Node.initial in
  let st2 := nodeAfter sampleEngine sampleBundledPath c st1 in
  Node.ephemerisPathSet Node.initial = false
  /\ usesMoshier (requestedFlags c) = false
  /\ Node.ephemerisPathSet st1 = true
  /\ configurations (Node.engine st1) = 1%nat
  /\ Node.ephemerisPathSet st2 = true
  /\ configurations (Node.engine st2) = 1%nat.
Proof.
  cbv zeta.
  pose proof (lazy_initialization_once sampleEngine sampleBundledPath
                (Position 2454162.5 0 None) (Position 2454162.5 0 None)
                Node.initial) as H.
  cbv zeta in H. destruct H as [H _].
  specialize (H eq_refl eq_refl).
  destruct H as (H1 & _ & _ & H2 & H3 & _ & H4).
  split; [reflexivity|]. split; [reflexivity|].
  split; [exact H1|]. split; [exact H2|]. split; [exact H3|].
  rewrite H4. exact H2.
Defined.

(** ** Linear memory *)

Lemma storeDoubles_live vals : forall base m,
  live (storeDoubles base vals m) = live m.
Proof.
  induction vals as [|v vs IH]; intros base m; simpl; [reflexivity|].
  rewrite IH. reflexivity.
Qed.

Lemma storeDoubles_engine vals : forall base m,
  wasmEngine (storeDoubles base vals m) = wasmEngine m.
Proof.
  induction vals as [|v vs IH]; intros base m; simpl; [reflexivity|].
  rewrite IH. reflexivity.
Qed.

(** Storing a buffer leaves every other address as it was. *)
Lemma storeDoubles_other vals : forall base m a,
  (forall j, (j < length vals)%nat -> a <> base + 8 * Z.of_nat j) ->
  cells (storeDoubles base vals m) !! a = cells m !! a.
Proof.
  induction vals as [|v vs IH]; intros base m a Ha; simpl; [reflexivity|].
  rewrite IH.
  - unfold store; simpl. apply lookup_insert_ne.
    specialize (Ha 0%nat ltac:(simpl; lia)). lia.
  - intros j Hj. specialize (Ha (S j) ltac:(simpl; lia)). lia.
Qed.

(** Slot [i] of a stored buffer is found at [base + 8 * i]. *)
Lemma storeDoubles_at vals : forall base m i,
  (i < length vals)%nat ->
  cells (storeDoubles base vals m) !! (base + 8 * Z.of_nat i)
  = Some (CellF64 (nth i vals 0%float)).
Proof.
  induction vals as [|v vs IH]; intros base m i Hi; simpl in Hi; [lia|].
  simpl storeDoubles. destruct i as [|i].
  - rewrite storeDoubles_other by (intros j _; lia).
    replace (base + 8 * Z.of_nat 0) with base by lia.
    unfold store; simpl. apply lookup_insert_eq.
  - replace (base + 8 * Z.of_nat (S i)) with (base + 8 + 8 * Z.of_nat i)
      by lia.
    apply IH. lia.
Qed.

Lemma slots_length n b : length (slots n b) = n.
Proof. unfold slots. rewrite length_map, length_seq. reflexivity. Qed.

Lemma nth_map_seq (f : nat -> float) n : forall start i,
  (i < n)%nat -> nth i (map f (seq start n)) 0%float = f (start + i)%nat.
Proof.
  induction n as [|n IH]; intros start i Hi; [lia|].
  simpl. destruct i as [|i].
  - f_equal. lia.
  - rewrite IH by lia. f_equal. lia.
Qed.

Lemma slots_nth n b i :
  (i < n)%nat -> nth i (slots n b) 0%float = nth i b 0%float.
Proof. intros Hi. unfold slots. rewrite nth_map_seq by exact Hi. reflexivity. Qed.

(** Reading [n] doubles back from where a buffer was stored gives the
    buffer, when the memory still holds it. *)
Lemma readDoubles_stored base n b m :
  (forall i, (i < n)%nat ->
     cells m !! (base + 8 * Z.of_nat i)
     = Some (CellF64 (nth i (slots n b) 0%float))) ->
  Browser.readDoubles base n m = slots n b.
Proof.
  intros H. unfold Browser.readDoubles, slots.
  apply map_ext_in. intros i Hi. apply in_seq in Hi.
  unfold Emscripten.getValue_double.
  replace (base + Z.of_nat i * 8) with (base + 8 * Z.of_nat i) by lia.
  rewrite H by lia. apply slots_nth. lia.
Qed.

(** ** What the allocator's contract gives *)

Section AllocatorFacts.
Variable alloc : gmap Z Z -> Z -> Z.
Hypothesis alloc_ok : allocatorOk alloc.

Lemma alloc_fresh (blocks : gmap Z Z) (n : Z) : 0 < n -> blocks !! alloc blocks n = None.
Proof. intros Hn. apply (alloc_ok blocks n Hn). Qed.

(** A block allocated while [q] is in use lies outside [q]'s block. *)
Lemma alloc_outside (blocks : gmap Z Z) (q sz n k : Z) :
  0 < n -> 0 <= k < sz ->
  alloc (<[q := sz]> blocks) n <> q + k.
Proof.
  intros Hn Hk.
  destruct (alloc_ok (<[q := sz]> blocks) n Hn) as [_ Hd].
  specialize (Hd q sz (lookup_insert_eq _ _ _)). lia.
Qed.

(** Two blocks allocated one after the other do not share an address. *)
Lemma alloc_apart (blocks : gmap Z Z) (n1 n2 j k : Z) :
  0 < n1 -> 0 < n2 -> 0 <= j < n1 -> 0 <= k < n2 ->
  alloc (<[alloc blocks n1 := n1]> blocks) n2 + k <> alloc blocks n1 + j.
Proof.
  intros H1 H2 Hj Hk.
  destruct (alloc_ok (<[alloc blocks n1 := n1]> blocks) n2 H2) as [_ Hd].
  specialize (Hd (alloc blocks n1) n1 (lookup_insert_eq _ _ _)). lia.
Qed.

(** Allocating two blocks and freeing them restores the table. *)
Lemma free_two (blocks : gmap Z Z) (p1 s1 p2 s2 : Z) :
  blocks !! p1 = None ->
  <[p1 := s1]> blocks !! p2 = None ->
  delete p2 (delete p1 (<[p2 := s2]> (<[p1 := s1]> blocks))) = blocks.
Proof.
  intros H1 H2. apply lookup_insert_None in H2 as [H2 Hne].
  apply map_eq. intros i.
  rewrite !lookup_delete, !lookup_insert.
  repeat case_decide; subst; congruence.
Qed.

End AllocatorFacts.


(** ** Allocating and freeing, whatever the allocator does *)

Lemma lookup_freeAll (qs : list Z) : forall (blocks : gmap Z Z) (i : Z),
  freeAll qs blocks !! i = if decide (i ∈ qs) then None else blocks !! i.
Proof.
  unfold freeAll.
  induction qs as [|q qs IH]; intros blocks i; cbn [fold_left].
  - case_decide as Hin; [|reflexivity].
    apply elem_of_nil in Hin. contradiction.
  - rewrite IH, lookup_delete.
    repeat case_decide; subst; try reflexivity; exfalso.
    + match goal with H : _ ∉ _ :: _ |- _ => apply H end. right. assumption.
    + match goal with H : _ ∉ _ :: _ |- _ => apply H end. left.
    + match goal with H : _ ∈ _ :: _ |- _ =>
        apply elem_of_cons in H as [?|?] end; congruence.
Qed.

Lemma lookup_allocAll_notin (ps : list (Z * Z)) :
  forall (blocks : gmap Z Z) (i : Z),
  i ∉ map fst ps -> allocAll ps blocks !! i = blocks !! i.
Proof.
  unfold allocAll.
  induction ps as [|[p s] ps IH]; intros blocks i Hi; simpl; [reflexivity|].
  simpl in Hi. apply not_elem_of_cons in Hi as [Hne Hi].
  rewrite IH by exact Hi. apply lookup_insert_ne. congruence.
Qed.

(** Freeing what was allocated never leaves more blocks in use than there
    were, even if the allocator handed out an address already in use. *)
Lemma freeAll_allocAll_subseteq (ps : list (Z * Z)) (blocks : gmap Z Z) :
  freeAll (map fst ps) (allocAll ps blocks) ⊆ blocks.
Proof.
  apply map_subseteq_spec. intros i x. rewrite lookup_freeAll.
  destruct (decide (i ∈ map fst ps)) as [Hin|Hnin]; [discriminate|].
  rewrite lookup_allocAll_notin by exact Hnin. trivial.
Qed.

(** And it restores the table when the addresses were not in use. *)
Lemma freeAll_allocAll (ps : list (Z * Z)) (blocks : gmap Z Z) :
  Forall (fun p => blocks !! fst p = None) ps ->
  freeAll (map fst ps) (allocAll ps blocks) = blocks.
Proof.
  intros Hfresh. apply map_eq. intros i. rewrite lookup_freeAll.
  destruct (decide (i ∈ map fst ps)) as [Hin|Hnin].
  - apply list_elem_of_fmap in Hin as ([p s] & -> & Hin).
    rewrite Forall_forall in Hfresh. symmetry. apply (Hfresh _ Hin).
  - apply lookup_allocAll_notin. exact Hnin.
Qed.
(** ** The two gateways, operation by operation *)

Section Gateways.
Variable eng : Engine.
Variable bundled : string.
Variable alloc : gmap Z Z -> Z -> Z.

(** On a negative return code the bytecode-module gateway throws the text
    it reads back from the error buffer, which is the engine's. *)
Lemma browser_throws (c : FileCalculation) (m : WasmModule) :
  let r := replyTo eng (ephePath (wasmEngine m)) (browserFlags c) c in
  ret r < 0 ->
  snd (browserCalculate eng alloc c (Browser.mk (Some m) true))
  = Throw (JsError.Error (serr r)).
Proof.
  destruct c as [jd body f | jd f e b | jd f e b]; cbv zeta;
    unfold browserCalculate, Browser.calculatePosition,
      Browser.findNextLunarEclipse, Browser.findNextSolarEclipse,
      Browser.withModule, Browser._checkReady, Browser.usingModule,
      Emscripten._malloc, Wasm.swe_calc_ut_wrap,
      Wasm.swe_lun_eclipse_when_wrap, Wasm.swe_sol_eclipse_when_glob_wrap,
      replyTo, browserFlags;
    cbn [Browser.ready Browser.module negb live cells wasmEngine];
    cbv zeta; rewrite ?toInt32_backward;
    intros Hneg; apply Z.ltb_lt in Hneg; rewrite Hneg;
    cbn [snd mapOutcome]; unfold Emscripten.UTF8ToString, store;
    cbn [cells]; rewrite lookup_insert_eq; reflexivity.
Qed.

Lemma node_houses_throws jd lat lon hs (st : Node.t) :
  let code := charCode0 (HouseSystem.value (default HouseSystem.Placidus hs)) in
  hret (swe_houses eng jd lat lon code) < 0 ->
  snd (Node.calculateHouses eng jd lat lon hs st)
  = Throw (JsError.Error "Failed to calculate houses").
Proof.
  cbv zeta. intros Hneg. apply Z.ltb_lt in Hneg.
  unfold Node.calculateHouses, Binding.houses. cbv zeta.
  rewrite Hneg. reflexivity.
Qed.

(** C5, as the code has it.  When the engine answers a position request or
    an eclipse search with a negative code, either gateway throws an error
    whose message is the engine's text, unchanged, and returns no record;
    the error carries that message and nothing else.  For houses, where the
    engine has no text, the native gateway throws its own fixed message. *)
Theorem computation_failure_surfaces_message
  (c : FileCalculation) (st : Node.t) (m : WasmModule)
  (jd lat lon : float) (hs : option HouseSystem.t) :
  let st1 := Node.ensureEphemerisInitialized bundled (requestedFlags c) st in
  let rN := replyTo eng (ephePath (Node.engine st1)) (requestedFlags c) c in
  let rB := replyTo eng (ephePath (wasmEngine m)) (browserFlags c) c in
  let rH := swe_houses eng jd lat lon
              (charCode0 (HouseSystem.value
                            (default HouseSystem.Placidus hs))) in
  (ret rN < 0 ->
   snd (nodeCalculate eng bundled c st) = Throw (JsError.Error (serr rN)))
  /\ (ret rB < 0 ->
      snd (browserCalculate eng alloc c (Browser.mk (Some m) true))
      = Throw (JsError.Error (serr rB)))
  /\ (hret rH < 0 ->
      snd (Node.calculateHouses eng jd lat lon hs st)
      = Throw (JsError.Error "Failed to calculate houses")).
Proof.
  cbv zeta. split; [|split].
  - intros Hneg. apply Z.ltb_lt in Hneg.
    pose proof (nodeCalculate_spec eng bundled c st) as H. cbv zeta in H.
    rewrite H. cbn [snd]. rewrite Hneg. reflexivity.
  - apply browser_throws.
  - apply node_houses_throws.
Qed.

Lemma fst_thrown {S A} (x : S * Outcome A) :
  fst (let '(s, o) := x in (s, thrown o)) = fst x.
Proof. destruct x; reflexivity. Qed.

Lemma fst_mapOutcome {S A B} (f : A -> B) (x : S * Outcome A) :
  fst (let '(s, o) := x in (s, mapOutcome f o)) = fst x.
Proof. destruct x; reflexivity. Qed.

Lemma fresh_second (blocks : gmap Z Z) (p q sz : Z) :
  <[p := sz]> blocks !! q = None -> blocks !! q = None.
Proof. intros H. apply lookup_insert_None in H. tauto. Qed.

(** The blocks in use after a request on a ready object: those before,
    with the request's allocations made and then freed, address by address
    in the same order, on return and on throw alike. *)
Lemma browserServe_blocks (r : Request) (m : WasmModule) :
  exists ps : list (Z * Z),
    liveBlocks (fst (browserServe eng alloc r (Browser.mk (Some m) true)))
    = freeAll (map fst ps) (allocAll ps (live m))
    /\ (allocatorOk alloc -> Forall (fun p => live m !! fst p = None) ps).
Proof.
  destruct r as [ | path | y mo d h cal | jd cal | jd body f | jd la lo hs
                | jd f e b | jd f e b | body];
    unfold browserServe; rewrite fst_thrown;
    unfold Browser.version, Browser.setEphemerisPath, Browser.julianDay,
      Browser.julianDayToDate, Browser.calculatePosition,
      Browser.calculateHouses, Browser.findNextLunarEclipse,
      Browser.findNextSolarEclipse, Browser.getCelestialBodyName,
      Browser.withModule, Browser._checkReady, Browser.usingModule,
      Emscripten.allocateUTF8, Emscripten._malloc, Wasm.swe_version_wrap,
      Wasm.swe_set_ephe_path_wrap, Wasm.swe_julday_wrap,
      Wasm.swe_revjul_wrap, Wasm.swe_calc_ut_wrap, Wasm.swe_houses_wrap,
      Wasm.swe_lun_eclipse_when_wrap, Wasm.swe_sol_eclipse_when_glob_wrap,
      Wasm.swe_get_planet_name_wrap;
    cbn [Browser.ready Browser.module negb live cells wasmEngine];
    cbv zeta.
  - exists []. split; [reflexivity | constructor].
  - set (p := alloc (live m) _).
    exists [(p, Z.of_nat (String.length path) + 1)].
    split; [reflexivity|].
    intros Hok. repeat constructor. apply Hok. lia.
  - exists []. split; [reflexivity | constructor].
  - destruct (swe_revjul eng jd _) as [[[y mo] d] h].
    set (p1 := alloc (live m) 4).
    set (p2 := alloc (<[p1 := 4]> (live m)) 4).
    set (p3 := alloc (<[p2 := 4]> (<[p1 := 4]> (live m))) 4).
    set (p4 := alloc (<[p3 := 4]> (<[p2 := 4]> (<[p1 := 4]> (live m)))) 8).
    exists [(p1, 4); (p2, 4); (p3, 4); (p4, 8)].
    split; [reflexivity|].
    intros Hok. repeat constructor; cbn [fst].
    + apply Hok. lia.
    + eapply fresh_second. apply Hok. lia.
    + do 2 eapply fresh_second. apply Hok. lia.
    + do 3 eapply fresh_second. apply Hok. lia.
  - set (p1 := alloc (live m) (6 * 8)).
    set (p2 := alloc (<[p1 := 6 * 8]> (live m)) 256).
    exists [(p1, 6 * 8); (p2, 256)].
    split.
    + destruct (ret _ <? 0); cbn [fst liveBlocks Browser.module];
        unfold Emscripten._free, store, withEngine; cbn [live];
        rewrite storeDoubles_live; reflexivity.
    + intros Hok. repeat constructor; cbn [fst].
      * apply Hok. lia.
      * eapply fresh_second. apply Hok. lia.
  - set (p1 := alloc (live m) (13 * 8)).
    set (p2 := alloc (<[p1 := 13 * 8]> (live m)) (10 * 8)).
    exists [(p1, 13 * 8); (p2, 10 * 8)].
    split.
    + cbn [fst liveBlocks Browser.module].
      unfold Emscripten._free, withEngine; cbn [live].
      rewrite !storeDoubles_live. reflexivity.
    + intros Hok. repeat constructor; cbn [fst].
      * apply Hok. lia.
      * eapply fresh_second. apply Hok. lia.
  - set (p1 := alloc (live m) (10 * 8)).
    set (p2 := alloc (<[p1 := 10 * 8]> (live m)) 256).
    exists [(p1, 10 * 8); (p2, 256)].
    split.
    + destruct (ret _ <? 0); cbn [fst liveBlocks Browser.module];
        unfold Emscripten._free, store, withEngine; cbn [live];
        rewrite storeDoubles_live; reflexivity.
    + intros Hok. repeat constructor; cbn [fst].
      * apply Hok. lia.
      * eapply fresh_second. apply Hok. lia.
  - set (p1 := alloc (live m) (10 * 8)).
    set (p2 := alloc (<[p1 := 10 * 8]> (live m)) 256).
    exists [(p1, 10 * 8); (p2, 256)].
    split.
    + destruct (ret _ <? 0); cbn [fst liveBlocks Browser.module];
        unfold Emscripten._free, store, withEngine; cbn [live];
        rewrite storeDoubles_live; reflexivity.
    + intros Hok. repeat constructor; cbn [fst].
      * apply Hok. lia.
      * eapply fresh_second. apply Hok. lia.
  - exists []. split; [reflexivity | constructor].
Qed.

(** A request on an object that is not ready, or has no module, changes
    nothing. *)
Lemma browserServe_idle (r : Request) (this : Browser.t) :
  Browser.ready this = false \/ Browser.module this = None ->
  fst (browserServe eng alloc r this) = this.
Proof.
  destruct this as [[m|] [|]]; cbn [Browser.ready Browser.module];
    intros [H|H]; try discriminate; destruct r; reflexivity.
Qed.

Lemma browserServe_subseteq (r : Request) (this : Browser.t) :
  liveBlocks (fst (browserServe eng alloc r this)) ⊆ liveBlocks this.
Proof.
  destruct this as [[m|] [|]];
    try (rewrite browserServe_idle by (cbn; tauto); reflexivity).
  destruct (browserServe_blocks r m) as (ps & -> & _).
  apply freeAll_allocAll_subseteq.
Qed.

Lemma browserServe_live (r : Request) (this : Browser.t) :
  allocatorOk alloc ->
  liveBlocks (fst (browserServe eng alloc r this)) = liveBlocks this.
Proof.
  intros Hok.
  destruct this as [[m|] [|]];
    try (rewrite browserServe_idle by (cbn; tauto); reflexivity).
  destruct (browserServe_blocks r m) as (ps & -> & Hfresh).
  apply freeAll_allocAll, Hfresh, Hok.
Qed.

(** The request that a file calculation is. *)
Lemma browserCalculate_serve (c : FileCalculation) (this : Browser.t) :
  fst (browserCalculate eng alloc c this)
  = fst (browserServe eng alloc
           match c with
           | Position jd b f => ReqCalculatePosition jd b f
           | LunarEclipse jd f e b => ReqFindNextLunarEclipse jd f e b
           | SolarEclipse jd f e b => ReqFindNextSolarEclipse jd f e b
           end this).
Proof.
  destruct c; unfold browserCalculate, browserServe;
    rewrite fst_thrown, fst_mapOutcome; reflexivity.
Qed.

(** C6.  In the bytecode-module gateway every operation ends, by return or
    by throw, with no block in use that was not in use before it, and so
    does any run of operations, failing ones included; with an allocator
    that hands out blocks not in use, the blocks in use afterwards are
    exactly those before.  A file calculation the engine rejects throws
    the engine's text with both of its buffers already freed. *)
Theorem allocations_balanced (rs : list Request) (this : Browser.t) :
  ((forall r, liveBlocks (fst (browserServe eng alloc r this))
              ⊆ liveBlocks this)
   /\ liveBlocks (browserServeAll eng alloc rs this) ⊆ liveBlocks this)
  /\ (allocatorOk alloc ->
      (forall r, liveBlocks (fst (browserServe eng alloc r this))
                 = liveBlocks this)
      /\ liveBlocks (browserServeAll eng alloc rs this) = liveBlocks this)
  /\ (forall (c : FileCalculation) (m : WasmModule),
        let after := browserCalculate eng alloc c (Browser.mk (Some m) true) in
        let r := replyTo eng (ephePath (wasmEngine m)) (browserFlags c) c in
        ret r < 0 ->
        snd after = Throw (JsError.Error (serr r))
        /\ liveBlocks (fst after) ⊆ live m
        /\ (allocatorOk alloc -> liveBlocks (fst after) = live m)).
Proof.
  split; [split|split].
  - intros r. apply browserServe_subseteq.
  - unfold browserServeAll. revert this.
    induction rs as [|r rs IH]; intros this; simpl; [reflexivity|].
    etransitivity; [apply IH | apply browserServe_subseteq].
  - intros Hok. split; [intros r; apply browserServe_live, Hok|].
    unfold browserServeAll. revert this.
    induction rs as [|r rs IH]; intros this; simpl; [reflexivity|].
    rewrite IH. apply browserServe_live, Hok.
  - cbv zeta. intros c m Hneg. split; [apply browser_throws, Hneg|].
    rewrite browserCalculate_serve. split.
    + apply (browserServe_subseteq _ (Browser.mk (Some m) true)).
    + intros Hok. apply (browserServe_live _ (Browser.mk (Some m) true) Hok).
Qed.

Hypothesis alloc_ok : allocatorOk alloc.

(** The pattern of the three file calculations: a data buffer of [n]
    doubles and a 256-byte text buffer are allocated, the engine fills
    both, and both are freed.  The text and the doubles read back are the
    engine's, and the block table ends as it began. *)
Lemma two_buffer_call (m : WasmModule) (sz : Z) (n : nat)
    (es : EngineState) (r : EngineReply) :
  let p1 := alloc (live m) sz in
  let p2 := alloc (<[p1 := sz]> (live m)) 256 in
  let m2 := {| live := <[p2 := 256]> (<[p1 := sz]> (live m));
               cells := cells m;
               wasmEngine := wasmEngine m |} in
  let m3 := store p2 (CellStr (serr r))
              (storeDoubles p1 (slots n (buf r)) (withEngine es m2)) in
  let m5 := Emscripten._free p2 (Emscripten._free p1 m3) in
  0 < sz -> 8 * Z.of_nat n <= sz ->
  Emscripten.UTF8ToString p2 m3 = serr r
  /\ Browser.readDoubles p1 n m3 = slots n (buf r)
  /\ live m5 = live m
  /\ wasmEngine m5 = es.
Proof.
  intros p1 p2 m2 m3 m5 Hsz Hn.
  assert (Hp1 : live m !! p1 = None) by (apply alloc_fresh; assumption).
  assert (Hp2 : <[p1 := sz]> (live m) !! p2 = None)
    by (apply alloc_fresh; [assumption | lia]).
  split; [|split; [|split]].
  - unfold Emscripten.UTF8ToString. subst m3. unfold store. cbn [cells].
    rewrite lookup_insert_eq. reflexivity.
  - apply readDoubles_stored. intros i Hi.
    subst m3. unfold store. cbn [cells].
    rewrite lookup_insert_ne.
    + apply storeDoubles_at. rewrite slots_length. exact Hi.
    + subst p2. apply alloc_outside; [assumption | lia | lia].
  - subst m5 m3 m2. unfold Emscripten._free, store, withEngine.
    cbn [live]. rewrite storeDoubles_live. cbn [live].
    apply free_two; assumption.
  - subst m5 m3 m2. unfold Emscripten._free, store, withEngine.
    cbn [wasmEngine]. rewrite storeDoubles_engine. reflexivity.
Qed.

Lemma browser_position_spec jd body f (m : WasmModule) :
  let c := Position jd body f in
  let r := replyTo eng (ephePath (wasmEngine m)) (browserFlags c) c in
  exists m',
    browserCalculate eng alloc c (Browser.mk (Some m) true)
    = (Browser.mk (Some m') true,
       if ret r <? 0 then Throw (JsError.Error (serr r))
       else Return (recordOf c r))
    /\ live m' = live m
    /\ wasmEngine m'
       = logCall (engineCallWith (browserFlags c) c) (wasmEngine m).
Proof.
  cbv zeta.
  unfold browserCalculate, Browser.calculatePosition, Browser.withModule,
    Browser._checkReady,
    Browser.usingModule, Emscripten._malloc, Wasm.swe_calc_ut_wrap,
    replyTo, browserFlags, engineCallWith, recordOf.
  cbn [Browser.ready Browser.module negb live cells wasmEngine].
  cbv zeta.
  set (r := swe_calc_ut eng _ _ _ _).
  set (call := CCalcUt _ _ _).
  destruct (two_buffer_call m (6 * 8) 6 (logCall call (wasmEngine m)) r
              ltac:(lia) ltac:(lia)) as (Htext & Hread & Hlive & Heng).
  cbv zeta in Htext, Hread, Hlive, Heng.
  destruct (ret r <? 0).
  - eexists. split; [|split; [exact Hlive | exact Heng]].
    cbn [mapOutcome]. rewrite Htext. reflexivity.
  - eexists. split; [|split; [exact Hlive | exact Heng]].
    rewrite Hread. reflexivity.
Qed.

Lemma browser_lunar_spec jd f e b (m : WasmModule) :
  let c := LunarEclipse jd f e b in
  let r := replyTo eng (ephePath (wasmEngine m)) (browserFlags c) c in
  exists m',
    browserCalculate eng alloc c (Browser.mk (Some m) true)
    = (Browser.mk (Some m') true,
       if ret r <? 0 then Throw (JsError.Error (serr r))
       else Return (recordOf c r))
    /\ live m' = live m
    /\ wasmEngine m'
       = logCall (engineCallWith (browserFlags c) c) (wasmEngine m).
Proof.
  cbv zeta.
  unfold browserCalculate, Browser.findNextLunarEclipse, Browser.withModule,
    Browser._checkReady, Browser.usingModule, Emscripten._malloc,
    Wasm.swe_lun_eclipse_when_wrap, replyTo, browserFlags, engineCallWith,
    recordOf.
  cbn [Browser.ready Browser.module negb live cells wasmEngine].
  cbv zeta. rewrite toInt32_backward.
  set (r := swe_lun_eclipse_when eng _ _ _ _ _).
  set (call := CLunEclipseWhen _ _ _ _).
  destruct (two_buffer_call m (10 * 8) 10 (logCall call (wasmEngine m)) r
              ltac:(lia) ltac:(lia)) as (Htext & Hread & Hlive & Heng).
  cbv zeta in Htext, Hread, Hlive, Heng.
  destruct (ret r <? 0).
  - eexists. split; [|split; [exact Hlive | exact Heng]].
    cbn [mapOutcome]. rewrite Htext. reflexivity.
  - eexists. split; [|split; [exact Hlive | exact Heng]].
    rewrite Hread. reflexivity.
Qed.

Lemma browser_solar_spec jd f e b (m : WasmModule) :
  let c := SolarEclipse jd f e b in
  let r := replyTo eng (ephePath (wasmEngine m)) (browserFlags c) c in
  exists m',
    browserCalculate eng alloc c (Browser.mk (Some m) true)
    = (Browser.mk (Some m') true,
       if ret r <? 0 then Throw (JsError.Error (serr r))
       else Return (recordOf c r))
    /\ live m' = live m
    /\ wasmEngine m'
       = logCall (engineCallWith (browserFlags c) c) (wasmEngine m).
Proof.
  cbv zeta.
  unfold browserCalculate, Browser.findNextSolarEclipse, Browser.withModule,
    Browser._checkReady, Browser.usingModule, Emscripten._malloc,
    Wasm.swe_sol_eclipse_when_glob_wrap, replyTo, browserFlags,
    engineCallWith, recordOf.
  cbn [Browser.ready Browser.module negb live cells wasmEngine].
  cbv zeta. rewrite toInt32_backward.
  set (r := swe_sol_eclipse_when_glob eng _ _ _ _ _).
  set (call := CSolEclipseWhenGlob _ _ _ _).
  destruct (two_buffer_call m (10 * 8) 10 (logCall call (wasmEngine m)) r
              ltac:(lia) ltac:(lia)) as (Htext & Hread & Hlive & Heng).
  cbv zeta in Htext, Hread, Hlive, Heng.
  destruct (ret r <? 0).
  - eexists. split; [|split; [exact Hlive | exact Heng]].
    cbn [mapOutcome]. rewrite Htext. reflexivity.
  - eexists. split; [|split; [exact Hlive | exact Heng]].
    rewrite Hread. reflexivity.
Qed.

(** A file calculation of the bytecode-module gateway on a ready object:
    one engine call, the reply turned into an error or into the record,
    and the block table as it was. *)
Lemma browserCalculate_spec (c : FileCalculation) (m : WasmModule) :
  let r := replyTo eng (ephePath (wasmEngine m)) (browserFlags c) c in
  exists m',
    browserCalculate eng alloc c (Browser.mk (Some m) true)
    = (Browser.mk (Some m') true,
       if ret r <? 0 then Throw (JsError.Error (serr r))
       else Return (recordOf c r))
    /\ live m' = live m
    /\ wasmEngine m'
       = logCall (engineCallWith (browserFlags c) c) (wasmEngine m).
Proof.
  destruct c as [jd body f | jd f e b | jd f e b].
  - apply browser_position_spec.
  - apply browser_lunar_spec.
  - apply browser_solar_spec.
Qed.

Lemma houseSystem_code_int32 (h : HouseSystem.t) :
  JS.toInt32 (charCode0 (HouseSystem.value h))
  = charCode0 (HouseSystem.value h).
Proof. destruct h; reflexivity. Qed.

Lemma calendarType_int32 (c : CalendarType.t) :
  JS.toInt32 (CalendarType.value c) = CalendarType.value c.
Proof. destruct c; reflexivity. Qed.

(** Houses in the bytecode-module gateway: the two buffers are read back
    whole and the record is built, whatever code the engine returned. *)
Lemma browser_houses_spec jd lat lon hs (m : WasmModule) :
  let h := default HouseSystem.Placidus hs in
  let code := charCode0 (HouseSystem.value h) in
  let r := swe_houses eng jd lat lon code in
  let ascmc := slots 10 (hascmc r) in
  exists m',
    Browser.calculateHouses eng alloc jd lat lon hs
      (Browser.mk (Some m) true)
    = (Browser.mk (Some m') true,
       Return {| cusps := slots 13 (hcusps r);
                 ascendant := at_ ascmc HousePoint.Ascendant;
                 mc := at_ ascmc HousePoint.MC;
                 armc := at_ ascmc HousePoint.ARMC;
                 vertex := at_ ascmc HousePoint.Vertex;
                 equatorialAscendant :=
                   at_ ascmc HousePoint.EquatorialAscendant;
                 coAscendant1 := at_ ascmc HousePoint.CoAscendant1;
                 coAscendant2 := at_ ascmc HousePoint.CoAscendant2;
                 polarAscendant := at_ ascmc HousePoint.PolarAscendant;
                 houseSystem := h |})
    /\ live m' = live m
    /\ wasmEngine m' = logCall (CHouses jd lat lon code) (wasmEngine m).
Proof.
  cbv zeta.
  unfold Browser.calculateHouses, Browser.withModule, Browser._checkReady,
    Browser.usingModule, Emscripten._malloc, Wasm.swe_houses_wrap.
  cbn [Browser.ready Browser.module negb live cells wasmEngine].
  cbv zeta. rewrite houseSystem_code_int32.
  set (r := swe_houses eng _ _ _ _).
  set (p1 := alloc (live m) (13 * 8)).
  set (p2 := alloc (<[p1 := 13 * 8]> (live m)) (10 * 8)).
  assert (Hp1 : live m !! p1 = None) by (apply alloc_fresh; [assumption|lia]).
  assert (Hp2 : <[p1 := 13 * 8]> (live m) !! p2 = None)
    by (apply alloc_fresh; [assumption|lia]).
  eexists. split; [|split].
  - f_equal. f_equal. rewrite (readDoubles_stored p2 10 (hascmc r)).
    + rewrite (readDoubles_stored p1 13 (hcusps r)); [reflexivity|].
      intros i Hi. rewrite storeDoubles_other.
      * apply storeDoubles_at. rewrite slots_length. exact Hi.
      * intros j Hj. rewrite slots_length in Hj.
        pose proof (alloc_apart alloc alloc_ok (live m) (13 * 8) (10 * 8)
                      (8 * Z.of_nat i) (8 * Z.of_nat j)
                      ltac:(lia) ltac:(lia) ltac:(lia) ltac:(lia)) as Hne.
        fold p1 in Hne. fold p2 in Hne. lia.
    + intros i Hi. apply storeDoubles_at. rewrite slots_length. exact Hi.
  - unfold Emscripten._free. cbn [live].
    rewrite !storeDoubles_live. unfold withEngine. cbn [live].
    apply free_two; assumption.
  - unfold Emscripten._free. cbn [wasmEngine].
    rewrite !storeDoubles_engine. reflexivity.
Qed.

(** Day count to date in the bytecode-module gateway: four cells are
    allocated, filled by the engine, read back and freed. *)
Lemma browser_revjul_spec jd cal (m : WasmModule) :
  let c := default CalendarType.Gregorian cal in
  let g := CalendarType.value c in
  exists m',
    Browser.julianDayToDate eng alloc jd cal (Browser.mk (Some m) true)
    = (Browser.mk (Some m') true,
       Return (let '(y, mo, d, h) := swe_revjul eng jd g in
               DateTimeImpl.mk y mo d h c))
    /\ live m' = live m
    /\ wasmEngine m' = logCall (CRevjul jd g) (wasmEngine m).
Proof.
  cbv zeta.
  unfold Browser.julianDayToDate, Browser.withModule, Browser._checkReady,
    Browser.usingModule, Emscripten._malloc, Wasm.swe_revjul_wrap.
  cbn [Browser.ready Browser.module negb live cells wasmEngine].
  cbv zeta. rewrite calendarType_int32.
  destruct (swe_revjul eng jd _) as [[[y mo] d] h].
  set (p1 := alloc (live m) 4).
  set (p2 := alloc (<[p1 := 4]> (live m)) 4).
  set (p3 := alloc (<[p2 := 4]> (<[p1 := 4]> (live m))) 4).
  set (p4 := alloc (<[p3 := 4]> (<[p2 := 4]> (<[p1 := 4]> (live m)))) 8).
  assert (H1 : live m !! p1 = None) by (apply alloc_fresh; [assumption|lia]).
  assert (H2 : <[p1 := 4]> (live m) !! p2 = None)
    by (apply alloc_fresh; [assumption|lia]).
  assert (H3 : <[p2 := 4]> (<[p1 := 4]> (live m)) !! p3 = None)
    by (apply alloc_fresh; [assumption|lia]).
  assert (H4 : <[p3 := 4]> (<[p2 := 4]> (<[p1 := 4]> (live m))) !! p4 = None)
    by (apply alloc_fresh; [assumption|lia]).
  apply lookup_insert_None in H2 as [H2 N21].
  apply lookup_insert_None in H3 as [H3 N32].
  apply lookup_insert_None in H3 as [H3 N31].
  apply lookup_insert_None in H4 as [H4 N43].
  apply lookup_insert_None in H4 as [H4 N42].
  apply lookup_insert_None in H4 as [H4 N41].
  eexists. split; [|split].
  - unfold Emscripten.getValue_i32, Emscripten.getValue_double, store.
    cbn [cells].
    rewrite !lookup_insert. repeat case_decide; try congruence.
    reflexivity.
  - unfold Emscripten._free, store, withEngine. cbn [live].
    apply map_eq. intros i.
    rewrite !lookup_delete, !lookup_insert.
    repeat case_decide; subst; congruence.
  - unfold Emscripten._free, store, withEngine. cbn [wasmEngine].
    reflexivity.
Qed.

(** Configuring a directory in the bytecode-module gateway: the text is
    copied into a fresh block, handed to the engine, and the block freed. *)
Lemma browser_setPath_spec path (m : WasmModule) :
  exists m',
    Browser.setEphemerisPath alloc path (Browser.mk (Some m) true)
    = (Browser.mk (Some m') true, Return tt)
    /\ live m' = live m
    /\ wasmEngine m' = configurePath path (wasmEngine m).
Proof.
  unfold Browser.setEphemerisPath, Browser.withModule, Browser._checkReady,
    Browser.usingModule, Emscripten.allocateUTF8, Emscripten._malloc,
    Wasm.swe_set_ephe_path_wrap, store.
  cbn [Browser.ready Browser.module negb live cells wasmEngine].
  cbv zeta.
  eexists. split; [reflexivity|]. split.
  - unfold Emscripten._free, withEngine. cbn [live].
    apply delete_insert_id, alloc_fresh; [assumption|lia].
  - unfold Emscripten._free, withEngine. cbn [wasmEngine cells].
    rewrite lookup_insert_eq. reflexivity.
Qed.

Lemma flagsGiven_same_flags (c : FileCalculation) :
  flagsGiven c = true -> requestedFlags c = browserFlags c.
Proof.
  destruct c as [jd body [f|] | jd [f|] e b | jd [f|] e b];
    simpl; intros H; try discriminate; reflexivity.
Qed.

(** C9, as the code has it.  When the caller passes the flags, the two
    gateways hand the engine the same call with the same integers, and
    from the same engine reply they produce the same outcome, record or
    error.  The date conversions, with or without the calendar argument,
    and the name lookup agree as well; so do the houses, with or without
    the house system, when the engine's code is not negative. *)
Theorem gateways_agree_on_explicit_flags
  (c : FileCalculation) (st : Node.t) (m : WasmModule) :
  let this := Browser.mk (Some m) true in
  let st1 := Node.ensureEphemerisInitialized bundled (requestedFlags c) st in
  flagsGiven c = true ->
  (calls (Node.engine (fst (nodeCalculate eng bundled c st)))
   = calls (Node.engine st1) ++ [engineCallWith (requestedFlags c) c]
   /\ browserCalls (fst (browserCalculate eng alloc c this))
      = calls (wasmEngine m) ++ [engineCallWith (requestedFlags c) c]
   /\ (replyTo eng (ephePath (Node.engine st1)) (requestedFlags c) c
       = replyTo eng (ephePath (wasmEngine m)) (requestedFlags c) c ->
       snd (nodeCalculate eng bundled c st)
       = snd (browserCalculate eng alloc c this)))
  /\ (forall year month day hour calendarType,
        snd (Browser.julianDay eng year month day hour calendarType this)
        = Return (snd (Node.julianDay eng year month day hour calendarType
                         st)))
  /\ (forall jd calendarType,
        snd (Browser.julianDayToDate eng alloc jd calendarType this)
        = Return (snd (Node.julianDayToDate eng jd calendarType st)))
  /\ (forall jd latitude longitude houseSystem,
        0 <= hret (swe_houses eng jd latitude longitude
                     (charCode0
                        (HouseSystem.value
                           (default HouseSystem.Placidus houseSystem)))) ->
        snd (Browser.calculateHouses eng alloc jd latitude longitude
               houseSystem this)
        = snd (Node.calculateHouses eng jd latitude longitude houseSystem
                 st))
  /\ (forall body,
        ephePath (Node.engine st) = ephePath (wasmEngine m) ->
        snd (Browser.getCelestialBodyName eng body this)
        = Return (snd (Node.getCelestialBodyName eng body st))).
Proof.
  cbv zeta. intros Hgiven.
  pose proof (flagsGiven_same_flags c Hgiven) as Hflags.
  split; [|split; [|split; [|split]]].
  - pose proof (nodeCalculate_spec eng bundled c st) as HN. cbv zeta in HN.
    destruct (browserCalculate_spec c m) as (m' & HB & _ & He).
    cbv zeta in HB. rewrite HN, HB. cbn [fst snd].
    rewrite <- Hflags in *. unfold browserCalls. cbn [Browser.module].
    rewrite He. unfold logCall, engineCallOf. cbn [calls].
    repeat split.
    intros Hreply. rewrite Hreply. reflexivity.
  - intros y mo d h cal.
    unfold Browser.julianDay, Node.julianDay, Browser.withModule,
      Browser._checkReady, Browser.usingModule, Wasm.swe_julday_wrap,
      Binding.julday.
    cbn [Browser.ready Browser.module negb]. cbv zeta.
    cbn [fst snd]. reflexivity.
  - intros jd cal.
    destruct (browser_revjul_spec jd cal m) as (m' & -> & _ & _).
    unfold Node.julianDayToDate, Binding.revjul. cbv zeta.
    rewrite calendarType_int32. cbn [fst snd].
    destruct (swe_revjul eng jd _) as [[[y mo] d] h]. reflexivity.
  - intros jd la lo hs Hok.
    destruct (browser_houses_spec jd la lo hs m) as (m' & -> & _ & _).
    unfold Node.calculateHouses, Binding.houses. cbv zeta.
    apply Z.ltb_ge in Hok. rewrite Hok. reflexivity.
  - intros body Hpath.
    unfold Browser.getCelestialBodyName, Node.getCelestialBodyName,
      Browser.withModule, Browser._checkReady, Browser.usingModule,
      Wasm.swe_get_planet_name_wrap, Binding.get_planet_name.
    cbn [Browser.ready Browser.module negb]. cbv zeta.
    cbn [fst snd]. rewrite Hpath. reflexivity.
Qed.

End Gateways.
(** ** A concrete allocator, and the worked examples *)

Lemma topOfHeap_bound (blocks : gmap Z Z) :
  forall q sz, blocks !! q = Some sz -> q + Z.max sz 0 <= topOfHeap blocks.
Proof.
  unfold topOfHeap.
  apply (map_fold_weak_ind
           (fun r (m : gmap Z Z) =>
              forall q sz, m !! q = Some sz -> q + Z.max sz 0 <= r)).
  - intros q sz H. rewrite lookup_empty in H. discriminate.
  - intros i x m r Hi IH q sz H.
    apply lookup_insert_Some in H as [[<- <-] | [Hne H]].
    + lia.
    + specialize (IH q sz H). lia.
Qed.

Lemma topAlloc_ok : allocatorOk topAlloc.
Proof.
  intros blocks n Hn. unfold topAlloc. split.
  - destruct (blocks !! (topOfHeap blocks + 8)) as [sz|] eqn:E;
      [|reflexivity].
    apply topOfHeap_bound in E. lia.
  - intros q sz H. apply topOfHeap_bound in H. lia.
Qed.

(** The Sun through the bytecode-module gateway with its default flags:
    the six doubles are read back from the heap, the returned flags are the
    engine's code, and the heap is left empty. *)
Example browser_position_sun :
  let '(this, outcome) :=
    Browser.calculatePosition sampleEngine topAlloc 2454162.5 0 None
      readyBrowser in
  outcome = Return {| longitude := 342.25; latitude := 0.5;
                      distance := 0.875; longitudeSpeed := 1;
                      latitudeSpeed := 0; distanceSpeed := 0;
                      flags := 260 |}
  /\ liveBlocks this = ∅
  /\ browserCalls this = [CCalcUt 2454162.5 0 260].
Proof. vm_compute. repeat split; reflexivity. Qed.

(** A total lunar eclipse found through the native gateway, and its
    derived values. *)
Example node_lunar_eclipse :
  match snd (Node.findNextLunarEclipse sampleEngine sampleBundledPath
               2454100.5 None None None Node.initial) with
  | Return e =>
      LunarEclipseImpl.isTotal e = true
      /\ LunarEclipseImpl.isPenumbralOnly e = false
      /\ LunarEclipseImpl.getTotalityDuration e = 3%float
      /\ LunarEclipseImpl.getPartialDuration e = 6%float
      /\ LunarEclipseImpl.getTotalDuration e = 12%float
  | Throw _ => False
  end.
Proof. vm_compute. repeat split; reflexivity. Qed.

(** A rejected body id in both gateways, and houses beyond the polar
    circle in the native one. *)
Lemma computation_failure_surfaces_message_witness :
  let c := Position 2454162.5 (-1) None in
  ret (replyTo sampleEngine (Some sampleBundledPath) (requestedFlags c) c) < 0
  /\ snd (nodeCalculate sampleEngine sampleBundledPath c Node.initial)
     = Throw (JsError.Error "illegal planet number")
  /\ snd (browserCalculate sampleEngine topAlloc c readyBrowser)
     = Throw (JsError.Error "illegal planet number")
  /\ snd (Node.calculateHouses sampleEngine 2454162.5 70 10 None Node.initial)
     = Throw (JsError.Error "Failed to calculate houses").
Proof.
  cbv zeta.
  destruct (computation_failure_surfaces_message sampleEngine
              sampleBundledPath topAlloc (Position 2454162.5 (-1) None)
              Node.initial freshModule 2454162.5 70 10 None)
    as (H1 & H2 & H3).
  split; [reflexivity|].
  split; [apply H1; reflexivity|].
  split; [apply H2; reflexivity | apply H3; reflexivity].
Defined.

(** C5 as stated fails.  For houses the engine has no message to give: on
    its negative code the native gateway throws a fixed text of its own.
    And an error is its message only: a position request and a lunar
    eclipse search that the engine rejects with the same text throw equal
    errors, in which nothing names the operation. *)
Lemma failure_message_not_always_engine_text :
  let st := Node.initial in
  let position := Position 2454162.5 (-1) None in
  let lunar :=
    LunarEclipse 2454162.5 (Some (FlagNamed CalculationFlag.JPLEphemeris))
      None None in
  (hret (swe_houses sampleEngine 2454162.5 70 10 (charCode0 "P")) = -1
   /\ snd (Node.calculateHouses sampleEngine 2454162.5 70 10 None st)
      = Throw (JsError.Error "Failed to calculate houses"))
  /\ (snd (nodeCalculate sampleEngine sampleBundledPath position st)
      = Throw (JsError.mk "Error" "illegal planet number")
      /\ snd (nodeCalculate sampleEngine sampleBundledPath lunar st)
         = Throw (JsError.mk "Error" "illegal planet number")).
Proof. repeat split; vm_compute; reflexivity. Qed.

(** Three rejected position requests in a row on a fresh object: every one
    throws, and no block is left in use. *)
Lemma allocations_balanced_witness :
  let failing := ReqCalculatePosition 2454162.5 (-1) None in
  allocatorOk topAlloc
  /\ snd (browserServe sampleEngine topAlloc failing readyBrowser)
     = Some (JsError.Error "illegal planet number")
  /\ liveBlocks
       (browserServeAll sampleEngine topAlloc [failing; failing; failing]
          readyBrowser)
     = ∅.
Proof.
  cbv zeta. split; [exact topAlloc_ok|]. split; [reflexivity|].
  destruct (allocations_balanced sampleEngine topAlloc
              [ReqCalculatePosition 2454162.5 (-1) None;
               ReqCalculatePosition 2454162.5 (-1) None;
               ReqCalculatePosition 2454162.5 (-1) None] readyBrowser)
    as (_ & H & _).
  apply H, topAlloc_ok.
Defined.

(** The Sun with the Swiss Ephemeris flag passed to both gateways. *)
Lemma gateways_agree_on_explicit_flags_witness :
  let c := Position 2454162.5 0
             (Some (FlagNamed CalculationFlag.SwissEphemeris)) in
  allocatorOk topAlloc
  /\ flagsGiven c = true
  /\ snd (nodeCalculate sampleEngine sampleBundledPath c Node.initial)
     = snd (browserCalculate sampleEngine topAlloc c readyBrowser)
  /\ browserCalls (fst (browserCalculate sampleEngine topAlloc c readyBrowser))
     = [CCalcUt 2454162.5 0 2].
Proof.
  cbv zeta. split; [exact topAlloc_ok|]. split; [reflexivity|].
  destruct (gateways_agree_on_explicit_flags sampleEngine sampleBundledPath
              topAlloc topAlloc_ok
              (Position 2454162.5 0
                 (Some (FlagNamed CalculationFlag.SwissEphemeris)))
              Node.initial freshModule eq_refl)
    as ((_ & Hcalls & Hsame) & _).
  split; [apply Hsame; reflexivity | exact Hcalls].
Defined.

(** C9 as stated fails when the flags are left out: the native gateway
    asks the engine for the Sun with flags 258 (Swiss Ephemeris, speed) and
    the bytecode-module gateway with 260 (Moshier, speed); for an eclipse
    search they pass 2 and 4. *)
Lemma default_flags_differ :
  let position := Position 2454162.5 0 None in
  let lunar := LunarEclipse 2454162.5 None None None in
  (calls (Node.engine
            (fst (nodeCalculate sampleEngine sampleBundledPath position
                    Node.initial)))
   = [CSetEphePath sampleBundledPath; CCalcUt 2454162.5 0 258]
   /\ browserCalls
        (fst (browserCalculate sampleEngine topAlloc position readyBrowser))
      = [CCalcUt 2454162.5 0 260])
  /\ (calls (Node.engine
               (fst (nodeCalculate sampleEngine sampleBundledPath lunar
                       Node.initial)))
      = [CSetEphePath sampleBundledPath; CLunEclipseWhen 2454162.5 2 0 0]
      /\ browserCalls
           (fst (browserCalculate sampleEngine topAlloc lunar readyBrowser))
         = [CLunEclipseWhen 2454162.5 4 0 0]).
Proof. repeat split; vm_compute; reflexivity. Qed.

(** A divergence the statements above leave aside: on a negative code from the houses entry
    point the native gateway throws, and the bytecode-module gateway, which
    does not look at the code, returns the record. *)
Remark browser_houses_ignores_code :
  hret (swe_houses sampleEngine 2454162.5 70 10 (charCode0 "P")) = -1
  /\ thrown (snd (Node.calculateHouses sampleEngine 2454162.5 70 10 None
                    Node.initial))
     = Some (JsError.Error "Failed to calculate houses")
  /\ thrown (snd (Browser.calculateHouses sampleEngine topAlloc 2454162.5 70
                    10 None readyBrowser))
     = None.
Proof. repeat split; vm_compute; reflexivity. Qed.
(** * Further properties *)

(** ** The flag builders as sets of options *)

(** Bit [i] of an OR-fold is set when it is set in the start value or in
    one of the operands. *)
Lemma fold_bor_testbit (fs : list Z) : forall s i,
  0 <= i -> JS.toInt32 s = s ->
  Z.testbit (fold_left JS.bor fs s) i
  = Z.testbit s i || existsb (fun f => Z.testbit (JS.toInt32 f) i) fs.
Proof.
  induction fs as [|f fs IH]; intros s i Hi Hs; simpl.
  - rewrite orb_false_r. reflexivity.
  - rewrite IH by (try apply bor_int32; lia).
    unfold JS.bor. rewrite Z.lor_spec, Hs, orb_assoc. reflexivity.
Qed.

Lemma fold_band_bnot_testbit (fs : list Z) : forall s i,
  0 <= i -> JS.toInt32 s = s ->
  Z.testbit (fold_left (fun s f => JS.band s (JS.bnot f)) fs s) i
  = Z.testbit s i && negb (existsb (fun f => Z.testbit (JS.toInt32 f) i) fs).
Proof.
  induction fs as [|f fs IH]; intros s i Hi Hs; simpl.
  - rewrite andb_true_r. reflexivity.
  - rewrite IH by (try apply band_int32; lia).
    unfold JS.band. rewrite bnot_int32. unfold JS.bnot.
    rewrite Z.land_spec, Z.lnot_spec, Hs, negb_orb, andb_assoc by lia.
    reflexivity.
Qed.

Lemma remove_many_flags fs b :
  CalculationFlags.flags (CalculationFlags.remove (Many fs) b)
  = fold_left (fun s f => JS.band s (JS.bnot f)) fs (CalculationFlags.flags b).
Proof.
  simpl. revert b. induction fs as [|f fs IH]; intros b; simpl.
  - reflexivity.
  - rewrite IH. reflexivity.
Qed.

Lemma existsb_same_elements {A} (p : A -> bool) (l l' : list A) :
  (forall x, In x l <-> In x l') -> existsb p l = existsb p l'.
Proof.
  intros H. apply eq_true_iff_eq. rewrite !existsb_exists.
  split; intros (x & Hin & Hp); exists x; split; try assumption; apply H;
    assumption.
Qed.

(** X1.  The integer of an array of flags (any numbers), and of a builder
    made from it, does not depend on the order of the elements nor on
    their repetition: two arrays with the same elements normalise to the
    same integer. *)
Theorem normalizeFlags_same_elements (fs fs' : list Z) :
  (forall x, In x fs <-> In x fs') ->
  normalizeFlags (FlagArray fs) = normalizeFlags (FlagArray fs')
  /\ CalculationFlags.toNumber
       (fold_left (fun b f => CalculationFlags.add (One f) b) fs
          (CalculationFlags.new None))
     = CalculationFlags.toNumber
         (fold_left (fun b f => CalculationFlags.add (One f) b) fs'
            (CalculationFlags.new None)).
Proof.
  intros Hsame.
  assert (H : normalizeFlags (FlagArray fs) = normalizeFlags (FlagArray fs')).
  { unfold normalizeFlags, CalculationFlags.toNumber, CalculationFlags.from,
      CalculationFlags.new.
    rewrite !add_many_flags. cbn [CalculationFlags.flags].
    apply Z.bits_inj'. intros i Hi.
    rewrite !fold_bor_testbit by (try reflexivity; lia).
    f_equal. apply existsb_same_elements, Hsame. }
  split; [exact H|]. rewrite !add_one_by_one. exact H.
Qed.

Lemma normalizeFlags_same_elements_witness :
  (forall x, In x [2; 256; 2; 2048] <-> In x [2048; 256; 2])
  /\ normalizeFlags (FlagArray [2; 256; 2; 2048])
     = normalizeFlags (FlagArray [2048; 256; 2]).
Proof.
  assert (H : forall x, In x [2; 256; 2; 2048] <-> In x [2048; 256; 2])
    by (intros x; simpl; tauto).
  split; [exact H|].
  apply (normalizeFlags_same_elements [2; 256; 2; 2048] [2048; 256; 2] H).
Defined.

Lemma flag_bit (f g : CalculationFlag.t) :
  Z.testbit (JS.toInt32 (CalculationFlag.value f))
    (Z.log2 (CalculationFlag.value g))
  = (CalculationFlag.value f =? CalculationFlag.value g).
Proof. destruct f, g; reflexivity. Qed.

(** On a 32-bit state, [has] of a named option reads the option's bit. *)
Lemma has_named_bit (s : Z) (g : CalculationFlag.t) :
  JS.toInt32 s = s ->
  (JS.band s (CalculationFlag.value g) =? CalculationFlag.value g)
  = Z.testbit s (Z.log2 (CalculationFlag.value g)).
Proof.
  intros Hs. destruct (flag_value_pow2 g) as [Hg Hk].
  unfold JS.band. rewrite Hs, flag_value_int32.
  rewrite Hg at 1 2. rewrite land_pow2 by exact Hk.
  destruct (Z.testbit s _).
  - rewrite <- Hg. apply Z.eqb_refl.
  - rewrite <- Hg. destruct g; reflexivity.
Qed.

Lemma existsb_map_value (g : CalculationFlag.t)
    (fs : list CalculationFlag.t) :
  existsb (fun f => Z.testbit (JS.toInt32 f)
                      (Z.log2 (CalculationFlag.value g)))
    (map CalculationFlag.value fs)
  = flagIn g fs.
Proof.
  unfold flagIn. induction fs as [|f fs IH]; simpl; [reflexivity|].
  rewrite IH, flag_bit. reflexivity.
Qed.

Lemma reachable_int32 init cs :
  JS.toInt32 (CalculationFlags.flags
                (applyCalls cs (CalculationFlags.new init)))
  = CalculationFlags.flags (applyCalls cs (CalculationFlags.new init)).
Proof. apply applyCalls_int32, new_int32. Qed.

(** X2.  [add] is insertion into a set of named options: after adding the
    options [fs] (as an array, or one call for one option) to any builder
    state, [has(g)] holds exactly when it held before or [g] is among
    them. *)
Theorem add_is_insertion
  (init : option FlagArg) (cs : list BuilderCall)
  (fs : list CalculationFlag.t) (f g : CalculationFlag.t) :
  let b := applyCalls cs (CalculationFlags.new init) in
  CalculationFlags.has (CalculationFlag.value g)
    (CalculationFlags.add (Many (map CalculationFlag.value fs)) b)
  = CalculationFlags.has (CalculationFlag.value g) b || flagIn g fs
  /\ CalculationFlags.has (CalculationFlag.value g)
       (CalculationFlags.add (One (CalculationFlag.value f)) b)
     = CalculationFlags.has (CalculationFlag.value g) b
       || (CalculationFlag.value f =? CalculationFlag.value g).
Proof.
  intros b. pose proof (reachable_int32 init cs) as Hb. fold b in Hb.
  unfold CalculationFlags.has.
  rewrite !has_named_bit
    by (try apply add_int32; exact Hb).
  split.
  - rewrite add_many_flags, fold_bor_testbit
      by (try exact Hb; apply Z.log2_nonneg).
    rewrite existsb_map_value. reflexivity.
  - cbn [CalculationFlags.add CalculationFlags.flags]. unfold JS.bor.
    rewrite Z.lor_spec, Hb, flag_bit. reflexivity.
Qed.

(** X3.  [remove] is deletion from the set: after removing the options
    [fs] from any builder state, [has(g)] holds exactly when it held
    before and [g] is not among them. *)
Theorem remove_is_deletion
  (init : option FlagArg) (cs : list BuilderCall)
  (fs : list CalculationFlag.t) (f g : CalculationFlag.t) :
  let b := applyCalls cs (CalculationFlags.new init) in
  CalculationFlags.has (CalculationFlag.value g)
    (CalculationFlags.remove (Many (map CalculationFlag.value fs)) b)
  = CalculationFlags.has (CalculationFlag.value g) b && negb (flagIn g fs)
  /\ CalculationFlags.has (CalculationFlag.value g)
       (CalculationFlags.remove (One (CalculationFlag.value f)) b)
     = CalculationFlags.has (CalculationFlag.value g) b
       && negb (CalculationFlag.value f =? CalculationFlag.value g).
Proof.
  intros b. pose proof (reachable_int32 init cs) as Hb. fold b in Hb.
  unfold CalculationFlags.has.
  rewrite !has_named_bit
    by (try apply remove_int32; exact Hb).
  split.
  - rewrite remove_many_flags, fold_band_bnot_testbit
      by (try exact Hb; apply Z.log2_nonneg).
    rewrite existsb_map_value. reflexivity.
  - cbn [CalculationFlags.remove CalculationFlags.flags]. unfold JS.band.
    rewrite bnot_int32. unfold JS.bnot.
    rewrite Z.land_spec, Z.lnot_spec, Hb, flag_bit by apply Z.log2_nonneg.
    reflexivity.
Qed.

Lemma flag_value_inj (f g : CalculationFlag.t) :
  CalculationFlag.value f = CalculationFlag.value g -> f = g.
Proof. destruct f, g; intros H; solve [reflexivity | discriminate H]. Qed.

Lemma flagIn_In (g : CalculationFlag.t) (fs : list CalculationFlag.t) :
  flagIn g fs = true <-> In g fs.
Proof.
  unfold flagIn. rewrite existsb_exists. split.
  - intros (f & Hin & Heq). apply Z.eqb_eq, flag_value_inj in Heq.
    subst. exact Hin.
  - intros Hin. exists g. split; [exact Hin | apply Z.eqb_refl].
Qed.

Lemma lor_below a b n :
  0 <= n -> 0 <= a < 2 ^ n -> 0 <= b < 2 ^ n -> 0 <= Z.lor a b < 2 ^ n.
Proof.
  intros Hn Ha Hb.
  destruct (Z.eq_dec a 0) as [->|Ha0]; [rewrite Z.lor_0_l; exact Hb|].
  destruct (Z.eq_dec b 0) as [->|Hb0]; [rewrite Z.lor_0_r; exact Ha|].
  assert (H0 : 0 <= Z.lor a b) by (apply Z.lor_nonneg; lia).
  split; [exact H0|].
  destruct (Z.eq_dec (Z.lor a b) 0) as [->|Hne].
  - apply Z.pow_pos_nonneg; lia.
  - apply Z.log2_lt_pow2; [lia|].
    rewrite Z.log2_lor by lia.
    apply Z.max_lub_lt; apply Z.log2_lt_pow2; lia.
Qed.

Lemma small_int32 n : 0 <= n < 2 ^ 31 -> JS.toInt32 n = n.
Proof. intros H. apply toInt32_id. unfold JS.int32. lia. Qed.

Lemma fold_bor_below (vs : list Z) (k : Z) : forall s,
  0 <= k < 31 ->
  0 <= s < 2 ^ k -> Forall (fun v => 0 <= v < 2 ^ k) vs ->
  0 <= fold_left JS.bor vs s < 2 ^ k.
Proof.
  assert (Hp : forall k, 0 <= k < 31 -> 2 ^ k <= 2 ^ 31)
    by (intros j Hj; apply Z.pow_le_mono_r; lia).
  induction vs as [|v vs IH]; intros s Hk Hs Hvs; simpl; [exact Hs|].
  inversion Hvs as [|? ? Hv Hvs']; subst.
  apply IH; [exact Hk | | exact Hvs'].
  unfold JS.bor. specialize (Hp k Hk).
  rewrite !small_int32 by lia.
  apply lor_below; lia.
Qed.

Lemma flag_value_below (f : CalculationFlag.t) :
  0 <= CalculationFlag.value f < 2 ^ 21.
Proof. destruct f; simpl; lia. Qed.

(** X4.  Round trip through an array of named options: the builder made
    from the array answers [has(g)] exactly for the options in the array;
    the integer it normalises to lies in [0, 2^21), so the 32-bit
    conversions on the way to the engine leave it alone; and it is 0 only
    for the empty array. *)
Theorem named_flags_round_trip (fs : list CalculationFlag.t) :
  let vs := map CalculationFlag.value fs in
  let n := normalizeFlags (FlagArray vs) in
  (forall g, CalculationFlags.has (CalculationFlag.value g)
               (CalculationFlags.from vs) = true <-> In g fs)
  /\ 0 <= n < 2 ^ 21
  /\ JS.toInt32 n = n
  /\ (n = 0 <-> fs = []).
Proof.
  intros vs n.
  assert (Hhas : forall g, CalculationFlags.has (CalculationFlag.value g)
                             (CalculationFlags.from vs) = flagIn g fs).
  { intros g. unfold CalculationFlags.has, CalculationFlags.from,
      CalculationFlags.new.
    rewrite has_named_bit by (apply add_int32; reflexivity).
    rewrite add_many_flags, fold_bor_testbit
      by (try reflexivity; apply Z.log2_nonneg).
    cbn [CalculationFlags.flags]. rewrite Z.bits_0.
    apply existsb_map_value. }
  assert (Hn : 0 <= n < 2 ^ 21).
  { subst n. unfold normalizeFlags, CalculationFlags.toNumber,
      CalculationFlags.from, CalculationFlags.new.
    rewrite add_many_flags. apply fold_bor_below; [lia | simpl; lia |].
    subst vs. apply List.Forall_forall. intros v Hv.
    apply in_map_iff in Hv as (f & <- & _). apply flag_value_below. }
  split; [|split; [exact Hn | split]].
  - intros g. rewrite Hhas. apply flagIn_In.
  - apply small_int32.
    assert (2 ^ 21 <= 2 ^ 31) by (apply Z.pow_le_mono_r; lia). lia.
  - split.
    + intros H0. destruct fs as [|f fs]; [reflexivity|]. exfalso.
      pose proof (Hhas f) as Hf.
      unfold CalculationFlags.has, CalculationFlags.toNumber in Hf.
      change (CalculationFlags.flags (CalculationFlags.from vs)) with n in Hf.
      rewrite H0 in Hf.
      assert (Hin : flagIn f (f :: fs) = true)
        by (apply flagIn_In; left; reflexivity).
      rewrite Hin in Hf. destruct f; discriminate Hf.
    + intros ->. reflexivity.
Qed.

(** ** Eclipse-type filters *)

Lemma type_value_int32 (e : EclipseType.t) :
  JS.toInt32 (EclipseType.value e) = EclipseType.value e.
Proof. destruct e; reflexivity. Qed.

Lemma type_add_many es b :
  EclipseTypeFlags.flags (EclipseTypeFlags.add (Many es) b)
  = fold_left JS.bor es (EclipseTypeFlags.flags b).
Proof.
  simpl. revert b. induction es as [|e es IH]; intros b; simpl.
  - reflexivity.
  - rewrite IH. reflexivity.
Qed.

Lemma type_bit (e g : EclipseType.t) :
  Z.testbit (JS.toInt32 (EclipseType.value e)) (Z.log2 (EclipseType.value g))
  = (EclipseType.value e =? EclipseType.value g).
Proof. destruct e, g; reflexivity. Qed.

Lemma fold_bor_int32 (vs : list Z) : forall s,
  JS.toInt32 s = s -> JS.toInt32 (fold_left JS.bor vs s) = fold_left JS.bor vs s.
Proof.
  induction vs as [|v vs IH]; intros s Hs; simpl; [exact Hs|].
  apply IH, bor_int32.
Qed.

(** X5.  For any finite list of named eclipse types, the input shapes of
    the type filter normalise to one integer: the raw number
    [e1 | ... | en], the array, the builder filled by one [add] call per
    type, and, for a single type, the named type itself.  That integer
    lies in [0, 128), and the builder's [has(g)] holds exactly for the
    types of the list. *)
Theorem normalizeEclipseTypes_shapes_agree (es : list EclipseType.t) :
  let vs := map EclipseType.value es in
  let n := rawOr vs in
  let builder :=
    fold_left (fun b e => EclipseTypeFlags.add (One e) b) vs
      (EclipseTypeFlags.new None) in
  normalizeEclipseTypes (TypeNumber n) = n
  /\ normalizeEclipseTypes (TypeArray vs) = n
  /\ normalizeEclipseTypes (TypeBuilder builder) = n
  /\ match es with
     | [e] => normalizeEclipseTypes (TypeNamed e) = n
     | _ => True
     end
  /\ 0 <= n < 128
  /\ forall g, EclipseTypeFlags.has (EclipseType.value g) builder
               = typeIn g es.
Proof.
  intros vs n builder.
  assert (Hfold : fold_left JS.bor vs 0 = n).
  { subst n vs. destruct es as [|e es]; [reflexivity|].
    cbn [map fold_left rawOr]. rewrite bor_zero_l, type_value_int32.
    reflexivity. }
  assert (Hb : EclipseTypeFlags.flags builder = n).
  { subst builder.
    change (fold_left (fun b e => EclipseTypeFlags.add (One e) b) vs
              (EclipseTypeFlags.new None))
      with (EclipseTypeFlags.add (Many vs) (EclipseTypeFlags.new None)).
    rewrite type_add_many. exact Hfold. }
  split; [reflexivity|]. split.
  { unfold normalizeEclipseTypes, EclipseTypeFlags.toNumber,
      EclipseTypeFlags.from, EclipseTypeFlags.new.
    rewrite type_add_many. exact Hfold. }
  split; [exact Hb|]. split.
  { destruct es as [|e [|e' es]]; try exact I. reflexivity. }
  split.
  { rewrite <- Hfold. change 128 with (2 ^ 7).
    apply fold_bor_below; [lia | simpl; lia |].
    subst vs. apply List.Forall_forall. intros v Hv.
    apply in_map_iff in Hv as (e & <- & _). destruct e; simpl; lia. }
  intros g. unfold EclipseTypeFlags.has. rewrite Hb, <- Hfold.
  assert (Hg : EclipseType.value g = 2 ^ Z.log2 (EclipseType.value g))
    by (destruct g; reflexivity).
  unfold JS.band. rewrite fold_bor_int32, type_value_int32 by reflexivity.
  rewrite Hg at 1 2. rewrite land_pow2 by apply Z.log2_nonneg.
  rewrite fold_bor_testbit by (try reflexivity; apply Z.log2_nonneg).
  rewrite Z.bits_0, orb_false_l.
  replace (existsb _ vs) with (typeIn g es).
  - destruct (typeIn g es).
    + rewrite <- Hg. apply Z.eqb_refl.
    + rewrite <- Hg. destruct g; reflexivity.
  - unfold typeIn. subst vs. clear. induction es as [|e es IH]; simpl.
    + reflexivity.
    + rewrite IH, type_bit. reflexivity.
Qed.

(** ** Named options, enumerations and the lazy set-up *)

Lemma usesMoshier_bit (n : Z) :
  usesMoshier n = Z.testbit (JS.toInt32 n) 2.
Proof.
  unfold usesMoshier. apply (band_bit n _ 2); [lia | reflexivity..].
Qed.

Lemma usesMoshier_named (fs : list CalculationFlag.t) :
  usesMoshier (normalizeFlags (FlagArray (map CalculationFlag.value fs)))
  = flagIn CalculationFlag.MoshierEphemeris fs.
Proof.
  rewrite usesMoshier_bit.
  unfold normalizeFlags, CalculationFlags.toNumber, CalculationFlags.from,
    CalculationFlags.new.
  rewrite add_int32 by reflexivity.
  rewrite add_many_flags, fold_bor_testbit by (try reflexivity; lia).
  cbn [CalculationFlags.flags]. rewrite Z.bits_0.
  apply (existsb_map_value CalculationFlag.MoshierEphemeris).
Qed.

Lemma requestedFlags_withFlags f c :
  requestedFlags (withFlags f c) = normalizeFlags f.
Proof. destruct c; reflexivity. Qed.

(** X6.  With the flags given as an array of named options, a file
    calculation of the native gateway sets up the bundled directory
    exactly when no directory has been set up yet and the Moshier option
    is not in the array; with the Moshier option in the array it never
    does. *)
Theorem moshier_option_skips_setup
  (eng : Engine) (bundled : string) (fs : list CalculationFlag.t)
  (c : FileCalculation) (st : Node.t) :
  let c' := withFlags (FlagArray (map CalculationFlag.value fs)) c in
  let st' := nodeAfter eng bundled c' st in
  let setup :=
    negb (Node.ephemerisPathSet st)
    && negb (flagIn CalculationFlag.MoshierEphemeris fs) in
  configurations (Node.engine st')
  = (configurations (Node.engine st) + if setup then 1 else 0)%nat
  /\ Node.ephemerisPathSet st' = Node.ephemerisPathSet st || setup
  /\ ephePath (Node.engine st')
     = (if setup then Some bundled else ephePath (Node.engine st))
  /\ (In CalculationFlag.MoshierEphemeris fs ->
      calls (Node.engine st') = calls (Node.engine st) ++ [engineCallOf c']).
Proof.
  cbv zeta. rewrite nodeAfter_spec. cbv zeta.
  rewrite requestedFlags_withFlags.
  set (c' := withFlags _ c).
  unfold Node.ensureEphemerisInitialized.
  fold (usesMoshier (normalizeFlags
                       (FlagArray (map CalculationFlag.value fs)))).
  rewrite usesMoshier_named.
  destruct st as [[|] es];
    destruct (flagIn CalculationFlag.MoshierEphemeris fs) eqn:Hm;
    cbn [negb andb orb Node.ephemerisPathSet Node.engine];
    rewrite configurations_logCall by apply engineCallOf_not_config;
    unfold Binding.set_ephe_path, Node.getBundledEphemerisPath;
    rewrite ?configurations_configurePath;
    (split; [lia|]); (split; [reflexivity|]); (split; [reflexivity|]);
    intros Hin; try reflexivity;
    apply flagIn_In in Hin; congruence.
Qed.

Lemma type_value_inj (e g : EclipseType.t) :
  EclipseType.value e = EclipseType.value g -> e = g.
Proof. destruct e, g; intros H; solve [reflexivity | discriminate H]. Qed.

(** X7.  The numeric codes of the enumerations never collide: each
    calculation option and each eclipse type is one bit of its own
    (below 2^21 and below 2^7), and the code the engine receives for a
    house system, the first character of its letter, tells the house
    systems apart and passes through the 32-bit conversion unchanged. *)
Theorem enumeration_codes_distinct :
  (forall f g : CalculationFlag.t,
     CalculationFlag.value f = CalculationFlag.value g -> f = g)
  /\ (forall f : CalculationFlag.t,
        CalculationFlag.value f = 2 ^ Z.log2 (CalculationFlag.value f)
        /\ 0 <= Z.log2 (CalculationFlag.value f) < 21)
  /\ (forall e g : EclipseType.t,
        EclipseType.value e = EclipseType.value g -> e = g)
  /\ (forall e : EclipseType.t,
        EclipseType.value e = 2 ^ Z.log2 (EclipseType.value e)
        /\ 0 <= Z.log2 (EclipseType.value e) < 7)
  /\ (forall h k : HouseSystem.t,
        JS.toInt32 (charCode0 (HouseSystem.value h))
        = JS.toInt32 (charCode0 (HouseSystem.value k)) -> h = k)
  /\ (forall h : HouseSystem.t,
        JS.toInt32 (charCode0 (HouseSystem.value h))
        = charCode0 (HouseSystem.value h)).
Proof.
  split; [exact flag_value_inj|].
  split; [intros f; destruct f; vm_compute; intuition discriminate|].
  split; [exact type_value_inj|].
  split; [intros e; destruct e; vm_compute; intuition discriminate|].
  split; [|intros h; destruct h; reflexivity].
  intros h k; destruct h, k; intros H;
    solve [reflexivity | vm_compute in H; discriminate H].
Qed.

(** ** Whole runs of the native gateway *)

Section NodeRuns.
Variable eng : Engine.
Variable bundled : string.

(** One request: what it does to the flag, to the number of set-ups and to
    the directory in force. *)
Lemma nodeServe_step (r : NodeRequest) (st : Node.t) :
  let st' := nodeServe eng bundled r st in
  let lazy := negb (Node.ephemerisPathSet st) && needsFiles r in
  Node.ephemerisPathSet st'
  = Node.ephemerisPathSet st || isExplicitSetup r || needsFiles r
  /\ configurations (Node.engine st')
     = (configurations (Node.engine st)
        + (if isExplicitSetup r then 1 else 0)
        + (if lazy then 1 else 0))%nat
  /\ ephePath (Node.engine st')
     = match r with
       | NodeSetEphemerisPath p => Some (default bundled p)
       | _ => if lazy then Some bundled else ephePath (Node.engine st)
       end.
Proof.
  cbv zeta. destruct st as [set es].
  destruct r as [p | y m d h c | jd c | c | jd la lo h | b | ];
    cbn [nodeServe isExplicitSetup needsFiles Node.ephemerisPathSet
         Node.engine].
  - destruct p as [p|]; cbn [Node.setEphemerisPath Node.ephemerisPathSet
                              Node.engine default];
      unfold Binding.set_ephe_path, Node.getBundledEphemerisPath;
      rewrite configurations_configurePath, orb_true_r, andb_false_r;
      repeat split; lia.
  - unfold Node.julianDay, Binding.julday. cbv zeta.
    cbn [fst Node.ephemerisPathSet Node.engine].
    rewrite configurations_logCall by reflexivity.
    rewrite !orb_false_r, andb_false_r. repeat split; lia.
  - unfold Node.julianDayToDate, Binding.revjul. cbv zeta.
    destruct (swe_revjul eng jd _) as [[[y mo] d] h].
    cbn [fst Node.ephemerisPathSet Node.engine].
    rewrite configurations_logCall by reflexivity.
    rewrite !orb_false_r, andb_false_r. repeat split; lia.
  - rewrite nodeAfter_spec. cbv zeta.
    unfold Node.ensureEphemerisInitialized.
    fold (usesMoshier (requestedFlags c)).
    cbn [Node.ephemerisPathSet Node.engine].
    destruct set, (usesMoshier (requestedFlags c));
      cbn [negb andb orb Node.ephemerisPathSet Node.engine];
      rewrite configurations_logCall by apply engineCallOf_not_config;
      unfold Binding.set_ephe_path, Node.getBundledEphemerisPath;
      rewrite ?configurations_configurePath;
      repeat split; lia.
  - unfold Node.calculateHouses, Binding.houses. cbv zeta.
    destruct (hret _ <? 0);
      cbn [fst Node.ephemerisPathSet Node.engine];
      rewrite configurations_logCall by reflexivity;
      rewrite !orb_false_r, andb_false_r; repeat split; lia.
  - unfold Node.getCelestialBodyName, Binding.get_planet_name. cbv zeta.
    cbn [fst Node.ephemerisPathSet Node.engine].
    rewrite configurations_logCall by reflexivity.
    rewrite !orb_false_r, andb_false_r. repeat split; lia.
  - unfold Node.close, Binding.close.
    cbn [Node.ephemerisPathSet Node.engine].
    rewrite configurations_logCall by reflexivity.
    rewrite !orb_false_r, andb_false_r. repeat split; lia.
Qed.

(** X8.  Over any run of requests of the native gateway, from any state:
    the engine's directory is set up once per explicit
    [setEphemerisPath], plus at most once on the gateway's own
    initiative, namely when the state was not set up and a file
    calculation without the Moshier bit comes before every explicit
    set-up.  Date conversions, houses, name look-ups and [close] never
    set it up, and [close] does not make it happen again. *)
Theorem node_setup_count (rs : list NodeRequest) (st : Node.t) :
  let st' := nodeServeAll eng bundled rs st in
  configurations (Node.engine st')
  = (configurations (Node.engine st)
     + length (List.filter isExplicitSetup rs)
     + (if negb (Node.ephemerisPathSet st) && needsFilesFirst rs
        then 1 else 0))%nat
  /\ Node.ephemerisPathSet st'
     = Node.ephemerisPathSet st
       || existsb isExplicitSetup rs || existsb needsFiles rs.
Proof.
  cbv zeta. revert st. induction rs as [|r rs IH]; intros st.
  - cbn [nodeServeAll fold_left List.filter length needsFilesFirst existsb].
    rewrite andb_false_r, !orb_false_r. split; [lia | reflexivity].
  - change (nodeServeAll eng bundled (r :: rs) st)
      with (nodeServeAll eng bundled rs (nodeServe eng bundled r st)).
    destruct (IH (nodeServe eng bundled r st)) as [IHc IHs].
    destruct (nodeServe_step r st) as (Hs & Hc & _). cbv zeta in Hs, Hc.
    rewrite IHc, IHs, Hs, Hc.
    cbn [List.filter needsFilesFirst existsb].
    destruct r; cbn [isExplicitSetup needsFiles];
      try destruct (usesMoshier (requestedFlags c));
      destruct (Node.ephemerisPathSet st), (needsFilesFirst rs),
        (existsb isExplicitSetup rs), (existsb needsFiles rs);
      cbn [negb andb orb length]; split; solve [lia | reflexivity].
Qed.

(** X9.  The directory the engine works with after any run of requests:
    the one of the last explicit [setEphemerisPath] (the bundled one when
    it was called without a directory); without an explicit set-up, the
    bundled one if the state was not set up and some file calculation
    came without the Moshier bit; otherwise the one it had.  So a
    directory chosen by the caller is never replaced by the gateway. *)
Theorem node_directory_in_force (rs : list NodeRequest) (st : Node.t) :
  ephePath (Node.engine (nodeServeAll eng bundled rs st))
  = match lastExplicitSetup rs with
    | Some p => Some (default bundled p)
    | None =>
        if negb (Node.ephemerisPathSet st) && existsb needsFiles rs
        then Some bundled
        else ephePath (Node.engine st)
    end.
Proof.
  revert st. induction rs as [|r rs IH]; intros st.
  - cbn [nodeServeAll fold_left lastExplicitSetup existsb].
    rewrite andb_false_r. reflexivity.
  - change (nodeServeAll eng bundled (r :: rs) st)
      with (nodeServeAll eng bundled rs (nodeServe eng bundled r st)).
    rewrite IH. cbn [lastExplicitSetup existsb].
    destruct (lastExplicitSetup rs) as [p|]; [reflexivity|].
    destruct (nodeServe_step r st) as (Hs & _ & Hp). cbv zeta in Hs, Hp.
    rewrite Hs, Hp.
    destruct r; cbn [isExplicitSetup needsFiles];
      destruct (Node.ephemerisPathSet st);
      try destruct (usesMoshier (requestedFlags c));
      destruct (existsb needsFiles rs);
      cbn [negb andb orb]; reflexivity.
Qed.

End NodeRuns.

(** ** Whole runs of the bytecode-module gateway *)

Section BrowserRuns.
Variable eng : Engine.
Variable alloc : gmap Z Z -> Z -> Z.

(** A request on a ready object with its module: the object stays ready
    and keeps a module, the engine is called once, and the directory
    changes only when the request names one. *)
Lemma browserServe_ready (r : Request) (m : WasmModule) :
  exists m' err,
    browserServe eng alloc r (Browser.mk (Some m) true)
    = (Browser.mk (Some m') true, err)
    /\ calls (wasmEngine m') = calls (wasmEngine m) ++ [browserCallOf r]
    /\ ephePath (wasmEngine m')
       = match r with
         | ReqSetEphemerisPath p => Some p
         | _ => ephePath (wasmEngine m)
         end
    /\ forall e, err = Some e -> JsError.name e = "Error".
Proof.
  destruct r as [ | path | y mo d h cal | jd cal | jd body f | jd la lo hs
                | jd f e b | jd f e b | body];
    unfold browserServe;
    unfold Browser.version, Browser.setEphemerisPath, Browser.julianDay,
      Browser.julianDayToDate, Browser.calculatePosition,
      Browser.calculateHouses, Browser.findNextLunarEclipse,
      Browser.findNextSolarEclipse, Browser.getCelestialBodyName,
      Browser.withModule, Browser._checkReady, Browser.usingModule,
      Emscripten.allocateUTF8, Emscripten._malloc, Wasm.swe_version_wrap,
      Wasm.swe_set_ephe_path_wrap, Wasm.swe_julday_wrap,
      Wasm.swe_revjul_wrap, Wasm.swe_calc_ut_wrap, Wasm.swe_houses_wrap,
      Wasm.swe_lun_eclipse_when_wrap, Wasm.swe_sol_eclipse_when_glob_wrap,
      Wasm.swe_get_planet_name_wrap;
    cbn [Browser.ready Browser.module negb live cells wasmEngine];
    cbv zeta.
  - do 2 eexists. split; [reflexivity|]. repeat split. discriminate.
  - do 2 eexists. split; [reflexivity|].
    unfold Emscripten._free, store, withEngine. cbn [wasmEngine cells].
    rewrite lookup_insert_eq. repeat split. discriminate.
  - do 2 eexists. split; [reflexivity|]. repeat split. discriminate.
  - destruct (swe_revjul eng jd _) as [[[y mo] d] h].
    do 2 eexists. split; [reflexivity|]. repeat split. discriminate.
  - destruct (ret _ <? 0); (do 2 eexists; split; [reflexivity|]);
      unfold Emscripten._free, store, withEngine; cbn [wasmEngine thrown];
      rewrite storeDoubles_engine; cbn [wasmEngine];
      repeat split; intros e' [= <-]; reflexivity.
  - do 2 eexists. split; [reflexivity|].
    unfold Emscripten._free, withEngine. cbn [wasmEngine thrown].
    rewrite !storeDoubles_engine. cbn [wasmEngine].
    repeat split. discriminate.
  - rewrite toInt32_backward.
    destruct (ret _ <? 0); (do 2 eexists; split; [reflexivity|]);
      unfold Emscripten._free, store, withEngine; cbn [wasmEngine thrown];
      rewrite storeDoubles_engine; cbn [wasmEngine];
      repeat split; intros e' [= <-]; reflexivity.
  - rewrite toInt32_backward.
    destruct (ret _ <? 0); (do 2 eexists; split; [reflexivity|]);
      unfold Emscripten._free, store, withEngine; cbn [wasmEngine thrown];
      rewrite storeDoubles_engine; cbn [wasmEngine];
      repeat split; intros e' [= <-]; reflexivity.
  - do 2 eexists. split; [reflexivity|]. repeat split. discriminate.
Qed.

Lemma browserStep_ready (ev : BrowserEvent) (m : WasmModule) :
  exists m',
    fst (browserStep eng alloc ev (Browser.mk (Some m) true))
    = Browser.mk (Some m') true.
Proof.
  destruct ev as [loaded | r | ].
  - exists m. reflexivity.
  - destruct (browserServe_ready r m) as (m' & err & H & _).
    exists m'. cbn [browserStep]. rewrite H. reflexivity.
  - eexists. reflexivity.
Qed.

Lemma browserStep_idle (ev : BrowserEvent) :
  fst (browserStep eng alloc ev Browser.new)
  = (if isLoaded ev
     then fst (browserStep eng alloc ev Browser.new)
     else Browser.new)
  /\ (isLoaded ev = true ->
      exists m', fst (browserStep eng alloc ev Browser.new)
                 = Browser.mk (Some m') true).
Proof.
  destruct ev as [[instance | e] | r | ]; cbn [isLoaded].
  - split; [reflexivity|]. intros _. eexists. reflexivity.
  - split; [reflexivity | discriminate].
  - split; [|discriminate]. cbn [browserStep].
    apply browserServe_idle. left. reflexivity.
  - split; [reflexivity | discriminate].
Qed.

(** The states an object goes through: as constructed until the first
    [init()] that loads, and ready with a module from then on. *)
Lemma browserRun_state (evs : list BrowserEvent) :
  (existsb isLoaded evs = false
   /\ browserRun eng alloc evs Browser.new = Browser.new)
  \/ (existsb isLoaded evs = true
      /\ exists m, browserRun eng alloc evs Browser.new
                   = Browser.mk (Some m) true).
Proof.
  assert (Hready : forall evs m, exists m',
            browserRun eng alloc evs (Browser.mk (Some m) true)
            = Browser.mk (Some m') true).
  { clear evs. induction evs as [|ev evs IH]; intros m.
    - exists m. reflexivity.
    - destruct (browserStep_ready ev m) as (m1 & H1).
      destruct (IH m1) as (m' & H').
      exists m'. unfold browserRun in *. cbn [fold_left].
      rewrite H1. exact H'. }
  induction evs as [|ev evs IH].
  - left. split; reflexivity.
  - cbn [existsb]. destruct (browserStep_idle ev) as [Hidle Hload].
    unfold browserRun in *. cbn [fold_left].
    destruct (isLoaded ev).
    + right. split; [reflexivity|].
      destruct (Hload eq_refl) as (m1 & ->). apply Hready.
    + rewrite Hidle. cbn [orb]. exact IH.
Qed.

(** X10.  Life of a gateway object, over any sequence of [init()] (loading
    or failing to load), requests and [close()] on a new object: it is
    ready exactly when some [init()] has loaded the module, and then it
    holds a module, so no call ever reads a member of [null]; every
    error a request throws is a plain [Error]; [close()] never throws and
    leaves the object ready; and [init()] on a ready object does
    nothing. *)
Theorem browser_lifecycle (evs : list BrowserEvent) :
  let this := browserRun eng alloc evs Browser.new in
  Browser.ready this = existsb isLoaded evs
  /\ hasModule this = Browser.ready this
  /\ (forall r e, snd (browserServe eng alloc r this) = Some e ->
                  JsError.name e = "Error")
  /\ (snd (Browser.close this) = Return tt
      /\ Browser.ready (fst (Browser.close this)) = Browser.ready this)
  /\ (Browser.ready this = true ->
      forall loaded, browserInit eng loaded this = (this, None)).
Proof.
  cbv zeta.
  destruct (browserRun_state evs) as [[-> ->] | [-> (m & ->)]].
  - split; [reflexivity|]. split; [reflexivity|]. split.
    + intros r e. destruct r; cbn; intros [= <-]; reflexivity.
    + split; [split; reflexivity | discriminate].
  - split; [reflexivity|]. split; [reflexivity|]. split.
    + intros r e. destruct (browserServe_ready r m) as (m' & err & -> & _ & _ & H).
      exact (H e).
    + split; [split; reflexivity | intros _ loaded; reflexivity].
Qed.

(** X11.  On a ready object every request, returning or throwing, makes
    exactly one engine call, so the engine's record after a run is the
    record before it followed by one call per request, in order; and the
    engine's directory is the one of the last [setEphemerisPath] of the
    run, or the one it had: no calculation sets up a directory on the
    gateway's initiative, whatever its flags. *)
Theorem browser_run_log (rs : list Request) (m : WasmModule) :
  let this := browserServeAll eng alloc rs (Browser.mk (Some m) true) in
  browserCalls this = calls (wasmEngine m) ++ map browserCallOf rs
  /\ browserDirectory this
     = match lastPathRequest rs with
       | Some p => Some p
       | None => ephePath (wasmEngine m)
       end.
Proof.
  cbv zeta. revert m. induction rs as [|r rs IH]; intros m.
  - cbn [browserServeAll fold_left map lastPathRequest].
    unfold browserCalls, browserDirectory. cbn [Browser.module].
    rewrite app_nil_r. split; reflexivity.
  - destruct (browserServe_ready r m) as (m1 & err & H1 & Hc & Hp & _).
    unfold browserServeAll in *. cbn [fold_left]. rewrite H1. cbn [fst].
    destruct (IH m1) as [IHc IHp]. rewrite IHc, IHp, Hc, Hp.
    cbn [map lastPathRequest]. rewrite <- app_assoc. split; [reflexivity|].
    destruct (lastPathRequest rs); [reflexivity|]. destruct r; reflexivity.
Qed.

End BrowserRuns.

(** ** Loading data files *)

Section LoaderFacts.
Variable alloc : gmap Z Z -> Z -> Z.
Variable fetch : nat -> string -> Outcome Response.
Variable writeFile : nat -> string -> list Byte.byte -> option JsError.t.

Local Abbreviation download := (Loader.download fetch writeFile true).
Local Abbreviation loadEphemerisFiles :=
  (Loader.loadEphemerisFiles alloc fetch writeFile).

(** Naming a directory on a ready object: the text reaches the engine
    as it was passed, wherever the allocator puts it. *)
Lemma setEphemerisPath_engine (path : string) (m : WasmModule) :
  exists m',
    Browser.setEphemerisPath alloc path (Browser.mk (Some m) true)
    = (Browser.mk (Some m') true, Return tt)
    /\ wasmEngine m' = configurePath path (wasmEngine m).
Proof.
  unfold Browser.setEphemerisPath, Browser.withModule, Browser._checkReady,
    Browser.usingModule, Emscripten.allocateUTF8, Emscripten._malloc,
    Wasm.swe_set_ephe_path_wrap, store.
  cbn [Browser.ready Browser.module negb live cells wasmEngine].
  cbv zeta.
  eexists. split; [reflexivity|].
  unfold Emscripten._free, withEngine. cbn [wasmEngine cells].
  rewrite lookup_insert_eq. reflexivity.
Qed.

(** The loop over files that are all delivered. *)
Lemma download_delivered (files : list EphemerisFile.t) : forall i,
  (forall k f, nth_error files k = Some f ->
               delivers fetch writeFile (i + k) f) ->
  exists fx,
    download i files = (fx, None)
    /\ fetchedUrls fx = map EphemerisFile.url files
    /\ writtenPaths fx = map ephemerisPathOf files.
Proof.
  induction files as [|file rest IH]; intros i Hall.
  - exists []. repeat split.
  - destruct (Hall 0%nat file eq_refl) as (resp & data & Hf & Hok & Hb & Hw).
    rewrite Nat.add_0_r in Hf, Hw.
    destruct (IH (S i)) as (fx & Hd & Hu & Hp).
    { intros k f Hk. replace (S i + k)%nat with (i + S k)%nat by lia.
      apply Hall. exact Hk. }
    exists (FxFetch (EphemerisFile.url file)
            :: FxWriteFile (ephemerisPathOf file) data :: fx).
    cbn [Loader.download]. cbv zeta.
    rewrite Hf, Hok, Hb. cbn [negb].
    fold (ephemerisPathOf file). rewrite Hw, Hd.
    cbn [fetchedUrls writtenPaths flat_map app map].
    fold (fetchedUrls fx). fold (writtenPaths fx). rewrite Hu, Hp.
    repeat split.
Qed.

(** The loop that meets a refused download after files all delivered. *)
Lemma download_refused (pre post : list EphemerisFile.t)
    (file : EphemerisFile.t) (r : Response) : forall i,
  (forall k f, nth_error pre k = Some f ->
               delivers fetch writeFile (i + k) f) ->
  fetch (i + length pre)%nat (EphemerisFile.url file) = Return r ->
  ok r = false ->
  exists fx,
    download i (pre ++ file :: post)
    = (fx, Some (JsError.Error
                   ("Failed to download " +:+ EphemerisFile.name file
                    +:+ ": " +:+ statusText r)))
    /\ fetchedUrls fx = map EphemerisFile.url (pre ++ [file])
    /\ writtenPaths fx = map ephemerisPathOf pre.
Proof.
  induction pre as [|f0 pre IH]; intros i Hall Hf Hok.
  - exists [FxFetch (EphemerisFile.url file)].
    cbn [length] in Hf. rewrite Nat.add_0_r in Hf.
    cbn [app Loader.download]. cbv zeta. rewrite Hf, Hok.
    repeat split.
  - destruct (Hall 0%nat f0 eq_refl) as (resp & data & Hf0 & Hok0 & Hb & Hw).
    rewrite Nat.add_0_r in Hf0, Hw.
    destruct (IH (S i)) as (fx & Hd & Hu & Hp).
    { intros k f Hk. replace (S i + k)%nat with (i + S k)%nat by lia.
      apply Hall. exact Hk. }
    { replace (S i + length pre)%nat with (i + length (f0 :: pre))%nat
        by (cbn [length]; lia).
      exact Hf. }
    { exact Hok. }
    exists (FxFetch (EphemerisFile.url f0)
            :: FxWriteFile (ephemerisPathOf f0) data :: fx).
    cbn [app Loader.download]. cbv zeta.
    rewrite Hf0, Hok0, Hb. cbn [negb].
    fold (ephemerisPathOf f0). rewrite Hw, Hd.
    cbn [fetchedUrls writtenPaths flat_map app map].
    fold (fetchedUrls fx). fold (writtenPaths fx). rewrite Hu, Hp.
    repeat split.
Qed.

(** The loop that ends in an error stopped at some file: it asked for the
    files up to that one and wrote the ones before it, or that one too
    when it is the writing that failed. *)
Lemma download_stopped (files : list EphemerisFile.t) : forall i fx e,
  download i files = (fx, Some e) ->
  exists k,
    (k < length files)%nat
    /\ fetchedUrls fx = map EphemerisFile.url (firstn (S k) files)
    /\ (writtenPaths fx = map ephemerisPathOf (firstn k files)
        \/ writtenPaths fx = map ephemerisPathOf (firstn (S k) files)).
Proof.
  induction files as [|file rest IH]; intros i fx e H.
  - discriminate H.
  - cbn [Loader.download] in H. cbv zeta in H.
    destruct (fetch i (EphemerisFile.url file)) as [resp | e0].
    2:{ injection H as <- _. exists 0%nat. cbn [length].
        split; [lia|]. split; [reflexivity | left; reflexivity]. }
    destruct (ok resp); cbn [negb] in H.
    2:{ injection H as <- _. exists 0%nat. cbn [length].
        split; [lia|]. split; [reflexivity | left; reflexivity]. }
    destruct (arrayBuffer resp) as [data | e0].
    2:{ injection H as <- _. exists 0%nat. cbn [length].
        split; [lia|]. split; [reflexivity | left; reflexivity]. }
    destruct (writeFile i _ data) as [e0|].
    { injection H as <- _. exists 0%nat. cbn [length].
      split; [lia|]. split; [reflexivity | right; reflexivity]. }
    destruct (download (S i) rest) as [fx' err'] eqn:Hd.
    injection H as <- ->.
    destruct (IH _ _ _ Hd) as (k & Hk & Hu & Hp).
    exists (S k). cbn [length]. split; [lia|].
    cbn [fetchedUrls writtenPaths flat_map app].
    fold (fetchedUrls fx'). fold (writtenPaths fx').
    rewrite Hu. split; [reflexivity|].
    destruct Hp as [-> | ->]; [left | right]; reflexivity.
Qed.

(** X12.  When every file of the list is delivered and stored, the loader
    returns after asking for each address once, in the order of the list,
    and writing each file under [/ephemeris/]; the directory is created
    before the first download and the engine is set up on [/ephemeris]
    once, as its only engine call, after the last write.  With an empty
    list it still creates the directory and sets the engine up. *)
Theorem loader_delivers_all (files : list EphemerisFile.t) (m : WasmModule) :
  (forall k f, nth_error files k = Some f -> delivers fetch writeFile k f) ->
  exists this' fx,
    loadEphemerisFiles files (Browser.mk (Some m) true)
    = (this', FxMkdir "/ephemeris" :: fx, Return tt)
    /\ fetchedUrls fx = map EphemerisFile.url files
    /\ writtenPaths fx = map ephemerisPathOf files
    /\ Browser.ready this' = true
    /\ browserCalls this' = calls (wasmEngine m) ++ [CSetEphePath "/ephemeris"]
    /\ browserDirectory this' = Some "/ephemeris".
Proof.
  intros Hall.
  destruct (download_delivered files 0 Hall) as (fx & Hd & Hu & Hp).
  destruct (setEphemerisPath_engine "/ephemeris" m) as (m' & Hset & He).
  exists (Browser.mk (Some m') true), fx.
  unfold Loader.loadEphemerisFiles, Browser._checkReady, hasModule.
  cbn [Browser.ready Browser.module negb]. cbv zeta.
  rewrite Hd, Hset. cbn [app].
  unfold browserCalls, browserDirectory. cbn [Browser.module Browser.ready].
  rewrite He. repeat split; assumption.
Qed.

(** X13.  When the files before some file of the list are delivered and
    stored and the download of that file is refused (a response that is
    not [ok]), the loader throws an [Error] naming the file and the
    response's status text; it has written the files before it, has not
    asked for any file after it, and has left the object, its engine and
    the engine's directory as they were. *)
Theorem loader_reports_refused_download
  (pre post : list EphemerisFile.t) (file : EphemerisFile.t) (r : Response)
  (m : WasmModule) :
  (forall k f, nth_error pre k = Some f -> delivers fetch writeFile k f) ->
  fetch (length pre) (EphemerisFile.url file) = Return r ->
  ok r = false ->
  exists fx,
    loadEphemerisFiles (pre ++ file :: post) (Browser.mk (Some m) true)
    = (Browser.mk (Some m) true, FxMkdir "/ephemeris" :: fx,
       Throw (JsError.Error
                ("Failed to download " +:+ EphemerisFile.name file
                 +:+ ": " +:+ statusText r)))
    /\ fetchedUrls fx = map EphemerisFile.url (pre ++ [file])
    /\ writtenPaths fx = map ephemerisPathOf pre.
Proof.
  intros Hall Hf Hok.
  destruct (download_refused pre post file r 0 Hall Hf Hok)
    as (fx & Hd & Hu & Hp).
  exists fx.
  unfold Loader.loadEphemerisFiles, Browser._checkReady, hasModule.
  cbn [Browser.ready Browser.module negb]. cbv zeta.
  rewrite Hd. cbn [app]. repeat split; assumption.
Qed.

(** X14.  However the network and the file system answer, a loader that
    throws has not touched the object: the engine is not called and its
    directory is not changed.  It stopped at one file of the list, having
    asked for the files up to that one and written those before it (that
    one too when the writing is what failed); what it wrote stays.  On an
    object that is not ready it throws at once, before creating the
    directory or asking for anything. *)
Theorem loader_failure_leaves_engine
  (files : list EphemerisFile.t) (m : WasmModule) (module : option WasmModule) :
  (forall this' fx e,
     loadEphemerisFiles files (Browser.mk (Some m) true)
     = (this', fx, Throw e) ->
     this' = Browser.mk (Some m) true
     /\ exists k,
          (k < length files)%nat
          /\ fetchedUrls fx = map EphemerisFile.url (firstn (S k) files)
          /\ (writtenPaths fx = map ephemerisPathOf (firstn k files)
              \/ writtenPaths fx
                 = map ephemerisPathOf (firstn (S k) files)))
  /\ loadEphemerisFiles files (Browser.mk module false)
     = (Browser.mk module false, [], Throw Browser.notInitialized).
Proof.
  split; [|reflexivity].
  intros this' fx e.
  unfold Loader.loadEphemerisFiles, Browser._checkReady, hasModule.
  cbn [Browser.ready Browser.module negb]. cbv zeta.
  destruct (download 0 files) as [fx0 [e0|]] eqn:Hd.
  - intros [= <- <- <-]. split; [reflexivity|].
    destruct (download_stopped files 0 fx0 e0 Hd) as (k & Hk & Hu & Hp).
    exists k. cbn [app fetchedUrls writtenPaths flat_map].
    fold (fetchedUrls fx0). fold (writtenPaths fx0). auto.
  - unfold Browser.setEphemerisPath, Browser.withModule,
      Browser._checkReady, Browser.usingModule.
    cbn [Browser.ready Browser.module negb]. cbv zeta.
    destruct (Emscripten.allocateUTF8 _ _ _). intros [= _ _ H]. 
Qed.

End LoaderFacts.

(** The three standard files, all delivered. *)
Lemma loader_delivers_all_witness :
  let files :=
    [EphemerisFile.mk "sepl_18.se1"
       "https://cdn.jsdelivr.net/gh/aloistr/swisseph/ephe/sepl_18.se1";
     EphemerisFile.mk "semo_18.se1"
       "https://cdn.jsdelivr.net/gh/aloistr/swisseph/ephe/semo_18.se1";
     EphemerisFile.mk "seas_18.se1"
       "https://cdn.jsdelivr.net/gh/aloistr/swisseph/ephe/seas_18.se1"] in
  (forall k f, nth_error files k = Some f ->
               delivers deliveringFetch storingFileSystem k f)
  /\ exists this' fx,
       Loader.loadStandardEphemeris topAlloc deliveringFetch
         storingFileSystem readyBrowser
       = (this', FxMkdir "/ephemeris" :: fx, Return tt)
       /\ writtenPaths fx
          = ["/ephemeris/sepl_18.se1"; "/ephemeris/semo_18.se1";
             "/ephemeris/seas_18.se1"]
       /\ browserDirectory this' = Some "/ephemeris".
Proof.
  intros files.
  assert (H : forall k f, nth_error files k = Some f ->
                          delivers deliveringFetch storingFileSystem k f).
  { intros k f _.
    exists {| ok := true; statusText := "OK";
              arrayBuffer := Return [Byte.x53; Byte.x45] |},
           [Byte.x53; Byte.x45].
    repeat split. }
  split; [exact H|].
  destruct (loader_delivers_all topAlloc deliveringFetch storingFileSystem
              files freshModule H)
    as (this' & fx & H1 & _ & H3 & _ & _ & H6).
  exists this', fx. split; [exact H1|]. split; [exact H3 | exact H6].
Defined.

(** The standard files on a network that has the first of them only. *)
Lemma loader_reports_refused_download_witness :
  let sepl :=
    EphemerisFile.mk "sepl_18.se1"
      "https://cdn.jsdelivr.net/gh/aloistr/swisseph/ephe/sepl_18.se1" in
  let semo :=
    EphemerisFile.mk "semo_18.se1"
      "https://cdn.jsdelivr.net/gh/aloistr/swisseph/ephe/semo_18.se1" in
  let refused :=
    {| ok := false; statusText := "Not Found"; arrayBuffer := Return [] |} in
  (forall k f, nth_error [sepl] k = Some f ->
               delivers planetsOnlyFetch storingFileSystem k f)
  /\ planetsOnlyFetch (length [sepl]) (EphemerisFile.url semo)
     = Return refused
  /\ ok refused = false
  /\ exists fx,
       Loader.loadStandardEphemeris topAlloc planetsOnlyFetch
         storingFileSystem readyBrowser
       = (readyBrowser, FxMkdir "/ephemeris" :: fx,
          Throw (JsError.Error "Failed to download semo_18.se1: Not Found"))
       /\ writtenPaths fx = ["/ephemeris/sepl_18.se1"].
Proof.
  intros sepl semo refused.
  assert (H : forall k f, nth_error [sepl] k = Some f ->
                          delivers planetsOnlyFetch storingFileSystem k f).
  { intros [|[|k]] f Hk; try discriminate Hk.
    exists {| ok := true; statusText := "OK";
              arrayBuffer := Return [Byte.x53; Byte.x45] |},
           [Byte.x53; Byte.x45].
    repeat split. }
  split; [exact H|]. split; [reflexivity|]. split; [reflexivity|].
  destruct (loader_reports_refused_download topAlloc planetsOnlyFetch
              storingFileSystem [sepl]
              [EphemerisFile.mk "seas_18.se1"
                 "https://cdn.jsdelivr.net/gh/aloistr/swisseph/ephe/seas_18.se1"]
              semo refused freshModule H eq_refl eq_refl)
    as (fx & H1 & _ & H3).
  exists fx. split; [exact H1 | exact H3].
Defined.

(** ** Defaults and shapes of the results *)


(** X16.  Leaving the flags out of a position request is passing the
    preset builder of the gateway's flavour: [swissEphemerisWithSpeed] in
    the native gateway, [moshierWithSpeed] in the bytecode-module
    gateway. *)
Theorem omitted_flags_are_presets
  (eng : Engine) (bundled : string) (alloc : gmap Z Z -> Z -> Z)
  (jd : float) (body : Z) (st : Node.t) (this : Browser.t) :
  Node.calculatePosition eng bundled jd body None st
  = Node.calculatePosition eng bundled jd body
      (Some (FlagBuilder CalculationFlags.swissEphemerisWithSpeed)) st
  /\ Browser.calculatePosition eng alloc jd body None this
     = Browser.calculatePosition eng alloc jd body
         (Some (FlagBuilder CalculationFlags.moshierWithSpeed)) this.
Proof.
  split.
  - unfold Node.calculatePosition. cbn [default].
    change (normalizeFlags
              (FlagBuilder CalculationFlags.swissEphemerisWithSpeed))
      with (normalizeFlags
              (FlagNumber CommonCalculationFlags.DefaultSwissEphemeris)).
    reflexivity.
  - unfold Browser.calculatePosition. cbn [default].
    change (normalizeFlags (FlagBuilder CalculationFlags.moshierWithSpeed))
      with (normalizeFlags
              (FlagNumber CommonCalculationFlags.DefaultMoshier)).
    reflexivity.
Qed.

(** X17.  A houses record always carries 13 cusp slots (slot 0 and the
    twelve houses), in both gateways, whatever the engine wrote into its
    buffer, and names the house system that was asked for, Placidus when
    none was.  The native gateway throws nothing but its fixed houses
    error; the bytecode-module gateway throws only on an object that is
    not ready or has no module. *)
Theorem houses_record_shape
  (eng : Engine) (alloc : gmap Z Z -> Z -> Z)
  (jd latitude longitude : float) (hs : option HouseSystem.t)
  (st : Node.t) (this : Browser.t) :
  match snd (Node.calculateHouses eng jd latitude longitude hs st) with
  | Return h =>
      length (cusps h) = 13%nat
      /\ houseSystem h = default HouseSystem.Placidus hs
  | Throw e => e = JsError.Error "Failed to calculate houses"
  end
  /\ match snd (Browser.calculateHouses eng alloc jd latitude longitude hs
                  this) with
     | Return h =>
         length (cusps h) = 13%nat
         /\ houseSystem h = default HouseSystem.Placidus hs
     | Throw e => Browser.ready this = false \/ Browser.module this = None
     end.
Proof.
  split.
  - unfold Node.calculateHouses, Binding.houses. cbv zeta.
    destruct (hret _ <? 0); cbn [snd]; [reflexivity|].
    cbn [cusps houseSystem]. rewrite slots_length. split; reflexivity.
  - unfold Browser.calculateHouses, Browser.withModule, Browser._checkReady,
      Browser.usingModule.
    destruct this as [[m|] [|]]; cbn [Browser.ready Browser.module negb snd];
      try (left; reflexivity); try (right; reflexivity).
    cbv zeta.
    destruct (Emscripten._malloc alloc (13 * 8) m) as [p1 m1].
    destruct (Emscripten._malloc alloc (10 * 8) m1) as [p2 m2].
    destruct (Wasm.swe_houses_wrap _ _ _ _ _ _ _ _) as [code m3].
    cbn [snd cusps houseSystem].
    unfold Browser.readDoubles. rewrite length_map, length_seq.
    split; reflexivity.
Qed.


(** ** Positive durations *)

Lemma iter_xO_pow (m d : positive) :
  Zpos (Pos.iter xO m d) = Zpos m * 2 ^ Zpos d.
Proof.
  induction d as [|d IH] using Pos.peano_ind.
  - simpl. lia.
  - rewrite Pos.iter_succ, Pos2Z.inj_succ, Z.pow_succ_r by lia.
    replace (Zpos (Pos.iter xO m d)~0) with (2 * Zpos (Pos.iter xO m d))
      by lia.
    rewrite IH. ring.
Qed.

(** Aligning a mantissa on a lower exponent scales it by the power of two
    between the exponents. *)
Lemma shl_align_value (m : positive) (e e' : Z) :
  e' <= e -> Zpos (fst (shl_align m e e')) = Zpos m * 2 ^ (e - e').
Proof.
  intros H. unfold shl_align.
  destruct (e' - e) as [|d|d] eqn:Hd; cbn [fst]; try lia.
  - replace (e - e') with 0 by lia. lia.
  - rewrite iter_xO_pow. f_equal. f_equal. lia.
Qed.

Lemma shl_align_exponent (m : positive) (e e' : Z) :
  snd (shl_align m e e') = Z.min e e'.
Proof.
  unfold shl_align. destruct (e' - e) as [|d|d] eqn:Hd; cbn [snd]; lia.
Qed.

(** A valid binary64 number: at most 53 digits, and exactly 53 above the
    least exponent. *)
Lemma valid_digits s m e :
  valid_binary (S754_finite s m e) = true ->
  -1074 <= e /\ Zpos m < 2 ^ 53 /\ (-1074 < e -> 2 ^ 52 <= Zpos m).
Proof.
  intros Hv. pose proof (valid_exponent s m e Hv) as He.
  unfold SpecFloat.valid_binary, bounded, canonical_mantissa, fexp, emin
    in Hv.
  apply andb_prop in Hv. destruct Hv as [Hv _]. apply Z.eqb_eq in Hv.
  change prec with 53 in Hv. change emax with 1024 in Hv.
  pose proof (Zdigits2_bounds (Zpos m) ltac:(lia)) as [[Hlo Hhi] Hd].
  change (Zdigits2 (Zpos m)) with (Zpos (digits2_pos m)) in *.
  split; [exact He|]. split.
  - assert (Zpos (digits2_pos m) <= 53) by lia.
    assert (2 ^ Zpos (digits2_pos m) <= 2 ^ 53)
      by (apply Z.pow_le_mono_r; lia).
    lia.
  - intros Hgt. assert (Zpos (digits2_pos m) = 53) as Heq by lia.
    rewrite Heq in Hlo. exact Hlo.
Qed.

(** On valid numbers, comparing the aligned mantissas is comparing the
    exponents first and the mantissas next. *)
Lemma aligned_compare sx mx ex sy my ey :
  valid_binary (S754_finite sx mx ex) = true ->
  valid_binary (S754_finite sy my ey) = true ->
  (Zpos (fst (shl_align mx ex (Z.min ex ey)))
   ?= Zpos (fst (shl_align my ey (Z.min ex ey))))
  = match ex ?= ey with
    | Lt => Lt
    | Gt => Gt
    | Eq => Pos.compare_cont Eq mx my
    end.
Proof.
  intros Hx Hy.
  destruct (valid_digits _ _ _ Hx) as (Hex & Hmx & Hnx).
  destruct (valid_digits _ _ _ Hy) as (Hey & Hmy & Hny).
  rewrite !shl_align_value by lia.
  destruct (Z.compare_spec ex ey) as [Heq | Hlt | Hgt].
  - subst ey. rewrite Z.min_id, Z.sub_diag. simpl (2 ^ 0).
    rewrite !Z.mul_1_r. reflexivity.
  - rewrite Z.min_l by lia. rewrite Z.sub_diag. simpl (2 ^ 0).
    rewrite Z.mul_1_r. apply Z.compare_lt_iff.
    assert (2 ^ 1 <= 2 ^ (ey - ex)) by (apply Z.pow_le_mono_r; lia).
    specialize (Hny ltac:(lia)). nia.
  - rewrite Z.min_r by lia. rewrite Z.sub_diag. simpl (2 ^ 0).
    rewrite Z.mul_1_r. apply Z.compare_gt_iff.
    assert (2 ^ 1 <= 2 ^ (ex - ey)) by (apply Z.pow_le_mono_r; lia).
    specialize (Hnx ltac:(lia)). nia.
Qed.

Lemma binary_round_aux_negative M e l :
  sf_positive (binary_round_aux 53 1024 true M e l) = false.
Proof.
  unfold binary_round_aux.
  destruct (shr_fexp _ _ _ _ _) as [mrs' e'].
  destruct (shr_fexp _ _ _ _ _) as [mrs'' e''].
  destruct (shr_m mrs''); try reflexivity.
  destruct (_ <=? _); reflexivity.
Qed.

(** The sign of a normalised number is the sign of the integer it is
    made from. *)
Lemma binary_normalize_positive (D e : Z) :
  -1074 <= e ->
  sf_positive (binary_normalize 53 1024 D e false) = (0 <? D).
Proof.
  intros He. destruct D as [|d|d]; cbn [binary_normalize].
  - reflexivity.
  - unfold binary_round.
    pose proof (shl_align_exponent d e
                  (fexp 53 1024 (Zpos (digits2_pos d) + e))) as Hs.
    destruct (shl_align d e _) as [mz ez]. cbn [snd] in Hs.
    change (0 <? Zpos d) with true.
    apply binary_round_aux_positive; [lia|].
    pose proof (Zdigits2_bounds (Zpos mz) ltac:(lia)) as [_ Hd].
    assert (-1074 <= ez) by (subst ez; unfold fexp, emin; lia).
    lia.
  - unfold binary_round. destruct (shl_align d e _) as [mz ez].
    apply binary_round_aux_negative.
Qed.

(** The sign test on a difference is the comparison of its operands, for
    every pair of binary64 numbers (NaN, zeros and infinities
    included). *)
Lemma sub_positive (x y : float) :
  PrimFloat.ltb 0 (x - y) = PrimFloat.ltb y x.
Proof.
  rewrite ltb_zero_positive, sub_spec, ltb_spec.
  pose proof (Prim2SF_valid x) as Hx. pose proof (Prim2SF_valid y) as Hy.
  destruct (Prim2SF x) as [[] | [] | | sx mx ex];
    destruct (Prim2SF y) as [[] | [] | | sy my ey];
    try reflexivity.
  - destruct sy; reflexivity.
  - destruct sy; reflexivity.
  - destruct sx; reflexivity.
  - destruct sx; reflexivity.
  - unfold SF64sub, SFsub. cbv zeta.
    pose proof (valid_exponent _ _ _ Hx) as Hex.
    pose proof (valid_exponent _ _ _ Hy) as Hey.
    change prec with 53. change emax with 1024.
    rewrite binary_normalize_positive by lia.
    pose proof (aligned_compare sx mx ex sy my ey Hx Hy) as Hc.
    set (VX := Zpos (fst (shl_align mx ex (Z.min ex ey)))) in *.
    set (VY := Zpos (fst (shl_align my ey (Z.min ex ey)))) in *.
    assert (HVX : 0 < VX) by (subst VX; lia).
    assert (HVY : 0 < VY) by (subst VY; lia).
    unfold SFltb, SFcompare.
    rewrite (Z.compare_antisym ex ey).
    change (Pos.compare_cont Eq my mx) with (Pos.compare my mx).
    rewrite (Pos.compare_antisym mx my).
    change (Pos.compare_cont Eq mx my) with (Pos.compare mx my) in Hc.
    destruct (Z.compare_spec VX VY) as [Hv | Hv | Hv];
      destruct (ex ?= ey); destruct (Pos.compare mx my);
      try discriminate Hc;
      destruct sx, sy; cbn [cond_Zopp CompOpp];
      match goal with
      | |- (0 <? ?d) = _ => destruct (Z.ltb_spec 0 d)
      end; try reflexivity; lia.
Qed.

Lemma clampedHours_positive (b e : float) :
  PrimFloat.ltb 0 (clampedHours b e)
  = negb (isSentinel b) && negb (isSentinel e) && PrimFloat.ltb b e.
Proof.
  unfold clampedHours, isSentinel. rewrite <- (sub_positive e b).
  destruct (PrimFloat.eqb b 0); [reflexivity|].
  destruct (PrimFloat.eqb e 0); [reflexivity|].
  cbn [orb negb andb].
  destruct (PrimFloat.ltb 0 (e - b)) eqn:H; [|reflexivity].
  rewrite mul_24_positive. exact H.
Qed.

Lemma clampedHours_zero (b e : float) :
  PrimFloat.ltb 0 (clampedHours b e) = false -> clampedHours b e = 0%float.
Proof.
  unfold clampedHours.
  destruct (PrimFloat.eqb b 0 || PrimFloat.eqb e 0); [reflexivity|].
  destruct (PrimFloat.ltb 0 (e - b)) eqn:H; [|reflexivity].
  rewrite mul_24_positive, H. discriminate.
Qed.

(** X18.  A duration of a lunar eclipse record is positive exactly when
    both of its boundaries are set (not the sentinel 0) and the end is
    after the beginning, in the order of binary64 numbers, and, for the
    totality, the type has the Total bit; in every other case, a NaN
    boundary included, it is exactly 0. *)
Theorem durations_positive_iff_ordered (r : LunarEclipseImpl.t) :
  let phase b e :=
    negb (isSentinel b) && negb (isSentinel e) && PrimFloat.ltb b e in
  (PrimFloat.ltb 0 (LunarEclipseImpl.getPartialDuration r)
   = phase (LunarEclipseImpl.partialBegin r) (LunarEclipseImpl.partialEnd r)
   /\ PrimFloat.ltb 0 (LunarEclipseImpl.getTotalDuration r)
      = phase (LunarEclipseImpl.penumbralBegin r)
          (LunarEclipseImpl.penumbralEnd r)
   /\ PrimFloat.ltb 0 (LunarEclipseImpl.getTotalityDuration r)
      = LunarEclipseImpl.isTotal r
        && phase (LunarEclipseImpl.totalBegin r)
             (LunarEclipseImpl.totalEnd r))
  /\ ((PrimFloat.ltb 0 (LunarEclipseImpl.getPartialDuration r) = false ->
       LunarEclipseImpl.getPartialDuration r = 0%float)
      /\ (PrimFloat.ltb 0 (LunarEclipseImpl.getTotalDuration r) = false ->
          LunarEclipseImpl.getTotalDuration r = 0%float)
      /\ (PrimFloat.ltb 0 (LunarEclipseImpl.getTotalityDuration r) = false ->
          LunarEclipseImpl.getTotalityDuration r = 0%float)).
Proof.
  cbv zeta.
  rewrite getPartialDuration_spec, getTotalDuration_spec,
    getTotalityDuration_spec.
  split; [split; [|split] | split; [|split]];
    try apply clampedHours_positive; try apply clampedHours_zero.
  - destruct (LunarEclipseImpl.isTotal r);
      [apply clampedHours_positive | reflexivity].
  - destruct (LunarEclipseImpl.isTotal r);
      [apply clampedHours_zero | reflexivity].
Qed.
